(** * Account core of iota.go: store, magnet links, input selection,
      send pipeline, promoter and sync-interval timer.

    A shallow embedding of the Go sources, one module per package:

    - [Go]        the few pieces of the Go runtime and standard library the
                  sources lean on (errors, strconv, fmt verbs, net/url, time);
    - [Deposit]   account/deposit/deposit.go;
    - [Mongo]     account/store/mongo/mongo.go;
    - [Timer]     util.SyncIntervalTimer;
    - [World]     the outside world of an account (node API, store, clock,
                  seed provider, event machine) as a history-dependent oracle;
    - [Promoter]  account/plugins/promoter/promoter.go;
    - [Account]   account/account.go. *)

From Stdlib Require Import ZArith List String Ascii Bool Lia DecimalString.
From Stdlib Require Import DecimalPos DecimalN DecimalZ.
From stdpp Require Import base gmap strings list.

Local Open Scope string_scope.
Local Open Scope Z_scope.

(* ===================================================================== *)
(** * Go runtime and standard library                                    *)
(* ===================================================================== *)

Module Go.

(** ** Integers *)

Definition uint64_modulus : Z := 2 ^ 64.
Definition max_int64 : Z := 2 ^ 63 - 1.
Definition min_int64 : Z := - 2 ^ 63.

(** Wrap-around of a [uint64] and of an [int64] result. *)
Definition wrap_u64 (n : Z) : Z := n mod uint64_modulus.
Definition wrap_i64 (n : Z) : Z := (n + 2 ^ 63) mod uint64_modulus - 2 ^ 63.

Definition is_u64 (n : Z) : Prop := 0 <= n < uint64_modulus.

(** ** Pointers

    A pointer is seen together with the value it currently points to: the
    address is what [==] and the integer verbs of [fmt] observe, the pointee
    is what [*p] reads.  [nil] is [None] at the use site. *)

Record ptr (A : Type) : Type := Ptr { ptr_addr : Z; ptr_val : A }.
Arguments Ptr {A} _ _.
Arguments ptr_addr {A} _.
Arguments ptr_val {A} _.

(** [*p] on an optional pointer; [None] stands for the nil dereference. *)
Definition deref {A} (p : option (ptr A)) : option A := ptr_val <$> p.

(** ** Errors

    Sentinel errors are compared with [==] in the sources, so each one is a
    constructor of its own; [ErrExt] is any error produced outside of this
    repository (node, driver), known only by its message; [ErrWrap] is
    [errors.Wrap]. *)

Inductive NumErrKind := ErrSyntax | ErrRange.

Inductive error : Type :=
| ErrAddressInvalid            (* deposit.ErrAddressInvalid *)
| ErrUnableToPromote           (* promoter.ErrUnableToPromote *)
| ErrUnableToReattach          (* promoter.ErrUnableToReattach *)
| ErrUnpromotableTail          (* promoter.ErrUnpromotableTail *)
| ErrPendingTransferNotFound   (* store.ErrPendingTransferNotFound *)
| ErrAccountNotFound           (* store.ErrAccountNotFound *)
| ErrInsufficientBalance       (* consts.ErrInsufficientBalance *)
| ErrNoDocuments               (* mongo.ErrNoDocuments *)
| ErrNum (fn input : string) (k : NumErrKind)   (* *strconv.NumError *)
| ErrExt (msg : string)
| ErrWrap (cause : error) (msg : string).

Definition quote : string := String (ascii_of_nat 34) EmptyString.

(** [err.Error()]. *)
Fixpoint Error (e : error) : string :=
  match e with
  | ErrAddressInvalid => "invalid address"
  | ErrUnableToPromote => "unable to promote"
  | ErrUnableToReattach => "unable to reattach"
  | ErrUnpromotableTail => "tail is unpromoteable"
  | ErrPendingTransferNotFound => "pending transfer not found"
  | ErrAccountNotFound => "account not found"
  | ErrInsufficientBalance => "insufficient balance"
  | ErrNoDocuments => "mongo: no documents in result"
  | ErrNum fn input k =>
      "strconv." ++ fn ++ ": parsing " ++ quote ++ input ++ quote ++ ": " ++
      match k with
      | ErrSyntax => "invalid syntax"
      | ErrRange => "value out of range"
      end
  | ErrExt msg => msg
  | ErrWrap cause msg => msg ++ ": " ++ Error cause
  end.

(** [err1 == err2] on error values holding sentinels or opaque errors. *)
Fixpoint error_eqb (a b : error) : bool :=
  match a, b with
  | ErrAddressInvalid, ErrAddressInvalid
  | ErrUnableToPromote, ErrUnableToPromote
  | ErrUnableToReattach, ErrUnableToReattach
  | ErrUnpromotableTail, ErrUnpromotableTail
  | ErrPendingTransferNotFound, ErrPendingTransferNotFound
  | ErrAccountNotFound, ErrAccountNotFound
  | ErrInsufficientBalance, ErrInsufficientBalance
  | ErrNoDocuments, ErrNoDocuments => true
  | ErrNum f1 i1 k1, ErrNum f2 i2 k2 =>
      String.eqb f1 f2 && String.eqb i1 i2 &&
      match k1, k2 with
      | ErrSyntax, ErrSyntax | ErrRange, ErrRange => true
      | _, _ => false
      end
  | ErrExt m1, ErrExt m2 => String.eqb m1 m2
  | ErrWrap c1 m1, ErrWrap c2 m2 => error_eqb c1 c2 && String.eqb m1 m2
  | _, _ => false
  end.

(** A Go result [(v, err)]: [inl err] when [err != nil]. *)
Definition result (A : Type) : Type := error + A.

(** ** strings *)

(** [strings.Cut(s, sep)] for a one-byte separator. *)
Fixpoint cut (sep : ascii) (s : string) : string * option string :=
  match s with
  | EmptyString => (EmptyString, None)
  | String c r =>
      if Ascii.eqb c sep then (EmptyString, Some r)
      else let '(a, b) := cut sep r in (String c a, b)
  end.

(** [strings.Split(s, sep)] for a one-byte separator. *)
Fixpoint split_acc (sep : ascii) (cur : string) (s : string) : list string :=
  match s with
  | EmptyString => [cur]
  | String c r =>
      if Ascii.eqb c sep then cur :: split_acc sep EmptyString r
      else split_acc sep (cur ++ String c EmptyString) r
  end.
Definition split (sep : ascii) (s : string) : list string :=
  split_acc sep EmptyString s.

Fixpoint has_prefix (p s : string) : option string :=
  match p, s with
  | EmptyString, _ => Some s
  | String a p', String b s' => if Ascii.eqb a b then has_prefix p' s' else None
  | String _ _, EmptyString => None
  end.

(** [strings.Repeat]. *)
Fixpoint repeat_string (s : string) (n : nat) : string :=
  match n with
  | O => EmptyString
  | S n' => s ++ repeat_string s n'
  end.

Definition len (s : string) : Z := Z.of_nat (String.length s).

(** ** strconv *)

Definition digit_of (c : ascii) : option Z :=
  let n := Z.of_nat (nat_of_ascii c) in
  if (48 <=? n) && (n <=? 57) then Some (n - 48) else None.

(** The digit loop of [strconv.ParseUint] in base 10. *)
Fixpoint parse_digits (acc : Z) (s : string) : option Z :=
  match s with
  | EmptyString => Some acc
  | String c r =>
      match digit_of c with
      | Some d => parse_digits (10 * acc + d) r
      | None => None
      end
  end.

(** [strconv.ParseUint(s, 10, 64)]. *)
Definition ParseUint (s : string) : result Z :=
  match s with
  | EmptyString => inl (ErrNum "ParseUint" s ErrSyntax)
  | _ =>
      match parse_digits 0 s with
      | None => inl (ErrNum "ParseUint" s ErrSyntax)
      | Some n =>
          if n <? uint64_modulus then inr n
          else inl (ErrNum "ParseUint" s ErrRange)
      end
  end.

(** [strconv.ParseInt(s, 10, 64)]: an optional sign, then [ParseUint]. *)
Definition ParseInt (s : string) : result Z :=
  match s with
  | EmptyString => inl (ErrNum "ParseInt" s ErrSyntax)
  | String c r =>
      let neg := Ascii.eqb c "-" in
      let body := if neg || Ascii.eqb c "+" then r else s in
      match body with
      | EmptyString => inl (ErrNum "ParseInt" s ErrSyntax)
      | _ =>
          match parse_digits 0 body with
          | None => inl (ErrNum "ParseInt" s ErrSyntax)
          | Some n =>
              if neg then
                if n <=? 2 ^ 63 then inr (- n)
                else inl (ErrNum "ParseInt" s ErrRange)
              else
                if n <=? max_int64 then inr n
                else inl (ErrNum "ParseInt" s ErrRange)
          end
      end
  end.

(** [strconv.FormatUint(n, 10)]. *)
Definition FormatUint (n : Z) : string :=
  NilZero.string_of_uint (N.to_uint (Z.to_N n)).

(** ** fmt verbs *)

(** [%d] on a signed integer. *)
Definition fmt_d_int (n : Z) : string := NilZero.string_of_int (Z.to_int n).

(** [%d] on a pointer: fmt prints the address as an unsigned integer,
    whatever the pointer points to; the nil pointer prints as [0]. *)
Definition fmt_d_ptr {A} (p : option (ptr A)) : string :=
  match p with
  | None => FormatUint 0
  | Some q => FormatUint (ptr_addr q)
  end.

(** [%v] on a bool. *)
Definition fmt_v_bool (b : bool) : string := if b then "true" else "false".

(** ** net/url

    [url.Parse] on what a magnet link needs: the fragment is cut off at the
    first [#], the scheme ends at the first [:], the query starts after the
    first [?], and after [//] the authority runs up to the next [/].  User
    info, ports, the validation of the host and percent-escapes are left
    out, so this is [url.Parse] only on links whose host is a tryte string
    (it holds none of [@ : [ %]). *)

Record URL := { Scheme : string; Host : string; Path : string; RawQuery : string }.

Definition is_alpha (c : ascii) : bool :=
  let n := nat_of_ascii c in
  ((65 <=? n) && (n <=? 90) || (97 <=? n) && (n <=? 122))%nat.

Definition is_scheme_extra (c : ascii) : bool :=
  let n := nat_of_ascii c in
  ((48 <=? n) && (n <=? 57) || (n =? 43) || (n =? 45) || (n =? 46))%nat.

(** [getScheme]: [inl] on a leading colon, no scheme when another byte
    shows up first. *)
Fixpoint getScheme_from (i : nat) (seen : string) (s whole : string)
  : result (string * string) :=
  match s with
  | EmptyString => inr (EmptyString, whole)
  | String c r =>
      if is_alpha c then getScheme_from (S i) (seen ++ String c EmptyString) r whole
      else if is_scheme_extra c then
        match i with
        | O => inr (EmptyString, whole)
        | _ => getScheme_from (S i) (seen ++ String c EmptyString) r whole
        end
      else if Ascii.eqb c ":" then
        match i with
        | O => inl (ErrExt "missing protocol scheme")
        | _ => inr (seen, r)
        end
      else inr (EmptyString, whole)
  end.

Definition url_Parse (rawURL : string) : result URL :=
  let '(u, _) := cut "#" rawURL in
  match getScheme_from O EmptyString u u with
  | inl e => inl (ErrWrap e "parse")
  | inr (scheme, rest) =>
      let '(rest, q) := cut "?" rest in
      let query := match q with Some x => x | None => EmptyString end in
      match has_prefix "//" rest with
      | Some after =>
          let '(authority, p) := cut "/" after in
          inr {| Scheme := scheme; Host := authority;
                 Path := match p with Some x => String "/" x | None => EmptyString end;
                 RawQuery := query |}
      | None =>
          inr {| Scheme := scheme; Host := EmptyString; Path := rest; RawQuery := query |}
      end
  end.

(** [URL.Query()]: the pairs of the raw query in order.  Keys and values are
    taken as they stand: the unescaping of [%] and [+] and the refusal of [;]
    are left out, so this is [URL.Query] only on queries without these
    bytes. *)
Definition url_Query (u : URL) : list (string * string) :=
  omap (fun kv =>
          match kv with
          | EmptyString => None
          | _ => let '(k, v) := cut "=" kv in
                 Some (k, match v with Some x => x | None => EmptyString end)
          end)
       (split "&" (RawQuery u)).

(** [Values.Get(key)]: the first value of the key, or the empty string. *)
Fixpoint values_Get (q : list (string * string)) (key : string) : string :=
  match q with
  | [] => EmptyString
  | (k, v) :: r => if String.eqb k key then v else values_Get r key
  end.

(** ** time

    A [time.Time] as its wall-clock reading: seconds since the Unix epoch and
    nanoseconds within the second.  A [time.Duration] is an [int64] count of
    nanoseconds. *)

Record Time := { t_sec : Z; t_nsec : Z }.

Definition time_Unix (sec nsec : Z) : Time :=
  {| t_sec := sec + nsec / 1000000000; t_nsec := nsec mod 1000000000 |}.

Definition Time_Unix (t : Time) : Z := t_sec t.

Definition unix_nanos (t : Time) : Z := t_sec t * 1000000000 + t_nsec t.

Definition Second : Z := 1000000000.
Definition Minute : Z := 60 * Second.

(** [t.Sub(u)]: the difference, saturated to the range of a Duration. *)
Definition Time_Sub (t u : Time) : Z :=
  let d := unix_nanos t - unix_nanos u in
  if d <? min_int64 then min_int64
  else if max_int64 <? d then max_int64
  else d.

(** [t.After(u)] and [t.Before(u)]. *)
Definition Time_After (t u : Time) : bool := unix_nanos u <? unix_nanos t.
Definition Time_Before (t u : Time) : bool := unix_nanos t <? unix_nanos u.

(** [t.Add(d)]. *)
Definition Time_Add (t : Time) (d : Z) : Time :=
  time_Unix (t_sec t) (t_nsec t + d).

End Go.

Import Go.

(** Trytes and hashes are Go strings over the alphabet [9A-Z]. *)
Definition Trytes := string.
Definition Hash := string.

Definition is_tryte (c : ascii) : bool :=
  let n := nat_of_ascii c in
  ((n =? 57) || (65 <=? n) && (n <=? 90))%nat.

Fixpoint IsTrytes_chars (s : string) : bool :=
  match s with
  | EmptyString => true
  | String c r => is_tryte c && IsTrytes_chars r
  end.

(** [guards.IsTrytes]: non-empty and over the tryte alphabet. *)
Definition IsTrytes (s : string) : bool :=
  match s with
  | EmptyString => false
  | _ => IsTrytes_chars s
  end.

(* ===================================================================== *)
(** * account/deposit                                                    *)
(* ===================================================================== *)

Module Deposit.

(** [consts.AddressWithChecksumTrytesSize]. *)
Definition AddressWithChecksumTrytesSize : Z := 90.

Record Request := {
  TimeoutAt : option (ptr Time);
  MultiUse : bool;
  ExpectedAmount : option (ptr Z)
}.

Record Conditions := {
  Req : Request;
  Address : Hash
}.

Definition ConditionExpires : string := "t".
Definition ConditionMultiUse : string := "m".
Definition ConditionAmount : string := "am".

(** [Conditions.AsMagnetLink]:
    [fmt.Sprintf("iota://%s/?t=%d&m=%v&am=%d", dc.Address, dc.TimeoutAt.Unix(),
    dc.MultiUse, dc.ExpectedAmount)].  The last operand is the pointer
    [dc.ExpectedAmount] itself, not [*dc.ExpectedAmount].  [None] is the
    nil-pointer panic of [dc.TimeoutAt.Unix()]. *)
Definition AsMagnetLink (dc : Conditions) : option string :=
  match deref (TimeoutAt (Req dc)) with
  | None => None
  | Some timeout =>
      Some ("iota://" ++ Address dc ++
            "/?t=" ++ fmt_d_int (Time_Unix timeout) ++
            "&m=" ++ fmt_v_bool (MultiUse (Req dc)) ++
            "&am=" ++ fmt_d_ptr (ExpectedAmount (Req dc)))
  end.

(** [ParseMagnetLink].  The two locals [expire] and [expectedAmount] escape
    through their addresses; [a_expire] and [a_amount] are the addresses the
    runtime gives them. *)
Definition ParseMagnetLink (a_expire a_amount : Z) (s : string)
  : result Conditions :=
  match url_Parse s with
  | inl err => inl err
  | inr link =>
      let query := url_Query link in
      if negb (len (Host link) =? AddressWithChecksumTrytesSize) then
        inl (ErrWrap ErrAddressInvalid "address must be 90 trytes long")
      else
        match ParseInt (values_Get query ConditionExpires) with
        | inl err => inl (ErrWrap err "invalid expire timestamp")
        | inr expiresSeconds =>
            let expire := time_Unix expiresSeconds 0 in
            let multiUse := String.eqb (values_Get query ConditionMultiUse) "true" in
            match ParseUint (values_Get query ConditionAmount) with
            | inl err => inl (ErrWrap err "invalid expected amount")
            | inr expectedAmount =>
                inr {| Req := {| TimeoutAt := Some (Ptr a_expire expire);
                                 MultiUse := multiUse;
                                 ExpectedAmount := Some (Ptr a_amount expectedAmount) |};
                       Address := EmptyString |}
            end
        end
  end.

(** Two conditions are the same request when they agree on the address, on
    the timeout read in seconds, on the multi-use flag and on the amount the
    pointer leads to. *)
Definition same_conditions (a b : Conditions) : bool :=
  String.eqb (Address a) (Address b) &&
  bool_decide (Time_Unix <$> deref (TimeoutAt (Req a)) = Time_Unix <$> deref (TimeoutAt (Req b))) &&
  Bool.eqb (MultiUse (Req a)) (MultiUse (Req b)) &&
  bool_decide (deref (ExpectedAmount (Req a)) = deref (ExpectedAmount (Req b))).

(** The same conditions with another amount behind the same pointer. *)
Definition with_amount (v : Z) (dc : Conditions) : Conditions :=
  {| Req := {| TimeoutAt := TimeoutAt (Req dc); MultiUse := MultiUse (Req dc);
               ExpectedAmount := (fun q => Ptr (ptr_addr q) v) <$> ExpectedAmount (Req dc) |};
     Address := Address dc |}.

(** Conditions for a multi-use deposit of 1000 until second 1700000000. *)
Definition sample_conditions : Conditions :=
  {| Req := {| TimeoutAt := Some (Ptr 824633802800 (time_Unix 1700000000 0));
               MultiUse := true;
               ExpectedAmount := Some (Ptr 824633811096 1000) |};
     Address := repeat_string "A" 81 ++ repeat_string "9" 9 |}.

End Deposit.

(* ===================================================================== *)
(** * account/store: the record types the store back-ends share         *)
(* ===================================================================== *)

Module Store.

(** [store.PendingTransfer]: the stored essence of the bundle and the tail
    hashes known for it, oldest first. *)
Record PendingTransfer := {
  Bundle : list (list Z);
  Tails : list Hash
}.

(** [store.StoredDepositRequest], which embeds [deposit.Request]. *)
Record StoredDepositRequest := {
  SecurityLevel : Z;
  Request : Deposit.Request
}.

End Store.

(* ===================================================================== *)
(** * account/store/mongo                                                *)
(* ===================================================================== *)

Module Mongo.
Import Store.

(** The document of one account ([accountstate]); the deposit requests are
    keyed by the decimal text of their key index. *)
Record accountstate := {
  ID : string;
  KeyIndex : Z;
  DepositRequests : gmap string StoredDepositRequest;
  PendingTransfers : gmap string PendingTransfer
}.

Definition newaccountstate : accountstate :=
  {| ID := EmptyString; KeyIndex := 0; DepositRequests := ∅; PendingTransfers := ∅ |}.

(** The collection: documents by [_id]. *)
Abbreviation collection := (gmap string accountstate).

(** ** The driver

    Every driver call makes one round trip; [fault] is what that round trip
    reports: [None] when it went through, [Some e] when the driver gives up
    with [e] and the collection is left as it was. *)

Record UpdateResult := { MatchedCount : Z; ModifiedCount : Z }.

(** [coll.UpdateOne(ctx, {_id: id, ...cond}, mutation)].  A filter that
    matches no document is not an error: the result reports zero matches. *)
Definition UpdateOne (fault : option error) (coll : collection) (id : string)
    (cond : accountstate -> bool) (mutation : accountstate -> accountstate)
  : result UpdateResult * collection :=
  match fault with
  | Some e => (inl e, coll)
  | None =>
      match coll !! id with
      | Some doc =>
          if cond doc
          then (inr {| MatchedCount := 1; ModifiedCount := 1 |}, <[id := mutation doc]> coll)
          else (inr {| MatchedCount := 0; ModifiedCount := 0 |}, coll)
      | None => (inr {| MatchedCount := 0; ModifiedCount := 0 |}, coll)
      end
  end.

(** [coll.DeleteOne(ctx, {_id: id})], returning [DeletedCount]. *)
Definition DeleteOne (fault : option error) (coll : collection) (id : string)
  : result Z * collection :=
  match fault with
  | Some e => (inl e, coll)
  | None =>
      match coll !! id with
      | Some _ => (inr 1, delete id coll)
      | None => (inr 0, coll)
      end
  end.

(** [coll.FindOne(ctx, {_id: id})] followed by [Decode]. *)
Definition FindOne (fault : option error) (coll : collection) (id : string)
  : result accountstate :=
  match fault with
  | Some e => inl e
  | None =>
      match coll !! id with
      | Some doc => inr doc
      | None => inl ErrNoDocuments
      end
  end.

(** [coll.InsertOne(ctx, doc)]. *)
Definition InsertOne (fault : option error) (coll : collection) (doc : accountstate)
  : option error * collection :=
  match fault with
  | Some e => (Some e, coll)
  | None =>
      match coll !! ID doc with
      | Some _ => (Some (ErrExt "E11000 duplicate key error"), coll)
      | None => (None, <[ID doc := doc]> coll)
      end
  end.

(** The error a store method returns after [_, err := UpdateOne(...)]. *)
Definition err_of {A} (r : result A) : option error :=
  match r with
  | inl e => Some e
  | inr _ => None
  end.

Section WithEssence.

(** The compression of signed bundle trytes to their stored essence. *)
Variable compress : list Trytes -> list (list Z).

(** Modelled from the spec: [store.TrytesToPendingTransfer] is not among the
    sources.  A pending transfer holds the compressed essence of the bundle
    trytes; its list of tails is filled by the store, starting from none. *)
Definition TrytesToPendingTransfer (bundleTrytes : list Trytes) : PendingTransfer :=
  {| Bundle := compress bundleTrytes; Tails := [] |}.

(** Modelled from the spec: [store.NewAccountState] is not among the
    sources.  The spec has [LoadAccount] return a fresh empty state for an
    account it creates: key index 0, no deposit requests, no pending
    transfers. *)
Definition NewAccountState : accountstate := newaccountstate.

(** ** The store methods *)

Definition LoadAccount (f1 f2 : option error) (coll : collection) (id : string)
  : result accountstate * collection :=
  match FindOne f1 coll id with
  | inr state => (inr state, coll)
  | inl err =>
      if error_eqb err ErrNoDocuments then
        let state := {| ID := id; KeyIndex := 0;
                        DepositRequests := ∅; PendingTransfers := ∅ |} in
        match InsertOne f2 coll state with
        | (Some e, coll') => (inl e, coll')
        | (None, coll') => (inr NewAccountState, coll')
        end
      else (inl err, coll)
  end.

Definition RemoveAccount (fault : option error) (coll : collection) (id : string)
  : option error * collection :=
  match DeleteOne fault coll id with
  | (inl err, coll') => (Some err, coll')
  | (inr deleted, coll') =>
      if deleted =? 0 then (Some ErrAccountNotFound, coll') else (None, coll')
  end.

Definition ReadIndex (fault : option error) (coll : collection) (id : string)
  : result Z :=
  match FindOne fault coll id with
  | inl e => inl e
  | inr doc => inr (KeyIndex doc)
  end.

Definition set_KeyIndex (index : Z) (doc : accountstate) : accountstate :=
  {| ID := ID doc; KeyIndex := index;
     DepositRequests := DepositRequests doc; PendingTransfers := PendingTransfers doc |}.

Definition map_DepositRequests
    (g : gmap string StoredDepositRequest -> gmap string StoredDepositRequest)
    (doc : accountstate) : accountstate :=
  {| ID := ID doc; KeyIndex := KeyIndex doc;
     DepositRequests := g (DepositRequests doc); PendingTransfers := PendingTransfers doc |}.

Definition map_PendingTransfers
    (g : gmap string PendingTransfer -> gmap string PendingTransfer)
    (doc : accountstate) : accountstate :=
  {| ID := ID doc; KeyIndex := KeyIndex doc;
     DepositRequests := DepositRequests doc; PendingTransfers := g (PendingTransfers doc) |}.

Definition any_doc (_ : accountstate) : bool := true.

Definition WriteIndex (fault : option error) (coll : collection) (id : string) (index : Z)
  : option error * collection :=
  let '(r, coll') := UpdateOne fault coll id any_doc (set_KeyIndex index) in
  (err_of r, coll').

(** [MongoStore.AddDepositRequest].  A field of a document is kept as the Go
    value that was handed to the encoder.  What the BSON encoding keeps of a
    request (its pointers are not kept, its times only to the millisecond) is
    outside this model. *)
Definition AddDepositRequest (fault : option error) (coll : collection) (id : string)
    (index : Z) (depositRequest : StoredDepositRequest) : option error * collection :=
  let indexStr := FormatUint index in
  let '(r, coll') :=
    UpdateOne fault coll id any_doc (map_DepositRequests (insert indexStr depositRequest)) in
  (err_of r, coll').

Definition RemoveDepositRequest (fault : option error) (coll : collection) (id : string)
    (index : Z) : option error * collection :=
  let indexStr := FormatUint index in
  let '(r, coll') :=
    UpdateOne fault coll id any_doc (map_DepositRequests (delete indexStr)) in
  (err_of r, coll').

(** [MongoStore.GetDepositRequests].  The entries come back under the decimal
    texts they are stored under; the decoding of the values and [convert],
    which parses the keys back into [uint64], are left out. *)
Definition GetDepositRequests (fault : option error) (coll : collection) (id : string)
  : result (gmap string StoredDepositRequest) :=
  match FindOne fault coll id with
  | inl e => inl e
  | inr doc => inr (DepositRequests doc)
  end.

(** The [$unset] map built from the variadic [indices]. *)
Definition unset_indices (indices : list Z)
    (m : gmap string StoredDepositRequest) : gmap string StoredDepositRequest :=
  foldr (fun index acc => delete (FormatUint index) acc) m indices.

Definition AddPendingTransfer (fault : option error) (coll : collection) (id : string)
    (originTailTxHash : Hash) (bundleTrytes : list Trytes) (indices : list Z)
  : option error * collection :=
  let pendingTransfer := TrytesToPendingTransfer bundleTrytes in
  let pendingTransfer :=
    {| Bundle := Bundle pendingTransfer;
       Tails := Tails pendingTransfer ++ [originTailTxHash] |} in
  let set := map_PendingTransfers (insert originTailTxHash pendingTransfer) in
  let mutation :=
    match indices with
    | [] => set
    | _ => fun doc => map_DepositRequests (unset_indices indices) (set doc)
    end in
  let '(r, coll') := UpdateOne fault coll id any_doc mutation in
  (err_of r, coll').

Definition RemovePendingTransfer (fault : option error) (coll : collection) (id : string)
    (originTailTxHash : Hash) : option error * collection :=
  let '(r, coll') :=
    UpdateOne fault coll id any_doc (map_PendingTransfers (delete originTailTxHash)) in
  (err_of r, coll').

(** [$addToSet]: the value is appended unless the array already holds it. *)
Definition addToSet (x : Hash) (l : list Hash) : list Hash :=
  if existsb (String.eqb x) l then l else l ++ [x].

Definition addToSet_tails (newTailTxHash : Hash) (pt : PendingTransfer) : PendingTransfer :=
  {| Bundle := Bundle pt; Tails := addToSet newTailTxHash (Tails pt) |}.

(** The filter [{"pending_transfers.<origin>": {$exists: true}}]. *)
Definition has_pending (originTailTxHash : Hash) (doc : accountstate) : bool :=
  match PendingTransfers doc !! originTailTxHash with
  | Some _ => true
  | None => false
  end.

Definition AddTailHash (fault : option error) (coll : collection) (id : string)
    (originTailTxHash newTailTxHash : Hash) : option error * collection :=
  let '(r, coll') :=
    UpdateOne fault coll id (has_pending originTailTxHash)
      (map_PendingTransfers (alter (addToSet_tails newTailTxHash) originTailTxHash)) in
  (err_of r, coll').

Definition GetPendingTransfers (fault : option error) (coll : collection) (id : string)
  : result (gmap string PendingTransfer) :=
  match FindOne fault coll id with
  | inl e => inl e
  | inr doc => inr (PendingTransfers doc)
  end.

(** ** Reachable collections

    The mutating calls a client can make.  A tail hash that keys a pending
    transfer is spliced into a dotted field path, and is a tryte string. *)

Inductive op :=
| OpLoadAccount (f1 f2 : option error) (id : string)
| OpRemoveAccount (fault : option error) (id : string)
| OpWriteIndex (fault : option error) (id : string) (index : Z)
| OpAddDepositRequest (fault : option error) (id : string) (index : Z)
    (req : StoredDepositRequest)
| OpRemoveDepositRequest (fault : option error) (id : string) (index : Z)
| OpAddPendingTransfer (fault : option error) (id : string) (origin : Hash)
    (bundleTrytes : list Trytes) (indices : list Z)
| OpRemovePendingTransfer (fault : option error) (id : string) (origin : Hash)
| OpAddTailHash (fault : option error) (id : string) (origin newTail : Hash).

Definition op_wf (o : op) : bool :=
  match o with
  | OpAddPendingTransfer _ _ origin _ _
  | OpRemovePendingTransfer _ _ origin
  | OpAddTailHash _ _ origin _ => IsTrytes origin
  | _ => true
  end.

Definition apply_op (o : op) (coll : collection) : collection :=
  match o with
  | OpLoadAccount f1 f2 id => snd (LoadAccount f1 f2 coll id)
  | OpRemoveAccount f id => snd (RemoveAccount f coll id)
  | OpWriteIndex f id index => snd (WriteIndex f coll id index)
  | OpAddDepositRequest f id index req => snd (AddDepositRequest f coll id index req)
  | OpRemoveDepositRequest f id index => snd (RemoveDepositRequest f coll id index)
  | OpAddPendingTransfer f id origin trytes indices =>
      snd (AddPendingTransfer f coll id origin trytes indices)
  | OpRemovePendingTransfer f id origin => snd (RemovePendingTransfer f coll id origin)
  | OpAddTailHash f id origin newTail => snd (AddTailHash f coll id origin newTail)
  end.

Definition run_ops (ops : list op) (coll : collection) : collection :=
  fold_left (fun c o => apply_op o c) ops coll.

Inductive reachable : collection -> Prop :=
| reach_empty : reachable ∅
| reach_step coll o :
    reachable coll -> op_wf o = true -> reachable (apply_op o coll).

(** Every pending transfer starts its tails with the hash it is keyed by. *)
Definition keyed_by_first_tail (pts : gmap string PendingTransfer) : Prop :=
  forall key pt, pts !! key = Some pt -> head (Tails pt) = Some key.

Definition store_inv (coll : collection) : Prop :=
  forall id doc, coll !! id = Some doc -> keyed_by_first_tail (PendingTransfers doc).

End WithEssence.

(** ** Sample data *)

(** An essence that keeps one trit list per transaction, for the samples. *)
Definition sample_compress (trytes : list Trytes) : list (list Z) :=
  map (fun _ => [0; 1; -1]) trytes.

Definition sample_id : string := "9f86d081884c7d659a2feaa0c55ad015a3bf4f1b2b0b822cd15d6c15b0f00a08".
Definition tail_A : Hash := repeat_string "A" 81.
Definition tail_B : Hash := repeat_string "B" 81.
Definition tail_C : Hash := repeat_string "C" 81.

(** A fresh account, as [LoadAccount] leaves it in an empty collection. *)
Definition sample_fresh : collection :=
  apply_op sample_compress (OpLoadAccount None None sample_id) ∅.

(** The ops of an account that sends a bundle, reattaches it once, sends a
    second bundle and sees the first confirmed. *)
Definition sample_op1 : op := OpLoadAccount None None sample_id.
Definition sample_op2 : op := OpAddPendingTransfer None sample_id tail_A ["TX1"; "TX0"] [1; 2].
Definition sample_op3 : op := OpAddTailHash None sample_id tail_A tail_B.
Definition sample_op4 : op := OpAddPendingTransfer None sample_id tail_C ["TX0"] [].

End Mongo.

(* ===================================================================== *)
(** * util: the sync-interval timer                                      *)
(* ===================================================================== *)

Module Timer.

(** [SyncFunc]: what the n-th call of the function returns. *)
Definition SyncFunc := nat -> option error.

Record SyncIntervalTimer := {
  f : SyncFunc;
  onError : bool;                 (* whether the onError callback is non-nil *)
  intervalTimer : option Z        (* nil, or a time.Timer armed with a duration *)
}.

(** [NewSyncIntervalTimer]: the interval timer is only created for a
    positive interval. *)
Definition NewSyncIntervalTimer (interval : Z) (f : SyncFunc) (onError : bool)
  : SyncIntervalTimer :=
  {| f := f; onError := onError;
     intervalTimer := if 0 <? interval then Some interval else None |}.

(** What the other goroutines and the runtime can do to the loop of [Start]:
    the timer channel delivers (and, once the function has returned, a
    [Stop] is or is not waiting on the shutdown channel), a [Pause] takes the
    token from [sync], a [Resume] gives it back, a [Stop] gets through. *)
Inductive event :=
| EvTick (stopWaiting : bool)
| EvPause
| EvResume
| EvShutdown.

(** What the loop does that others can see. *)
Inductive action :=
| CallF (n : nat)
| CallOnError (e : error)
| CloseSync.

Inductive loc :=
| AtSelect          (* blocked in the select of the loop *)
| AwaitResume       (* blocked in [<-sit.sync] *)
| Returned.         (* left the loop and closed [sync] *)

Record loop := {
  at_loc : loc;
  fired : bool;       (* the time.Timer has sent on its channel *)
  calls : nat;        (* how often f has been called *)
  log : list action
}.

Definition set_loc (l : loc) (s : loop) : loop :=
  {| at_loc := l; fired := fired s; calls := calls s; log := log s |}.

Definition leave (s : loop) : loop :=
  {| at_loc := Returned; fired := fired s; calls := calls s;
     log := log s ++ [CloseSync] |}.

(** One turn of the loop of [Start]; [None] when the event cannot happen
    where the loop stands. *)
Definition step (sit : SyncIntervalTimer) (s : loop) (ev : event) : option loop :=
  match intervalTimer sit with
  | None =>
      (* loop exitA *)
      match at_loc s, ev with
      | AtSelect, EvPause => Some (set_loc AwaitResume s)
      | AwaitResume, EvResume => Some (set_loc AtSelect s)
      | AtSelect, EvShutdown => Some (leave s)
      | _, _ => None
      end
  | Some _ =>
      (* loop exitB *)
      match at_loc s, ev with
      | AtSelect, EvTick stopWaiting =>
          if fired s then None
          else
            let r := f sit (calls s) in
            let reported :=
              match r with
              | Some err => if onError sit then [CallOnError err] else []
              | None => []
              end in
            let s' := {| at_loc := AtSelect; fired := true; calls := S (calls s);
                         log := log s ++ [CallF (calls s)] ++ reported |} in
            Some (if stopWaiting then leave s' else s')
      | AtSelect, EvPause => Some (set_loc AwaitResume s)
      | AwaitResume, EvResume => Some (set_loc AtSelect s)
      | AtSelect, EvShutdown => Some (leave s)
      | _, _ => None
      end
  end.

Definition initial : loop :=
  {| at_loc := AtSelect; fired := false; calls := 0; log := [] |}.

Fixpoint run (sit : SyncIntervalTimer) (s : loop) (evs : list event) : option loop :=
  match evs with
  | [] => Some s
  | ev :: rest =>
      match step sit s ev with
      | Some s' => run sit s' rest
      | None => None
      end
  end.

(** [Start] against a schedule of events: where the loop stands after them,
    or [None] when the schedule is not one the loop can follow. *)
Definition Start (sit : SyncIntervalTimer) (evs : list event) : option loop :=
  run sit initial evs.

(** The calls of f among the actions of a loop. *)
Definition is_CallF (a : action) : bool :=
  match a with
  | CallF _ => true
  | _ => false
  end.

Definition f_calls (s : loop) : list action := filter (fun a => is_CallF a = true) (log s).

(** ** Sample data *)

(** A function that fails on its second call. *)
Definition sample_f : SyncFunc :=
  fun n => match n with
           | 1%nat => Some (ErrExt "poll failed")
           | _ => None
           end.

(** A pause with its resume, twice, and then a stop. *)
Definition sample_schedule : list event :=
  [EvPause; EvResume; EvPause; EvResume; EvShutdown].

End Timer.

(* ===================================================================== *)
(** * The world around an account                                        *)
(* ===================================================================== *)

Module World.
Import Store.
Local Open Scope list_scope.

(** ** Data of the node API *)

Record Transaction := {
  tx_Hash : Hash;
  tx_Address : Hash;
  tx_Value : Z;                       (* int64 *)
  tx_Timestamp : Z;                   (* uint64, seconds *)
  tx_Bundle : Hash;
  tx_Persistence : option (ptr bool)  (* *bool *)
}.

Abbreviation Bundle := (list Transaction).

Record Transfer := {
  tr_Address : Hash;
  tr_Value : Z;                       (* uint64 *)
  tr_Message : Trytes;
  tr_Tag : Trytes
}.

(** [bundle.EmptyTransfer]. *)
Definition EmptyTransfer : Transfer :=
  {| tr_Address := repeat_string "9" 81; tr_Value := 0;
     tr_Message := EmptyString; tr_Tag := EmptyString |}.

Record Input := {
  in_Address : Hash;
  in_KeyIndex : Z;
  in_Security : Z;
  in_Balance : Z
}.

Record TransactionsToApprove := {
  TrunkTransaction : Hash;
  BranchTransaction : Hash
}.

Record PrepareTransfersOptions := {
  Inputs : list Input;
  RemainderAddress : option Hash;
  Timestamp : option Z
}.

Definition no_options : PrepareTransfersOptions :=
  {| Inputs := []; RemainderAddress := None; Timestamp := None |}.

(** ** Events *)

Inductive Event :=
| EventError
| EventSendingTransfer
| EventShutdown
| EventPromotion          (* 200 *)
| EventReattachment.      (* 201 *)

Record PromotionReattachmentEvent := {
  OriginTailTxHash : Hash;
  BundleHash : Hash;
  PromotionTailTxHash : Hash;
  ReattachmentTailTxHash : Hash
}.

Inductive Payload :=
| PError (e : error)
| PBundle (b : Bundle)
| PPromotionReattachment (ev : PromotionReattachmentEvent)
| PNothing.

(** ** Calls

    Everything an account or a plugin does to the outside: a store method, a
    node API method, the clock, the seed provider, the event machine. *)

Inductive Call :=
| CGetDepositRequests (id : string)
| CGetPendingTransfers (id : string)
| CWriteIndex (id : string) (index : Z)
| CAddDepositRequest (id : string) (index : Z) (req : StoredDepositRequest)
| CRemoveDepositRequest (id : string) (index : Z)
| CAddPendingTransfer (id : string) (originTail : Hash) (trytes : list Trytes)
    (indices : list Z)
| CRemovePendingTransfer (id : string) (originTail : Hash)
| CAddTailHash (id : string) (originTail newTail : Hash)
| CGetLatestSolidSubtangleMilestone
| CGetBalances (addrs : list Hash) (threshold : Z) (tip : Hash)
| CGetBundlesFromAddresses (addrs : list Hash) (inclusion : bool)
| CCheckConsistency (tail : Hash)
| CGetTrytes (hash : Hash)
| CGetTransactionsToApprove (depth : Z) (reference : option Hash)
| CPrepareTransfers (seed : Trytes) (transfers : list Transfer)
    (opts : PrepareTransfersOptions)
| CAttachToTangle (trunk branch : Hash) (mwm : Z) (trytes : list Trytes)
| CStoreAndBroadcast (trytes : list Trytes)
| CNow
| CTime
| CSeed
| CEmit (payload : Payload) (ev : Event).

Abbreviation history := (list Call).

(** The world answers each call; an answer may depend on everything that was
    called before (the node and the store are shared with other goroutines
    and change under the caller's feet).  Maps come back as the list of their
    entries in the order a [range] over them would visit.  The last fields
    are the pure library functions the sources call. *)
Record Env := {
  store_GetDepositRequests : history -> string -> result (list (Z * StoredDepositRequest));
  store_GetPendingTransfers : history -> string -> result (list (Hash * PendingTransfer));
  store_WriteIndex : history -> string -> Z -> option error;
  store_AddDepositRequest : history -> string -> Z -> StoredDepositRequest -> option error;
  store_RemoveDepositRequest : history -> string -> Z -> option error;
  store_AddPendingTransfer : history -> string -> Hash -> list Trytes -> list Z -> option error;
  store_AddTailHash : history -> string -> Hash -> Hash -> option error;
  api_GetLatestSolidSubtangleMilestone : history -> result Hash;
  api_GetBalances : history -> list Hash -> Z -> Hash -> result (list Z);
  api_GetBundlesFromAddresses : history -> list Hash -> bool -> result (list Bundle);
  api_CheckConsistency : history -> Hash -> result (bool * string);
  api_GetTrytes : history -> Hash -> result (list Trytes);
  api_GetTransactionsToApprove : history -> Z -> option Hash -> result TransactionsToApprove;
  api_PrepareTransfers : history -> Trytes -> list Transfer -> PrepareTransfersOptions ->
                         result (list Trytes);
  api_AttachToTangle : history -> Hash -> Hash -> Z -> list Trytes -> result (list Trytes);
  api_StoreAndBroadcast : history -> list Trytes -> result (list Trytes);
  clock_Now : history -> result Time;
  timesrc_Time : history -> result Time;
  prov_Seed : history -> result Trytes;
  GenerateAddress : Trytes -> Z -> Z -> bool -> Hash * option error;
  AsTransactionObject : Trytes -> result Transaction;
  AsTransactionObjects : list Trytes -> result Bundle;
  TransactionsToTrytes : Bundle -> result (list Trytes);
  PendingTransferToBundle : PendingTransfer -> result Bundle
}.

(** ** The monad of a goroutine

    A computation reads the history so far and yields its value together with
    the calls it made, in order; [None] is a panic, which ends whatever runs
    after it. *)
Definition M (A : Type) : Type := history -> option A * list Call.

Definition ret {A} (a : A) : M A := fun _ => (Some a, []).

Definition bind {A B} (m : M A) (k : A -> M B) : M B :=
  fun h =>
    match m h with
    | (Some a, l1) => let '(b, l2) := k a (h ++ l1) in (b, l1 ++ l2)
    | (None, l1) => (None, l1)
    end.

Definition panic {A} : M A := fun _ => (None, []).

(** A call: its answer is asked of the history before it. *)
Definition call {A} (c : Call) (answer : history -> A) : M A :=
  fun h => (Some (answer h), [c]).

(** Run [m] and hand its panic to the caller as a value, the way a deferred
    function sees it. *)
Definition attempt {A} (m : M A) : M (option A) :=
  fun h => let '(a, l) := m h in (Some a, l).

Declare Scope go_scope.
Delimit Scope go_scope with go.
Notation "'let!' x ':=' m 'in' k" := (bind m (fun x => k))
  (at level 10, x name, m at level 100, k at level 200) : go_scope.
Notation "'do!' m 'in' k" := (bind m (fun _ => k))
  (at level 10, m at level 100, k at level 200) : go_scope.

(** The value and the calls of a run. *)
Definition value {A} (r : option A * list Call) : option A := fst r.
Definition calls {A} (r : option A * list Call) : list Call := snd r.

(** Index expressions panic out of range. *)
Definition index {A} (l : list A) (i : nat) : M A :=
  match l !! i with
  | Some x => ret x
  | None => panic
  end.

Section Calls.
Variable env : Env.

Definition GetDepositRequests (id : string) :=
  call (CGetDepositRequests id) (fun h => store_GetDepositRequests env h id).
Definition GetPendingTransfers (id : string) :=
  call (CGetPendingTransfers id) (fun h => store_GetPendingTransfers env h id).
Definition WriteIndex (id : string) (index : Z) :=
  call (CWriteIndex id index) (fun h => store_WriteIndex env h id index).
Definition AddDepositRequest (id : string) (index : Z) (req : StoredDepositRequest) :=
  call (CAddDepositRequest id index req) (fun h => store_AddDepositRequest env h id index req).
Definition RemoveDepositRequest (id : string) (index : Z) :=
  call (CRemoveDepositRequest id index) (fun h => store_RemoveDepositRequest env h id index).
Definition AddPendingTransfer (id : string) (tail : Hash) (trytes : list Trytes)
    (indices : list Z) :=
  call (CAddPendingTransfer id tail trytes indices)
       (fun h => store_AddPendingTransfer env h id tail trytes indices).
Definition AddTailHash (id : string) (origin newTail : Hash) :=
  call (CAddTailHash id origin newTail) (fun h => store_AddTailHash env h id origin newTail).
Definition GetLatestSolidSubtangleMilestone :=
  call CGetLatestSolidSubtangleMilestone (api_GetLatestSolidSubtangleMilestone env).
Definition GetBalances (addrs : list Hash) (threshold : Z) (tip : Hash) :=
  call (CGetBalances addrs threshold tip) (fun h => api_GetBalances env h addrs threshold tip).
Definition GetBundlesFromAddresses (addrs : list Hash) (inclusion : bool) :=
  call (CGetBundlesFromAddresses addrs inclusion)
       (fun h => api_GetBundlesFromAddresses env h addrs inclusion).
Definition CheckConsistency (tail : Hash) :=
  call (CCheckConsistency tail) (fun h => api_CheckConsistency env h tail).
Definition GetTrytes (hash : Hash) :=
  call (CGetTrytes hash) (fun h => api_GetTrytes env h hash).
Definition GetTransactionsToApprove (depth : Z) (reference : option Hash) :=
  call (CGetTransactionsToApprove depth reference)
       (fun h => api_GetTransactionsToApprove env h depth reference).
Definition PrepareTransfers (seed : Trytes) (transfers : list Transfer)
    (opts : PrepareTransfersOptions) :=
  call (CPrepareTransfers seed transfers opts)
       (fun h => api_PrepareTransfers env h seed transfers opts).
Definition AttachToTangle (trunk branch : Hash) (mwm : Z) (trytes : list Trytes) :=
  call (CAttachToTangle trunk branch mwm trytes)
       (fun h => api_AttachToTangle env h trunk branch mwm trytes).
Definition StoreAndBroadcast (trytes : list Trytes) :=
  call (CStoreAndBroadcast trytes) (fun h => api_StoreAndBroadcast env h trytes).
Definition Now := call CNow (clock_Now env).
Definition Time_ := call CTime (timesrc_Time env).
Definition Seed := call CSeed (prov_Seed env).
Definition Emit (payload : Payload) (ev : Event) : M unit :=
  call (CEmit payload ev) (fun _ => tt).

End Calls.

(** A [for ... range] loop whose body has no [break]. *)
Fixpoint for_each {A} (l : list A) (body : A -> M unit) : M unit :=
  match l with
  | [] => ret tt
  | x :: rest => bind (body x) (fun _ => for_each rest body)
  end.

(** ** Reading runs *)




(** A computation all of whose calls, from whatever history, satisfy [P]. *)
Definition only {A} (P : Call -> bool) (m : M A) : Prop :=
  forall h, Forall (fun c => P c = true) (snd (m h)).

(** The store calls that take something out of the store. *)
Definition is_removal (c : Call) : bool :=
  match c with
  | CRemoveDepositRequest _ _ | CRemovePendingTransfer _ _ => true
  | _ => false
  end.

(** ** A sample world

    A node, a store and a clock that answer the same whatever happened
    before.  The trytes of a transaction are its hash; attaching prefixes
    every transaction with an [N] for its nonce. *)
Record Scenario := {
  sc_requests : result (list (Z * StoredDepositRequest));
  sc_pending : list (Hash * PendingTransfer);
  sc_balances : list Z;
  sc_consistent : Hash -> bool;
  sc_timestamp : Hash -> Z;
  sc_now : Z;
  sc_tips : Z -> option Hash -> result TransactionsToApprove;
  sc_add_tail : option error;
  sc_broadcast : option error
}.

Definition sample_tx (at_time : Hash -> Z) (trytes : Trytes) : Transaction :=
  {| tx_Hash := trytes; tx_Address := repeat_string "9" 81; tx_Value := 0;
     tx_Timestamp := at_time trytes; tx_Bundle := "BUNDLE";
     tx_Persistence := Some (Ptr 824634000000 false) |}.

Definition world_of (sc : Scenario) : Env :=
  {| store_GetDepositRequests := fun _ _ => sc_requests sc;
     store_GetPendingTransfers := fun _ _ => inr (sc_pending sc);
     store_WriteIndex := fun _ _ _ => None;
     store_AddDepositRequest := fun _ _ _ _ => None;
     store_RemoveDepositRequest := fun _ _ _ => None;
     store_AddPendingTransfer := fun _ _ _ _ _ => None;
     store_AddTailHash := fun _ _ _ _ => sc_add_tail sc;
     api_GetLatestSolidSubtangleMilestone := fun _ => inr "MILESTONE";
     api_GetBalances := fun _ _ _ _ => inr (sc_balances sc);
     api_GetBundlesFromAddresses := fun _ _ _ => inr [];
     api_CheckConsistency := fun _ tail => inr (sc_consistent sc tail, EmptyString);
     api_GetTrytes := fun _ hash => inr [hash];
     api_GetTransactionsToApprove := fun _ depth reference => sc_tips sc depth reference;
     api_PrepareTransfers := fun _ _ transfers _ => inr (map tr_Address transfers);
     api_AttachToTangle := fun _ _ _ _ trytes => inr (map (String "N") trytes);
     api_StoreAndBroadcast := fun _ trytes =>
       match sc_broadcast sc with
       | Some e => inl e
       | None => inr trytes
       end;
     clock_Now := fun _ => inr (time_Unix (sc_now sc) 0);
     timesrc_Time := fun _ => inr (time_Unix (sc_now sc) 0);
     prov_Seed := fun _ => inr (repeat_string "S" 81);
     GenerateAddress := fun seed index _ checksum =>
       (substring 0 (if checksum then 90 else 81)
          ("ADDR" +:+ FormatUint index +:+ repeat_string "9" 90), None);
     AsTransactionObject := fun trytes => inr (sample_tx (sc_timestamp sc) trytes);
     AsTransactionObjects := fun trytes => inr (map (sample_tx (sc_timestamp sc)) trytes);
     TransactionsToTrytes := fun bndl => inr (map tx_Hash bndl);
     PendingTransferToBundle := fun pt =>
       inr (map (sample_tx (sc_timestamp sc)) (Tails pt)) |}.

Definition too_old : error := ErrExt "reference transaction is too old".
Definition sample_tips : TransactionsToApprove :=
  {| TrunkTransaction := "TRUNK"; BranchTransaction := "BRANCH" |}.

End World.

(* ===================================================================== *)
(** * account/plugins/promoter                                           *)
(* ===================================================================== *)

Module Promoter.
Import Store World.
Local Open Scope list_scope.
Local Open Scope go_scope.

Definition approxAboveMaxDepthMinutes : Z := 5.
Definition maxDepth : Z := 15.
Definition referenceTooOldMsg : string := "reference transaction is too old".
Definition emptySeed : string := repeat_string "9" 81.

(** The fields of [Promoter] its tick reads; the API, the store, the clock and
    the event machine are the world. *)
Record Promoter := {
  depth : Z;          (* uint64 *)
  mwm : Z;
  accID : string      (* p.acc.ID() *)
}.

Section WithEnv.
Variable env : Env.
Variable p : Promoter.

(** [aboveMaxDepth]: [currentTime.Sub(ts).Minutes() < 5].  [Minutes] is the
    duration divided by a minute as a float64, which is below 5 exactly when
    the duration is below five minutes' worth of nanoseconds. *)
Definition aboveMaxDepth (ts : Time) : M (bool * option error) :=
  let! r := Now env in
  match r with
  | inl err => ret (false, Some err)
  | inr currentTime =>
      ret (Time_Sub currentTime ts <? approxAboveMaxDepthMinutes * Minute, None)
  end.

(** The closure [send]. *)
Definition send (preparedBundle : list Trytes) (tips : TransactionsToApprove)
  : M (result Hash) :=
  let! r := AttachToTangle env (TrunkTransaction tips) (BranchTransaction tips)
              (mwm p) preparedBundle in
  match r with
  | inl err =>
      ret (inl (ErrWrap err "performing PoW for promote/reattach cycle bundle failed"))
  | inr readyBundle =>
      let! r := StoreAndBroadcast env readyBundle in
      match r with
      | inl err =>
          ret (inl (ErrWrap err "unable to store/broadcast bundle in promote/reattach cycle"))
      | inr readyBundle =>
          let! t0 := index readyBundle 0 in
          match AsTransactionObject env t0 with
          | inl err => ret (inl err)
          | inr tailTx => ret (inr (tx_Hash tailTx))
          end
      end
  end.

(** The [for] loop of the closure [promote], one iteration per unit of fuel.
    The loop only goes round with a depth of at most [maxDepth], so it ends
    by itself; [promote_fuel] is more than it can use. *)
Fixpoint promote_loop (fuel : nat) (depth : Z) (tailTx : Hash) : M (result Hash) :=
  match fuel with
  | O => panic
  | S fuel' =>
      let! r := GetTransactionsToApprove env depth (Some tailTx) in
      match r with
      | inl err =>
          if String.eqb (Error err) referenceTooOldMsg then
            let depth := wrap_u64 (depth + 1) in
            if maxDepth <? depth then ret (inl ErrUnpromotableTail)
            else promote_loop fuel' depth tailTx
          else ret (inl err)
      | inr tips =>
          let! r := PrepareTransfers env emptySeed [EmptyTransfer] no_options in
          match r with
          | inl err => ret (inl (ErrWrap err "unable to prepare promotion bundle"))
          | inr preparedBundle => send preparedBundle tips
          end
      end
  end.

Definition promote_fuel : nat := 18.

(** The closure [promote]. *)
Definition promote (tailTx : Hash) : M (result Hash) :=
  promote_loop promote_fuel (depth p) tailTx.

(** The closure [reattach]. *)
Definition reattach (essenceBndl : Bundle) : M (result Hash) :=
  let! r := GetTransactionsToApprove env (depth p) None in
  match r with
  | inl err =>
      let! b0 := index essenceBndl 0 in
      ret (inl (ErrWrap err
                  ("unable to GTTA for reattachment in promote/reattach cycle (bundle "
                   +:+ tx_Bundle b0 +:+ ")")))
  | inr tips =>
      match TransactionsToTrytes env essenceBndl with
      | inl err => ret (inl err)
      | inr essenceTrytes => send (rev essenceTrytes) tips
      end
  end.

(** The closure [storeTailTxHash]. *)
Definition storeTailTxHash (key tailTxHash : Hash) (msg : string) : M bool :=
  let! r := AddTailHash env (accID p) key tailTxHash in
  match r with
  | Some err =>
      if error_eqb err ErrPendingTransferNotFound then ret true
      else
        do! Emit (PError (ErrWrap err msg)) EventError in
        ret false
  | None => ret true
  end.

(** The inner loop of the tick over the tails it is given, which are the
    tails of the transfer from the last to the first.  The value is
    [tailToPromote], empty when no tail qualifies. *)
Fixpoint find_tail (tails : list Hash) : M Hash :=
  match tails with
  | [] => ret EmptyString
  | tailTx :: older =>
      let! r := CheckConsistency env tailTx in
      match r with
      | inl _ => find_tail older
      | inr (consistent, _) =>
          if negb consistent then find_tail older
          else
            let! r := GetTrytes env tailTx in
            match r with
            | inl _ => find_tail older
            | inr txTrytes =>
                let! t0 := index txTrytes 0 in
                match AsTransactionObject env t0 with
                | inl _ => find_tail older
                | inr tx =>
                    let! r := aboveMaxDepth (time_Unix (wrap_i64 (tx_Timestamp tx)) 0) in
                    match r with
                    | (above, err) =>
                        if negb above || (match err with Some _ => true | None => false end)
                        then find_tail older
                        else ret tailTx
                    end
                end
            end
      end
  end.

(** [promote(tail)] and the event that reports it; the tick has this code
    once after a tail was found and once after a reattachment. *)
Definition promote_and_emit (key : Hash) (bndl : Bundle) (tail : Hash) : M unit :=
  let! r := promote tail in
  match r with
  | inl err => Emit (PError (ErrWrap ErrUnableToPromote (Error err))) EventError
  | inr promoteTailTxHash =>
      let! b0 := index bndl 0 in
      Emit (PPromotionReattachment
              {| OriginTailTxHash := key; BundleHash := tx_Bundle b0;
                 PromotionTailTxHash := promoteTailTxHash;
                 ReattachmentTailTxHash := EmptyString |}) EventPromotion
  end.

(** The body of the tick's loop over the pending transfers. *)
Definition promote_transfer (entry : Hash * PendingTransfer) : M unit :=
  let '(key, pendingTransfer) := entry in
  let! tailToPromote := find_tail (rev (Tails pendingTransfer)) in
  match PendingTransferToBundle env pendingTransfer with
  | inl _ => ret tt
  | inr bndl =>
      if 0 <? len tailToPromote then promote_and_emit key bndl tailToPromote
      else
        let! r := reattach bndl in
        match r with
        | inl err => Emit (PError (ErrWrap ErrUnableToReattach (Error err))) EventError
        | inr reattachTailTxHash =>
            let! b0 := index bndl 0 in
            do! Emit (PPromotionReattachment
                        {| OriginTailTxHash := key; BundleHash := tx_Bundle b0;
                           PromotionTailTxHash := EmptyString;
                           ReattachmentTailTxHash := reattachTailTxHash |})
                     EventReattachment in
            let! stored := storeTailTxHash key reattachTailTxHash
                             "unable to store reattachment tx tail hash" in
            if negb stored then ret tt
            else promote_and_emit key bndl reattachTailTxHash
        end
  end.

(** [Promoter.promote], one tick. *)
Definition Promoter_promote : M unit :=
  let! r := GetPendingTransfers env (accID p) in
  match r with
  | inl _ => ret tt
  | inr pendingTransfers =>
      match pendingTransfers with
      | [] => ret tt
      | _ => for_each pendingTransfers promote_transfer
      end
  end.

End WithEnv.

(** ** Reading the tick *)

(** The tip selections [promote] makes for a tail at [n] depths from [d] on. *)
Definition gtta_calls (tailTx : Hash) (d : Z) (n : nat) : list Call :=
  map (fun k => CGetTransactionsToApprove k (Some tailTx)) (seqZ d (Z.of_nat n)).




(** The calls of a promotion of [tail] that goes through at the configured
    depth, and the answers of the node that let it through from history
    [h]. *)
Definition promotion_calls (p : Promoter) (tail : Hash) (tips : TransactionsToApprove)
    (prepared ready : list Trytes) : list Call :=
  [CGetTransactionsToApprove (depth p) (Some tail);
   CPrepareTransfers emptySeed [EmptyTransfer] no_options;
   CAttachToTangle (TrunkTransaction tips) (BranchTransaction tips) (mwm p) prepared;
   CStoreAndBroadcast ready].

Definition promotion_goes_through (env : Env) (p : Promoter) (tail : Hash) (h : history)
    (tips : TransactionsToApprove) (prepared ready broadcast : list Trytes) : Prop :=
  api_GetTransactionsToApprove env h (depth p) (Some tail) = inr tips /\
  api_PrepareTransfers env (h ++ [CGetTransactionsToApprove (depth p) (Some tail)])
    emptySeed [EmptyTransfer] no_options = inr prepared /\
  api_AttachToTangle env
    (h ++ [CGetTransactionsToApprove (depth p) (Some tail);
           CPrepareTransfers emptySeed [EmptyTransfer] no_options])
    (TrunkTransaction tips) (BranchTransaction tips) (mwm p) prepared = inr ready /\
  api_StoreAndBroadcast env
    (h ++ [CGetTransactionsToApprove (depth p) (Some tail);
           CPrepareTransfers emptySeed [EmptyTransfer] no_options;
           CAttachToTangle (TrunkTransaction tips) (BranchTransaction tips) (mwm p) prepared])
    ready = inr broadcast.

(** The error event of a promotion that failed. *)
Definition promotion_error_event (err : error) : Call :=
  CEmit (PError (ErrWrap ErrUnableToPromote (Error err))) EventError.

(** The event the tick emits once a reattachment went out, and the store
    call that follows it. *)
Definition reattachment_event (key : Hash) (b0 : Transaction) (reattachTailTxHash : Hash)
  : Call :=
  CEmit (PPromotionReattachment
           {| OriginTailTxHash := key; BundleHash := tx_Bundle b0;
              PromotionTailTxHash := EmptyString;
              ReattachmentTailTxHash := reattachTailTxHash |})
        EventReattachment.

Definition promotion_event (key : Hash) (b0 : Transaction) (promoteTailTxHash : Hash)
  : Call :=
  CEmit (PPromotionReattachment
           {| OriginTailTxHash := key; BundleHash := tx_Bundle b0;
              PromotionTailTxHash := promoteTailTxHash;
              ReattachmentTailTxHash := EmptyString |})
        EventPromotion.

(** ** Sample data *)

Definition sample_promoter : Promoter :=
  {| depth := 3; mwm := 14;
     accID := "9f86d081884c7d659a2feaa0c55ad015a3bf4f1b2b0b822cd15d6c15b0f00a08" |}.

Definition tail_A : Hash := repeat_string "A" 81.
Definition tail_B : Hash := repeat_string "B" 81.
Definition tail_C : Hash := repeat_string "C" 81.

Definition quiet : Scenario :=
  {| sc_requests := inr []; sc_pending := []; sc_balances := [];
     sc_consistent := fun _ => true; sc_timestamp := fun _ => 1700000000;
     sc_now := 1700000120;
     sc_tips := fun _ _ => inr sample_tips;
     sc_add_tail := None; sc_broadcast := None |}.

(** A node for which every reference is too old. *)
Definition stale_world : Env :=
  world_of {| sc_requests := sc_requests quiet; sc_pending := sc_pending quiet;
              sc_balances := sc_balances quiet; sc_consistent := sc_consistent quiet;
              sc_timestamp := sc_timestamp quiet; sc_now := sc_now quiet;
              sc_tips := fun _ _ => inl too_old;
              sc_add_tail := None; sc_broadcast := None |}.

(** A node for which the reference is too old below depth 5 and which is out
    of reach at depth 5. *)
Definition flaky_world : Env :=
  world_of {| sc_requests := sc_requests quiet; sc_pending := sc_pending quiet;
              sc_balances := sc_balances quiet; sc_consistent := sc_consistent quiet;
              sc_timestamp := sc_timestamp quiet; sc_now := sc_now quiet;
              sc_tips := fun depth _ =>
                if depth <? 5 then inl too_old else inl (ErrExt "connection refused");
              sc_add_tail := None; sc_broadcast := None |}.



(** A transfer whose only tail is not consistent, in a store from which the
    poller has just removed it. *)
Definition once_attached : PendingTransfer :=
  {| Store.Bundle := [[0; 1; -1]]; Tails := [tail_A] |}.

Definition race_world : Env :=
  world_of {| sc_requests := sc_requests quiet;
              sc_pending := [(tail_A, once_attached)];
              sc_balances := sc_balances quiet;
              sc_consistent := fun _ => false;
              sc_timestamp := sc_timestamp quiet; sc_now := sc_now quiet;
              sc_tips := fun _ _ => inr sample_tips;
              sc_add_tail := Some ErrPendingTransferNotFound;
              sc_broadcast := None |}.

(** The tail of the reattachment in [race_world], and the tail of the
    promotion transaction that follows it. *)
Definition race_reattached : Hash := String "N" tail_A.
Definition race_promoted : Hash := String "N" (repeat_string "9" 81).

(** The same transfer in a store that takes the new tail, and in a store whose
    write fails. *)
Definition reattach_world : Env :=
  world_of {| sc_requests := sc_requests quiet;
              sc_pending := [(tail_A, once_attached)];
              sc_balances := sc_balances quiet;
              sc_consistent := fun _ => false;
              sc_timestamp := sc_timestamp quiet; sc_now := sc_now quiet;
              sc_tips := fun _ _ => inr sample_tips;
              sc_add_tail := None;
              sc_broadcast := None |}.

Definition write_timeout : error := ErrExt "write concern timeout".

Definition failing_store_world : Env :=
  world_of {| sc_requests := sc_requests quiet;
              sc_pending := [(tail_A, once_attached)];
              sc_balances := sc_balances quiet;
              sc_consistent := fun _ => false;
              sc_timestamp := sc_timestamp quiet; sc_now := sc_now quiet;
              sc_tips := fun _ _ => inr sample_tips;
              sc_add_tail := Some write_timeout;
              sc_broadcast := None |}.

(** A promoter configured with a depth beyond [maxDepth]. *)
Definition deep_promoter : Promoter :=
  {| depth := 20; mwm := 14; accID := accID sample_promoter |}.

(** A promoter configured with the largest depth a uint64 holds. *)
Definition wrapping_promoter : Promoter :=
  {| depth := 2 ^ 64 - 1; mwm := 14; accID := accID sample_promoter |}.

End Promoter.

(* ===================================================================== *)
(** * account                                                            *)
(* ===================================================================== *)

Module Account.
Import Store World.
Local Open Scope list_scope.
Local Open Scope go_scope.

Record Settings := {
  MWM : Z;
  Depth : Z;
  SecurityLevel : Z
}.

Record account := {
  id : string;
  running : bool;
  setts : Settings;
  lastKeyIndex : Z        (* uint64 *)
}.

Definition set_lastKeyIndex (n : Z) (acc : account) : account :=
  {| id := id acc; running := running acc; setts := setts acc; lastKeyIndex := n |}.

(** What an input selection returns: [(sum, inputs, indicesToRemove, err)]. *)
Definition Selected : Type := Z * list Input * list Z * option error.

(** [InputSelectionFunc]. *)
Definition InputSelectionFunc : Type := account -> Z -> bool -> M Selected.

(** [Recipients.Sum]. *)
Definition Recipients_Sum (recps : list Transfer) : Z :=
  fold_left (fun sum target => wrap_u64 (sum + tr_Value target)) recps 0.

Record selection := {
  keyIndex : Z;
  req : StoredDepositRequest
}.

(** The two groups the deposit requests are sorted into. *)
Record buckets := {
  primaryAddrs : list Hash;
  primarySelection : list selection;
  secondaryAddrs : list Hash;
  secondarySelection : list selection
}.

Definition no_buckets : buckets :=
  {| primaryAddrs := []; primarySelection := [];
     secondaryAddrs := []; secondarySelection := [] |}.

Definition add_primary (addr : Hash) (s : selection) (b : buckets) : buckets :=
  {| primaryAddrs := primaryAddrs b ++ [addr];
     primarySelection := primarySelection b ++ [s];
     secondaryAddrs := secondaryAddrs b;
     secondarySelection := secondarySelection b |}.

Definition add_secondary (addr : Hash) (s : selection) (b : buckets) : buckets :=
  {| primaryAddrs := primaryAddrs b;
     primarySelection := primarySelection b;
     secondaryAddrs := secondaryAddrs b ++ [addr];
     secondarySelection := secondarySelection b ++ [s] |}.

(** The running totals of the two selection loops. *)
Record picked := {
  sum : Z;                 (* uint64 *)
  inputs : list Input;
  toRemove : list Z
}.

Definition nothing_picked : picked := {| sum := 0; inputs := []; toRemove := [] |}.

Section WithEnv.
Variable env : Env.

(** [account.hasIncomingConsistentValueTransfer]: the loop over the bundles,
    with the set of bundle hashes seen confirmed so far. *)
Fixpoint incoming_loop (addr : Hash) (bndls : list Bundle) (persisted : gset string)
  : M (bool * option error) :=
  match bndls with
  | [] => ret (false, None)
  | bndl :: rest =>
      let! b0 := index bndl 0 in
      match tx_Persistence b0 with
      | None => panic
      | Some persistence =>
          if ptr_val persistence then
            incoming_loop addr rest ({[ tx_Bundle b0 ]} ∪ persisted)
          else if bool_decide (tx_Bundle b0 ∈ persisted) then
            incoming_loop addr rest persisted
          else
            let isDepositToAddr :=
              existsb (fun tx => (0 <? tx_Value tx) && String.eqb (tx_Address tx) addr) bndl in
            if negb isDepositToAddr then incoming_loop addr rest persisted
            else
              let hash := tx_Hash b0 in
              let! r := CheckConsistency env hash in
              match r with
              | inl err =>
                  ret (false,
                       Some (ErrWrap err ("unable to check consistency of tx " +:+ hash +:+
                                          " in incoming consistent transfer check")))
              | inr (consistent, _) =>
                  if consistent then ret (true, None)
                  else incoming_loop addr rest persisted
              end
      end
  end.

Definition hasIncomingConsistentValueTransfer (addr : Hash) : M (bool * option error) :=
  let! r := GetBundlesFromAddresses env [addr] true in
  match r with
  | inl err => ret (false, Some err)
  | inr bndls => incoming_loop addr bndls ∅
  end.

Section Selection.
Variable acc : account.
Variable transferValue : Z.
Variable balanceCheck : bool.

(** The closures [markForRemoval] and [addAsInput]. *)
Definition markForRemoval (keyIndex : Z) (st : picked) : picked :=
  if balanceCheck then st
  else {| sum := sum st; inputs := inputs st; toRemove := toRemove st ++ [keyIndex] |}.

Definition addAsInput (input : Input) (st : picked) : picked :=
  if balanceCheck then st
  else {| sum := sum st; inputs := inputs st ++ [input]; toRemove := toRemove st |}.

Definition add_to_sum (balance : Z) (st : picked) : picked :=
  {| sum := wrap_u64 (sum st + balance); inputs := inputs st; toRemove := toRemove st |}.

(** The loop over all allocated deposit addresses; [None] is its panic on a
    remainder address without an expected amount. *)
Fixpoint sort_requests (seed : Trytes) (now : Time)
    (depositRequests : list (Z * StoredDepositRequest)) (b : buckets) : option buckets :=
  match depositRequests with
  | [] => Some b
  | (keyIndex, req) :: rest =>
      let addr := fst (GenerateAddress env seed keyIndex (Store.SecurityLevel req) true) in
      let s := {| keyIndex := keyIndex; req := req |} in
      match Deposit.TimeoutAt (Request req) with
      | None =>
          (* remainder address *)
          match Deposit.ExpectedAmount (Request req) with
          | None => None
          | Some _ => sort_requests seed now rest (add_primary addr s b)
          end
      | Some timeoutAt =>
          if Time_After now (ptr_val timeoutAt) then
            (* timed out *)
            sort_requests seed now rest (add_secondary addr s b)
          else if Deposit.MultiUse (Request req) then
            (* multi *)
            match Deposit.ExpectedAmount (Request req) with
            | None => sort_requests seed now rest b
            | Some _ => sort_requests seed now rest (add_primary addr s b)
            end
          else
            (* single *)
            sort_requests seed now rest (add_primary addr s b)
      end
  end.

(** The loop over [primarySelection] from index [i] on; [None] is an index
    out of range. *)
Fixpoint primary_loop (b : buckets) (balances : list Z) (i : nat)
    (sel : list selection) (st : picked) : option picked :=
  match sel with
  | [] => Some st
  | s :: rest =>
      match balances !! i with
      | None => None
      | Some balance =>
          let short :=
            match Deposit.ExpectedAmount (Request (req s)) with
            | Some expected => balance <? ptr_val expected
            | None => false
            end in
          if short then primary_loop b balances (S i) rest st
          else
            let st := add_to_sum balance st in
            if balance =? 0 then primary_loop b balances (S i) rest st
            else
              match primaryAddrs b !! i with
              | None => None
              | Some addr =>
                  let st := addAsInput {| in_Address := addr; in_KeyIndex := keyIndex s;
                                          in_Balance := balance;
                                          in_Security := Store.SecurityLevel (req s) |} st in
                  let st := markForRemoval (keyIndex s) st in
                  if (transferValue <=? sum st) && negb balanceCheck then Some st
                  else primary_loop b balances (S i) rest st
              end
      end
  end.

(** The loop over [secondarySelection] from index [i] on. *)
Fixpoint secondary_loop (b : buckets) (balances : list Z) (startPosSecondary i : nat)
    (sel : list selection) (st : picked) : M picked :=
  match sel with
  | [] => ret st
  | secSelect :: rest =>
      let! addr := index (secondaryAddrs b) i in
      let! balance := index balances (startPosSecondary + i) in
      if balance =? 0 then
        let! r := hasIncomingConsistentValueTransfer addr in
        match r with
        | (has, err) =>
            if has || (match err with Some _ => true | None => false end)
            then secondary_loop b balances startPosSecondary (S i) rest st
            else secondary_loop b balances startPosSecondary (S i) rest
                   (markForRemoval (keyIndex secSelect) st)
        end
      else
        let st := markForRemoval (keyIndex secSelect) st in
        let st := add_to_sum balance st in
        let st := addAsInput {| in_KeyIndex := keyIndex secSelect; in_Address := addr;
                                in_Security := Store.SecurityLevel (req secSelect);
                                in_Balance := balance |} st in
        if (transferValue <=? sum st) && negb balanceCheck then ret st
        else secondary_loop b balances startPosSecondary (S i) rest st
  end.

(** [defaultInputSelection]. *)
Definition defaultInputSelection : M Selected :=
  let! r := GetDepositRequests env (id acc) in
  match r with
  | inl err =>
      ret (0, [], [], Some (ErrWrap err "unable to load account state for input selection"))
  | inr depositRequests =>
      match depositRequests with
      | [] =>
          if balanceCheck then ret (0, [], [], None)
          else ret (0, [], [], Some ErrInsufficientBalance)
      | _ =>
          let! r := GetLatestSolidSubtangleMilestone env in
          match r with
          | inl err =>
              ret (0, [], [],
                   Some (ErrWrap err "unable to fetch latest solid subtangle milestone for input selection"))
          | inr subtangleHash =>
              let! r := Time_ env in
              match r with
              | inl err =>
                  ret (0, [], [], Some (ErrWrap err "unable to get time for doing input selection"))
              | inr now =>
                  let! r := Seed env in
                  match r with
                  | inl err =>
                      ret (0, [], [],
                           Some (ErrWrap err "unable to get seed from seed provider for doing input selection"))
                  | inr seed =>
                      match sort_requests seed now depositRequests no_buckets with
                      | None => panic
                      | Some b =>
                          let toQuery := primaryAddrs b ++ secondaryAddrs b in
                          let! r := GetBalances env toQuery 100 subtangleHash in
                          match r with
                          | inl err =>
                              ret (0, [], [],
                                   Some (ErrWrap err "unable to fetch balances of primary selected addresses for input selection"))
                          | inr balances =>
                              match primary_loop b balances 0 (primarySelection b) nothing_picked with
                              | None => panic
                              | Some st =>
                                  let! st :=
                                    if (sum st <? transferValue) || balanceCheck then
                                      secondary_loop b balances (length (primarySelection b)) 0
                                        (secondarySelection b) st
                                    else ret st in
                                  if balanceCheck then ret (sum st, [], [], None)
                                  else if sum st <? transferValue
                                  then ret (0, [], [], Some ErrInsufficientBalance)
                                  else ret (sum st, inputs st, toRemove st, None)
                              end
                          end
                      end
                  end
              end
          end
      end
  end.

End Selection.

(** [account.allocateDepositRequest]; the account comes back with its key
    index advanced. *)
Definition allocateDepositRequest (acc : account) (req : Deposit.Request)
  : M (result Deposit.Conditions * account) :=
  let! r := Seed env in
  match r with
  | inl err => ret (inl err, acc)
  | inr seed =>
      let acc := set_lastKeyIndex (wrap_u64 (lastKeyIndex acc + 1)) acc in
      match GenerateAddress env seed (lastKeyIndex acc) (SecurityLevel (setts acc)) true with
      | (_, Some err) =>
          ret (inl (ErrWrap err "unable to generate address in address gen. function"), acc)
      | (addr, None) =>
          let! e := WriteIndex env (id acc) (lastKeyIndex acc) in
          match e with
          | Some err =>
              ret (inl (ErrWrap err ("unable to store next index (" +:+
                                     FormatUint (lastKeyIndex acc) +:+ ") in the store")), acc)
          | None =>
              let storedReq := {| Store.SecurityLevel := SecurityLevel (setts acc);
                                  Request := req |} in
              let! e := AddDepositRequest env (id acc) (lastKeyIndex acc) storedReq in
              match e with
              | Some err => ret (inl err, acc)
              | None => ret (inr {| Deposit.Req := req; Deposit.Address := addr |}, acc)
              end
          end
      end
  end.

(** ** The send pipeline *)

Section Send.
Variable InputSelectionStrat : InputSelectionFunc.

(** The address the runtime gives the local [remainder], which escapes into
    the deposit request of the remainder address. *)
Variable a_remainder : Z.

(** The locals of [send] that its later steps and its deferred function
    read. *)
Record locals := {
  l_inputs : list Input;
  l_forRemoval : list Z;
  l_remainderAddress : option Hash
}.

(** The function deferred by [send]: it frees the remainder address of a send
    that did not get to its commit. *)
Fixpoint find_remainder (seed : Trytes) (croppedRemainderAddr : Hash)
    (reqs : list (Z * StoredDepositRequest)) : option Z :=
  match reqs with
  | [] => None
  | (keyIndex, req) :: rest =>
      match GenerateAddress env seed keyIndex (Store.SecurityLevel req) false with
      | (_, Some _) => find_remainder seed croppedRemainderAddr rest
      | (addr, None) =>
          if String.eqb addr croppedRemainderAddr then Some keyIndex
          else find_remainder seed croppedRemainderAddr rest
      end
  end.

Definition cleanup (acc : account) (seed : Trytes) (remainderAddress : option Hash)
    (success : bool) : M unit :=
  match remainderAddress with
  | None => ret tt
  | Some remainder =>
      if success then ret tt
      else
        let! r := GetDepositRequests env (id acc) in
        match r with
        | inl _ => ret tt
        | inr reqs =>
            if len remainder <? 81 then panic
            else
              let croppedRemainderAddr := substring 0 81 remainder in
              match find_remainder seed croppedRemainderAddr reqs with
              | None => ret tt
              | Some remainderAddrKeyIndex =>
                  let! e := RemoveDepositRequest env (id acc) remainderAddrKeyIndex in
                  match e with
                  | Some err =>
                      Emit (PError (ErrWrap err
                              "unable to cleanup allocated remainder addr during failed send op."))
                           EventError
                  | None => ret tt
                  end
              end
        end
  end.

(** [send], from [if transferSum > 0] to the end of that block: the inputs,
    and the remainder address when the inputs hold more than is sent. *)
Definition select_inputs (acc : account) (transferSum : Z)
  : M (result locals * account) :=
  if 0 <? transferSum then
    let! sel := InputSelectionStrat acc transferSum false in
    match sel with
    | (_, _, _, Some err) =>
        ret (inl (ErrWrap err "failed to perform input selection in send op."), acc)
    | (sum, ins, rem, None) =>
        if transferSum <? sum then
          let remainder := wrap_u64 (sum - transferSum) in
          let! r := allocateDepositRequest acc
                      {| Deposit.TimeoutAt := None; Deposit.MultiUse := false;
                         Deposit.ExpectedAmount := Some (Ptr a_remainder remainder) |} in
          match r with
          | (inl err, acc) =>
              ret (inl (ErrWrap err "unable to generate remainder address in send op."), acc)
          | (inr depCond, acc) =>
              ret (inr {| l_inputs := ins; l_forRemoval := rem;
                          l_remainderAddress := Some (Deposit.Address depCond) |}, acc)
          end
        else
          ret (inr {| l_inputs := ins; l_forRemoval := rem; l_remainderAddress := None |}, acc)
    end
  else
    ret (inr {| l_inputs := []; l_forRemoval := []; l_remainderAddress := None |}, acc).

(** [send], from the preparation of the bundle to its end; the value is the
    local [success] together with what [send] returns. *)
Definition prepare_and_commit (acc : account) (seed : Trytes) (transfers : list Transfer)
    (currentTime : Time) (l : locals) : M (bool * result Bundle) :=
  let ts := wrap_u64 (Z.quot (wrap_i64 (unix_nanos currentTime)) Second) in
  let opts := {| Inputs := l_inputs l; RemainderAddress := l_remainderAddress l;
                 Timestamp := Some ts |} in
  let! r := PrepareTransfers env seed transfers opts in
  match r with
  | inl err => ret (false, inl (ErrWrap err "unable to prepare transfers in send op."))
  | inr bundleTrytes =>
      let! r := GetTransactionsToApprove env (Depth (setts acc)) None in
      match r with
      | inl err => ret (false, inl (ErrWrap err "unable to GTTA in send op."))
      | inr tips =>
          let! r := AttachToTangle env (TrunkTransaction tips) (BranchTransaction tips)
                      (MWM (setts acc)) bundleTrytes in
          match r with
          | inl err => ret (false, inl (ErrWrap err "performing PoW in send op. failed"))
          | inr powedTrytes =>
              let! t0 := index powedTrytes 0 in
              match AsTransactionObject env t0 with
              | inl err => ret (false, inl err)
              | inr tailTx =>
                  (* add the new transfer to the db *)
                  let! e := AddPendingTransfer env (id acc) (tx_Hash tailTx) powedTrytes
                              (l_forRemoval l) in
                  match e with
                  | Some err =>
                      ret (false,
                           inl (ErrWrap err "unable to store pending transfer in send op."))
                  | None =>
                      (* success = true *)
                      let! r := StoreAndBroadcast env powedTrytes in
                      match r with
                      | inl err =>
                          ret (true,
                               inl (ErrWrap err "unable to store/broadcast bundle in send op."))
                      | inr bndlTrytes =>
                          match AsTransactionObjects env bndlTrytes with
                          | inl err => ret (true, inl err)
                          | inr bndl =>
                              do! Emit (PBundle bndl) EventSendingTransfer in
                              ret (true, inr bndl)
                          end
                      end
                  end
              end
          end
      end
  end.

(** [account.send].  The deferred function is registered once the seed and
    the time are there; it runs when the rest returns and when it panics. *)
Definition send (acc : account) (targets : list Transfer)
  : M (result Bundle * account) :=
  let transferSum := Recipients_Sum targets in
  let! r := Seed env in
  match r with
  | inl err =>
      ret (inl (ErrWrap err "unable to get seed from seed provider in send op."), acc)
  | inr seed =>
      let transfers := targets in
      let! r := Time_ env in
      match r with
      | inl err => ret (inl (ErrWrap err "unable to get current time in send op."), acc)
      | inr currentTime =>
          let! r := select_inputs acc transferSum in
          match r with
          | (inl err, acc) => ret (inl err, acc)
          | (inr l, acc) =>
              let! out := attempt (prepare_and_commit acc seed transfers currentTime l) in
              let success := match out with Some (s, _) => s | None => false end in
              do! cleanup acc seed (l_remainderAddress l) success in
              match out with
              | Some (_, res) => ret (res, acc)
              | None => panic
              end
          end
      end
  end.

End Send.

End WithEnv.

(** ** Sample data *)

Definition sample_account : account :=
  {| id := "9f86d081884c7d659a2feaa0c55ad015a3bf4f1b2b0b822cd15d6c15b0f00a08";
     running := true;
     setts := {| MWM := 14; Depth := 3; SecurityLevel := 2 |};
     lastKeyIndex := 2 |}.

(** A single-use deposit request that runs until second [timeout] and
    expects [amount]. *)
Definition request_until (timeout amount : Z) : StoredDepositRequest :=
  {| Store.SecurityLevel := 2;
     Request := {| Deposit.TimeoutAt := Some (Ptr 824633802800 (time_Unix timeout 0));
                   Deposit.MultiUse := false;
                   Deposit.ExpectedAmount := Some (Ptr 824633811096 amount) |} |}.

(** A remainder entry that lost its expected amount. *)
Definition malformed_remainder : StoredDepositRequest :=
  {| Store.SecurityLevel := 2;
     Request := {| Deposit.TimeoutAt := None; Deposit.MultiUse := false;
                   Deposit.ExpectedAmount := None |} |}.

(** Two funded deposit requests, 100 on key index 1 and 50 on key index 2,
    at a node that refuses the broadcast when [broadcast] is an error. *)
Definition funded (broadcast : option error) : Scenario :=
  {| sc_requests := inr [(1, request_until 1700003600 100); (2, request_until 1700003600 50)];
     sc_pending := [];
     sc_balances := [100; 50];
     sc_consistent := fun _ => true;
     sc_timestamp := fun _ => 1700000000;
     sc_now := 1700000000;
     sc_tips := fun _ _ => inr sample_tips;
     sc_add_tail := None;
     sc_broadcast := broadcast |}.

Definition funded_world : Env := world_of (funded None).
Definition unreachable : error := ErrExt "node unreachable".
Definition no_broadcast_world : Env := world_of (funded (Some unreachable)).

(** The same store with a malformed remainder entry among the requests. *)
Definition malformed_world : Env :=
  world_of {| sc_requests := inr [(1, request_until 1700003600 100); (3, malformed_remainder);
                                  (2, request_until 1700003600 50)];
              sc_pending := []; sc_balances := [100; 50];
              sc_consistent := fun _ => true; sc_timestamp := fun _ => 1700000000;
              sc_now := 1700000000; sc_tips := fun _ _ => inr sample_tips;
              sc_add_tail := None; sc_broadcast := None |}.

(** A store without deposit requests. *)
Definition empty_world : Env :=
  world_of {| sc_requests := inr []; sc_pending := []; sc_balances := [];
              sc_consistent := fun _ => true; sc_timestamp := fun _ => 1700000000;
              sc_now := 1700000000; sc_tips := fun _ _ => inr sample_tips;
              sc_add_tail := None; sc_broadcast := None |}.

(** 120 to one recipient. *)
Definition sample_targets : list Transfer :=
  [{| tr_Address := repeat_string "R" 81 +:+ repeat_string "9" 9; tr_Value := 120;
      tr_Message := EmptyString; tr_Tag := EmptyString |}].

(** The balances of a list of inputs and the values of a list of transfers,
    added up without a bound. *)
Definition sum_balances (ins : list Input) : Z :=
  fold_right (fun i acc => in_Balance i + acc) 0 ins.

Definition total_value (recps : list Transfer) : Z :=
  fold_right (fun t acc => tr_Value t + acc) 0 recps.

Definition is_CheckConsistency (c : Call) : bool :=
  match c with
  | CCheckConsistency _ => true
  | _ => false
  end.

Definition is_AddDepositRequest (c : Call) : bool :=
  match c with
  | CAddDepositRequest _ _ _ => true
  | _ => false
  end.

(** A bundle that [hasIncomingConsistentValueTransfer] passes over without
    asking the node: its first transaction is marked confirmed, or none of its
    transactions puts a positive value on the address. *)
Definition confirmed_or_no_deposit (addr : Hash) (bndl : Bundle) : bool :=
  match bndl with
  | [] => false
  | b0 :: _ =>
      match tx_Persistence b0 with
      | None => false
      | Some persistence =>
          ptr_val persistence ||
          negb (existsb (fun tx => (0 <? tx_Value tx) && String.eqb (tx_Address tx) addr) bndl)
      end
  end.

(** A confirmed deposit of 10 on [addr] and a pending message to it. *)
Definition sample_bundles (addr : Hash) : list Bundle :=
  [ [ {| tx_Hash := "TXA"; tx_Address := addr; tx_Value := 10; tx_Timestamp := 1700000000;
         tx_Bundle := "BUNDLEA"; tx_Persistence := Some (Ptr 824634000000 true) |} ];
    [ {| tx_Hash := "TXB"; tx_Address := addr; tx_Value := 0; tx_Timestamp := 1700000000;
         tx_Bundle := "BUNDLEB"; tx_Persistence := Some (Ptr 824634000008 false) |} ] ].

(** The funded world at a node that knows the bundles of [sample_bundles] for
    the address it is asked about. *)
Definition bundles_world : Env :=
  {| store_GetDepositRequests := store_GetDepositRequests funded_world;
     store_GetPendingTransfers := store_GetPendingTransfers funded_world;
     store_WriteIndex := store_WriteIndex funded_world;
     store_AddDepositRequest := store_AddDepositRequest funded_world;
     store_RemoveDepositRequest := store_RemoveDepositRequest funded_world;
     store_AddPendingTransfer := store_AddPendingTransfer funded_world;
     store_AddTailHash := store_AddTailHash funded_world;
     api_GetLatestSolidSubtangleMilestone := api_GetLatestSolidSubtangleMilestone funded_world;
     api_GetBalances := api_GetBalances funded_world;
     api_GetBundlesFromAddresses := fun _ addrs _ =>
       match addrs with
       | [addr] => inr (sample_bundles addr)
       | _ => inr []
       end;
     api_CheckConsistency := api_CheckConsistency funded_world;
     api_GetTrytes := api_GetTrytes funded_world;
     api_GetTransactionsToApprove := api_GetTransactionsToApprove funded_world;
     api_PrepareTransfers := api_PrepareTransfers funded_world;
     api_AttachToTangle := api_AttachToTangle funded_world;
     api_StoreAndBroadcast := api_StoreAndBroadcast funded_world;
     clock_Now := clock_Now funded_world;
     timesrc_Time := timesrc_Time funded_world;
     prov_Seed := prov_Seed funded_world;
     GenerateAddress := GenerateAddress funded_world;
     AsTransactionObject := AsTransactionObject funded_world;
     AsTransactionObjects := AsTransactionObjects funded_world;
     TransactionsToTrytes := TransactionsToTrytes funded_world;
     PendingTransferToBundle := PendingTransferToBundle funded_world |}.

(** The funded store at a node that cannot prepare a bundle; the store hands
    back the remainder request under key index 3 once it was added. *)
Definition no_prepare : error := ErrExt "prepare transfers: node busy".

Definition no_prepare_world : Env :=
  {| store_GetDepositRequests := fun h _ =>
       if existsb is_AddDepositRequest h
       then inr [(1, request_until 1700003600 100); (2, request_until 1700003600 50);
                 (3, {| Store.SecurityLevel := 2;
                        Request := {| Deposit.TimeoutAt := None; Deposit.MultiUse := false;
                                      Deposit.ExpectedAmount := Some (Ptr 824633900000 30) |} |})]
       else inr [(1, request_until 1700003600 100); (2, request_until 1700003600 50)];
     store_GetPendingTransfers := store_GetPendingTransfers funded_world;
     store_WriteIndex := store_WriteIndex funded_world;
     store_AddDepositRequest := store_AddDepositRequest funded_world;
     store_RemoveDepositRequest := store_RemoveDepositRequest funded_world;
     store_AddPendingTransfer := store_AddPendingTransfer funded_world;
     store_AddTailHash := store_AddTailHash funded_world;
     api_GetLatestSolidSubtangleMilestone := api_GetLatestSolidSubtangleMilestone funded_world;
     api_GetBalances := api_GetBalances funded_world;
     api_GetBundlesFromAddresses := api_GetBundlesFromAddresses funded_world;
     api_CheckConsistency := api_CheckConsistency funded_world;
     api_GetTrytes := api_GetTrytes funded_world;
     api_GetTransactionsToApprove := api_GetTransactionsToApprove funded_world;
     api_PrepareTransfers := fun _ _ _ _ => inl no_prepare;
     api_AttachToTangle := api_AttachToTangle funded_world;
     api_StoreAndBroadcast := api_StoreAndBroadcast funded_world;
     clock_Now := clock_Now funded_world;
     timesrc_Time := timesrc_Time funded_world;
     prov_Seed := prov_Seed funded_world;
     GenerateAddress := GenerateAddress funded_world;
     AsTransactionObject := AsTransactionObject funded_world;
     AsTransactionObjects := AsTransactionObjects funded_world;
     TransactionsToTrytes := TransactionsToTrytes funded_world;
     PendingTransferToBundle := PendingTransferToBundle funded_world |}.

(** Two recipients whose values add up to 2^64. *)
Definition overflowing_targets : list Transfer :=
  [{| tr_Address := repeat_string "R" 81 +:+ repeat_string "9" 9; tr_Value := 2 ^ 63;
      tr_Message := EmptyString; tr_Tag := EmptyString |};
   {| tr_Address := repeat_string "Q" 81 +:+ repeat_string "9" 9; tr_Value := 2 ^ 63;
      tr_Message := EmptyString; tr_Tag := EmptyString |}].

(** The options [send] hands to [PrepareTransfers]. *)
Definition send_options (currentTime : Time) (l : locals) : PrepareTransfersOptions :=
  {| Inputs := l_inputs l; RemainderAddress := l_remainderAddress l;
     Timestamp := Some (wrap_u64 (Z.quot (wrap_i64 (unix_nanos currentTime)) Second)) |}.

End Account.

(* ===================================================================== *)
(** * account/plugins/transfer/poller: the per-tail event filter         *)
(* ===================================================================== *)

Module Poller.
Import World.
Local Open Scope list_scope.

(** The events of the poller. *)
Inductive ReceiveEvent :=
| EventTransferConfirmed   (* 100 *)
| EventReceivingDeposit    (* 101 *)
| EventReceivedDeposit     (* 102 *)
| EventReceivedMessage.    (* 103 *)

Record ReceiveEventTuple := {
  ret_Event : ReceiveEvent;
  ret_Bundle : Bundle
}.

(** [StringSet]. *)
Definition StringSet : Type := gset string.

(** What the closure returned by [NewPerTailReceiveEventFilter] captures. *)
Record closure := {
  skipFirstEmitting : bool;
  receivedFilter : gset string;
  receivingFilter : gset string
}.

(** [NewPerTailReceiveEventFilter(skipFirst ...bool)]: the variables of the
    closure as they are when it is returned. *)
Definition NewPerTailReceiveEventFilter (skipFirst : list bool) : closure :=
  {| skipFirstEmitting := match skipFirst with
                          | b :: _ => b
                          | [] => false
                          end;
     receivedFilter := ∅;
     receivingFilter := ∅ |}.

Section Filter.
(** [bundle.ValidBundle] and [bundle.TailTransactionHash]. *)
Variable ValidBundle : Bundle -> option error.
Variable TailTransactionHash : Bundle -> Hash.

(** The two loops that look for an input on one of the own addresses. *)
Definition spends_from (addrs : StringSet) (bndl : Bundle) : bool :=
  existsb (fun tx => bool_decide (tx_Address tx ∈ addrs) && (tx_Value tx <? 0)) bndl.

(** The first loop of the closure: the bundles are sorted into
    [receivingBundles] and [receivedBundles] by their tail transaction hash.
    [None] is the panic of [*bndl[0].Persistence] on an empty bundle or a nil
    pointer. *)
Fixpoint sort_bundles (bndls : list Bundle) (ownDepAddrs ownSpentAddrs : StringSet)
    (receivingBundles receivedBundles : gmap string Bundle)
  : option (gmap string Bundle * gmap string Bundle) :=
  match bndls with
  | [] => Some (receivingBundles, receivedBundles)
  | bndl :: rest =>
      match ValidBundle bndl with
      | Some _ => sort_bundles rest ownDepAddrs ownSpentAddrs receivingBundles receivedBundles
      | None =>
          let isTransferToOwnRemainderAddr := spends_from ownSpentAddrs bndl in
          let isSpendFromOwnAddr := spends_from ownDepAddrs bndl in
          if isTransferToOwnRemainderAddr || isSpendFromOwnAddr then
            sort_bundles rest ownDepAddrs ownSpentAddrs receivingBundles receivedBundles
          else
            let tailTx := TailTransactionHash bndl in
            match bndl !! 0%nat with
            | None => None
            | Some b0 =>
                match tx_Persistence b0 with
                | None => None
                | Some persistence =>
                    if ptr_val persistence then
                      sort_bundles rest ownDepAddrs ownSpentAddrs receivingBundles
                        (<[tailTx := bndl]> receivedBundles)
                    else
                      sort_bundles rest ownDepAddrs ownSpentAddrs
                        (<[tailTx := bndl]> receivingBundles) receivedBundles
                end
            end
      end
  end.

(** A bundle the first loop lets through, under the key it is stored at. *)
Definition let_through (bndls : list Bundle) (ownDepAddrs ownSpentAddrs : StringSet)
    (k : string) (b : Bundle) : Prop :=
  In b bndls /\ ValidBundle b = None /\
  spends_from ownSpentAddrs b = false /\ spends_from ownDepAddrs b = false /\
  k = TailTransactionHash b.

(** The closure [isValueTransfer]. *)
Definition isValueTransfer (bndl : Bundle) : bool :=
  existsb (fun tx => (0 <? tx_Value tx) || (tx_Value tx <? 0)) bndl.

(** The body of the loop over [receivingBundles]; it carries
    [receivingFilter] and [events]. *)
Definition receiving_step (st : gset string * list ReceiveEventTuple)
    (entry : string * Bundle) : gset string * list ReceiveEventTuple :=
  let '(filter, events) := st in
  let '(tailTx, bndl) := entry in
  if bool_decide (tailTx ∈ filter) then st
  else
    ({[ tailTx ]} ∪ filter,
     events ++ [{| ret_Event := if isValueTransfer bndl then EventReceivingDeposit
                                else EventReceivedMessage;
                   ret_Bundle := bndl |}]).

(** The body of the loop over [receivedBundles]; it carries [receivedFilter]
    and [events] and reads [receivingFilter]. *)
Definition received_step (receiving : gset string)
    (st : gset string * list ReceiveEventTuple)
    (entry : string * Bundle) : gset string * list ReceiveEventTuple :=
  let '(filter, events) := st in
  let '(tailTx, bndl) := entry in
  if bool_decide (tailTx ∈ filter) then st
  else
    let filter := {[ tailTx ]} ∪ filter in
    if isValueTransfer bndl then
      (filter, events ++ [{| ret_Event := EventReceivedDeposit; ret_Bundle := bndl |}])
    else if bool_decide (tailTx ∈ receiving) then (filter, events)
    else (filter, events ++ [{| ret_Event := EventReceivedMessage; ret_Bundle := bndl |}]).

(** One call of the closure: the closure afterwards and the events it emits,
    in order.  Go leaves the order of a [range] over a map open; the two loops
    here take the entries in the order of [map_to_list]. *)
Definition filter (c : closure) (bndls : list Bundle) (ownDepAddrs ownSpentAddrs : StringSet)
  : option (closure * list ReceiveEventTuple) :=
  match sort_bundles bndls ownDepAddrs ownSpentAddrs ∅ ∅ with
  | None => None
  | Some (receivingBundles, receivedBundles) =>
      let '(receiving, events) :=
        fold_left receiving_step (map_to_list receivingBundles) (receivingFilter c, []) in
      let '(received, events) :=
        fold_left (received_step receiving) (map_to_list receivedBundles)
          (receivedFilter c, events) in
      let c' := {| skipFirstEmitting := false;
                   receivedFilter := received;
                   receivingFilter := receiving |} in
      if skipFirstEmitting c then Some (c', []) else Some (c', events)
  end.

End Filter.

(** ** Sample data: a tail is the hash of the first transaction, and every
    bundle with a transaction is valid. *)

Definition first_hash (bndl : Bundle) : Hash :=
  match bndl with
  | tx :: _ => tx_Hash tx
  | [] => EmptyString
  end.

Definition never_empty (bndl : Bundle) : option error :=
  match bndl with
  | [] => Some (ErrExt "invalid bundle")
  | _ => None
  end.

(** A pending deposit of 10 on [addr], a pending message to it, and a
    confirmed spend of 5 from [addr]. *)
Definition incoming (addr : Hash) : list Bundle :=
  [ [ {| tx_Hash := "TAILA"; tx_Address := addr; tx_Value := 10; tx_Timestamp := 1700000000;
         tx_Bundle := "BUNDLEA"; tx_Persistence := Some (Ptr 824634000000 false) |} ];
    [ {| tx_Hash := "TAILB"; tx_Address := addr; tx_Value := 0; tx_Timestamp := 1700000000;
         tx_Bundle := "BUNDLEB"; tx_Persistence := Some (Ptr 824634000008 false) |} ];
    [ {| tx_Hash := "TAILC"; tx_Address := addr; tx_Value := -5; tx_Timestamp := 1700000000;
         tx_Bundle := "BUNDLEC"; tx_Persistence := Some (Ptr 824634000016 true) |} ] ].

(** The same bundles once the first two are confirmed. *)
Definition confirm (bndl : Bundle) : Bundle :=
  map (fun tx => {| tx_Hash := tx_Hash tx; tx_Address := tx_Address tx; tx_Value := tx_Value tx;
                    tx_Timestamp := tx_Timestamp tx; tx_Bundle := tx_Bundle tx;
                    tx_Persistence := (fun p => Ptr (ptr_addr p) true) <$> tx_Persistence tx |})
      bndl.

(** The closure after a pass over [incoming addr] for the deposit address
    [addr]: the two pending tails are on record. *)
Definition seen_pending : closure :=
  {| skipFirstEmitting := false; receivedFilter := ∅;
     receivingFilter := {[ "TAILA"; "TAILB" ]} |}.

End Poller.

(* ===================================================================== *)
(** * account/deposit: conditions as a transfer                          *)
(* ===================================================================== *)

Module DepositTransfer.
Import World Deposit.

(** [Conditions.AsTransfer]. *)
Definition AsTransfer (dc : Conditions) : Transfer :=
  {| tr_Address := Address dc;
     tr_Value := match ExpectedAmount (Req dc) with
                 | None => 0
                 | Some q => ptr_val q
                 end;
     tr_Message := EmptyString;
     tr_Tag := EmptyString |}.

(** A string without the byte [c]. *)
Fixpoint lacks (c : ascii) (s : string) : bool :=
  match s with
  | EmptyString => true
  | String x r => negb (Ascii.eqb x c) && lacks c r
  end.

(** The bytes of a query that [url.Parse] and [URL.Query] read as they stand,
    with nothing to unescape: lower-case letters, digits, [=], [&] and [-]. *)
Definition is_plain (c : ascii) : bool :=
  let n := nat_of_ascii c in
  ((97 <=? n) && (n <=? 122) || (48 <=? n) && (n <=? 57) ||
   (n =? 61) || (n =? 38) || (n =? 45))%nat.

Fixpoint plain_query (s : string) : bool :=
  match s with
  | EmptyString => true
  | String c r => is_plain c && plain_query r
  end.

End DepositTransfer.

(* ===================================================================== *)
(** * account/plugins/transfer/poller: incoming transfers                *)
(* ===================================================================== *)

Module Incoming.
Import Store World Poller.
Local Open Scope list_scope.
Local Open Scope go_scope.

Section WithEnv.
Variable env : Env.

(** The loop of [checkIncomingTransfers] over the deposit requests: the
    addresses without checksum, as a slice and as a set. *)
Fixpoint deposit_addresses (seed : Trytes) (depositRequests : list (Z * StoredDepositRequest))
    (depAddrs : list Hash) (depositAddresses : StringSet) : result (list Hash * StringSet) :=
  match depositRequests with
  | [] => inr (depAddrs, depositAddresses)
  | (keyIndex, req) :: rest =>
      match GenerateAddress env seed keyIndex (SecurityLevel req) false with
      | (_, Some err) => inl err
      | (addr, None) =>
          deposit_addresses seed rest (depAddrs ++ [addr]) ({[ addr ]} ∪ depositAddresses)
      end
  end.

(** The loop over the transactions of one pending bundle. *)
Definition spent_in (bndl : Bundle) (spentAddresses : StringSet) : StringSet :=
  fold_left (fun spent tx => if tx_Value tx <? 0 then {[ tx_Address tx ]} ∪ spent else spent)
            bndl spentAddresses.

(** The loop over the pending transfers; [None] is its [panic(err)]. *)
Fixpoint spent_addresses (pendingTransfers : list (Hash * PendingTransfer))
    (spentAddresses : StringSet) : option StringSet :=
  match pendingTransfers with
  | [] => Some spentAddresses
  | (_, transfer) :: rest =>
      match PendingTransferToBundle env transfer with
      | inl _ => None
      | inr bndl => spent_addresses rest (spent_in bndl spentAddresses)
      end
  end.

(** [TransferPoller.checkIncomingTransfers] up to its last statement, the
    call of the receive event filter: the value is the arguments of that
    call, or [None] when the function returns before it. *)
Definition checkIncomingTransfers (depositRequests : list (Z * StoredDepositRequest))
    (pendingTransfers : list (Hash * PendingTransfer))
  : M (option (list Bundle * StringSet * StringSet)) :=
  match depositRequests with
  | [] => ret None
  | _ =>
      let! r := Seed env in
      match r with
      | inl err =>
          do! Emit (PError (ErrWrap err
                      "unable to get seed from seed provider in incoming transfers op."))
                   EventError in
          ret None
      | inr seed =>
          match deposit_addresses seed depositRequests [] ∅ with
          | inl err =>
              do! Emit (PError (ErrWrap err
                          "unable to compute deposit address in incoming transfers op."))
                       EventError in
              ret None
          | inr (depAddrs, depositAddresses) =>
              match spent_addresses pendingTransfers ∅ with
              | None => panic
              | Some spentAddresses =>
                  let! r := GetBundlesFromAddresses env depAddrs true in
                  match r with
                  | inl err =>
                      do! Emit (PError (ErrWrap err
                                  "unable to fetch bundles from deposit addresses in incoming transfers op."))
                               EventError in
                      ret None
                  | inr bndls => ret (Some (bndls, depositAddresses, spentAddresses))
                  end
              end
          end
      end
  end.

(** A transaction that takes value from no address of the account: not from
    the address of a deposit request and not from an input address of a
    pending transfer. *)
Definition not_own (seed : Trytes) (depositRequests : list (Z * StoredDepositRequest))
    (pendingTransfers : list (Hash * PendingTransfer)) (tx : Transaction) : Prop :=
  (forall keyIndex req,
     In (keyIndex, req) depositRequests ->
     fst (GenerateAddress env seed keyIndex (SecurityLevel req) false) <> tx_Address tx) /\
  (forall key transfer bndl spend,
     In (key, transfer) pendingTransfers ->
     PendingTransferToBundle env transfer = inr bndl ->
     In spend bndl -> tx_Value spend < 0 -> tx_Address spend <> tx_Address tx).

End WithEnv.

(** ** Sample data: a node that knows the bundles of [incoming] for the
    address of the first deposit request. *)
Definition polled_world : Env :=
  {| store_GetDepositRequests := store_GetDepositRequests Account.funded_world;
     store_GetPendingTransfers := store_GetPendingTransfers Account.funded_world;
     store_WriteIndex := store_WriteIndex Account.funded_world;
     store_AddDepositRequest := store_AddDepositRequest Account.funded_world;
     store_RemoveDepositRequest := store_RemoveDepositRequest Account.funded_world;
     store_AddPendingTransfer := store_AddPendingTransfer Account.funded_world;
     store_AddTailHash := store_AddTailHash Account.funded_world;
     api_GetLatestSolidSubtangleMilestone :=
       api_GetLatestSolidSubtangleMilestone Account.funded_world;
     api_GetBalances := api_GetBalances Account.funded_world;
     api_GetBundlesFromAddresses := fun _ addrs _ =>
       match addrs with
       | addr :: _ => inr (incoming addr)
       | [] => inr []
       end;
     api_CheckConsistency := api_CheckConsistency Account.funded_world;
     api_GetTrytes := api_GetTrytes Account.funded_world;
     api_GetTransactionsToApprove := api_GetTransactionsToApprove Account.funded_world;
     api_PrepareTransfers := api_PrepareTransfers Account.funded_world;
     api_AttachToTangle := api_AttachToTangle Account.funded_world;
     api_StoreAndBroadcast := api_StoreAndBroadcast Account.funded_world;
     clock_Now := clock_Now Account.funded_world;
     timesrc_Time := timesrc_Time Account.funded_world;
     prov_Seed := prov_Seed Account.funded_world;
     GenerateAddress := GenerateAddress Account.funded_world;
     AsTransactionObject := AsTransactionObject Account.funded_world;
     AsTransactionObjects := AsTransactionObjects Account.funded_world;
     TransactionsToTrytes := TransactionsToTrytes Account.funded_world;
     PendingTransferToBundle := PendingTransferToBundle Account.funded_world |}.

(** The same world with a store whose pending transfers do not decode. *)
Definition undecodable : error := ErrExt "invalid trytes in pending transfer".

Definition undecodable_world : Env :=
  {| store_GetDepositRequests := store_GetDepositRequests polled_world;
     store_GetPendingTransfers := store_GetPendingTransfers polled_world;
     store_WriteIndex := store_WriteIndex polled_world;
     store_AddDepositRequest := store_AddDepositRequest polled_world;
     store_RemoveDepositRequest := store_RemoveDepositRequest polled_world;
     store_AddPendingTransfer := store_AddPendingTransfer polled_world;
     store_AddTailHash := store_AddTailHash polled_world;
     api_GetLatestSolidSubtangleMilestone := api_GetLatestSolidSubtangleMilestone polled_world;
     api_GetBalances := api_GetBalances polled_world;
     api_GetBundlesFromAddresses := api_GetBundlesFromAddresses polled_world;
     api_CheckConsistency := api_CheckConsistency polled_world;
     api_GetTrytes := api_GetTrytes polled_world;
     api_GetTransactionsToApprove := api_GetTransactionsToApprove polled_world;
     api_PrepareTransfers := api_PrepareTransfers polled_world;
     api_AttachToTangle := api_AttachToTangle polled_world;
     api_StoreAndBroadcast := api_StoreAndBroadcast polled_world;
     clock_Now := clock_Now polled_world;
     timesrc_Time := timesrc_Time polled_world;
     prov_Seed := prov_Seed polled_world;
     GenerateAddress := GenerateAddress polled_world;
     AsTransactionObject := AsTransactionObject polled_world;
     AsTransactionObjects := AsTransactionObjects polled_world;
     TransactionsToTrytes := TransactionsToTrytes polled_world;
     PendingTransferToBundle := fun _ => inl undecodable |}.

Definition polled_requests : list (Z * StoredDepositRequest) :=
  [(1, Account.request_until 1700003600 100)].

End Incoming.

(* ===================================================================== *)
(** * Properties of the magnet link                                      *)
(* ===================================================================== *)

Module DepositProps.
Import Deposit.

(** A parsed link never carries an address: [ParseMagnetLink] measures the
    host of the link and then leaves [cond.Address] at its zero value. *)
Lemma ParseMagnetLink_leaves_address_empty a_expire a_amount s cond :
  ParseMagnetLink a_expire a_amount s = inr cond -> Address cond = EmptyString.
Proof.
  unfold ParseMagnetLink.
  destruct (url_Parse s) as [e | link]; [discriminate |].
  destruct (negb _); [discriminate |].
  destruct (ParseInt _) as [e | secs]; [discriminate |].
  destruct (ParseUint _) as [e | amount]; [discriminate |].
  intros H. injection H as <-. reflexivity.
Qed.

(** The link does not depend on the amount: what [AsMagnetLink] prints after
    [am=] is the pointer. *)
Lemma AsMagnetLink_ignores_amount v dc :
  AsMagnetLink (with_amount v dc) = AsMagnetLink dc.
Proof.
  unfold AsMagnetLink, with_amount. simpl.
  destruct (deref (TimeoutAt (Req dc))); [| reflexivity].
  destruct (ExpectedAmount (Req dc)); reflexivity.
Qed.

(** C1 (the round trip fails on the code).  For the sample conditions
    (a 90-tryte address, a timeout, multi-use, an expected amount of 1000
    behind a non-nil pointer) [AsMagnetLink] yields a link that
    [ParseMagnetLink] accepts, but the conditions parsed from it have an empty
    address and, as expected amount, the address of the pointer
    (824633811096) in place of 1000; only the timeout and the multi-use flag
    come back. *)
Theorem magnet_link_roundtrip_loses_address_and_amount :
  exists link parsed,
    AsMagnetLink sample_conditions = Some link /\
    ParseMagnetLink 824633802824 824633811104 link = inr parsed /\
    Address parsed = EmptyString /\
    String.length (Address sample_conditions) = 90%nat /\
    deref (ExpectedAmount (Req sample_conditions)) = Some 1000 /\
    deref (ExpectedAmount (Req parsed)) = Some 824633811096 /\
    Time_Unix <$> deref (TimeoutAt (Req parsed)) = Some 1700000000 /\
    MultiUse (Req parsed) = true /\
    same_conditions parsed sample_conditions = false.
Proof.
  eexists. eexists.
  split; [vm_compute; reflexivity |].
  split; [vm_compute; reflexivity |].
  repeat split; vm_compute; reflexivity.
Qed.

End DepositProps.

(* ===================================================================== *)
(** * Properties of the MongoDB store                                    *)
(* ===================================================================== *)

Module MongoProps.
Import Store Mongo.

Lemma head_addToSet x l k : head l = Some k -> head (addToSet x l) = Some k.
Proof.
  unfold addToSet. destruct (existsb (String.eqb x) l); [tauto |].
  destruct l; [discriminate | tauto].
Qed.

(** [$addToSet] leaves the array as it is or puts the value at its end. *)
Lemma addToSet_appends x l : addToSet x l = l \/ addToSet x l = (l ++ [x])%list.
Proof. unfold addToSet. destruct (existsb (String.eqb x) l); auto. Qed.

(** An update whose mutation keeps the pending transfers of a document well
    keyed keeps the collection so. *)
Lemma UpdateOne_store_inv fault coll id cond mutation :
  store_inv coll ->
  (forall doc, coll !! id = Some doc -> cond doc = true ->
               keyed_by_first_tail (PendingTransfers doc) ->
               keyed_by_first_tail (PendingTransfers (mutation doc))) ->
  store_inv (snd (UpdateOne fault coll id cond mutation)).
Proof.
  intros Hinv Hmut. unfold UpdateOne.
  destruct fault; [exact Hinv |].
  destruct (coll !! id) as [doc |] eqn:Hdoc; [| exact Hinv].
  destruct (cond doc) eqn:Hcond; [| exact Hinv].
  simpl. intros id' doc' Hlook.
  rewrite lookup_insert in Hlook. case_decide.
  - injection Hlook as <-. apply Hmut; auto. exact (Hinv id doc Hdoc).
  - exact (Hinv id' doc' Hlook).
Qed.

Lemma keyed_insert pts origin pt :
  keyed_by_first_tail pts -> head (Tails pt) = Some origin ->
  keyed_by_first_tail (<[origin := pt]> pts).
Proof.
  intros Hk Hh key pt' Hlook. rewrite lookup_insert in Hlook. case_decide.
  - subst. injection Hlook as <-. exact Hh.
  - exact (Hk key pt' Hlook).
Qed.

Lemma keyed_delete pts origin :
  keyed_by_first_tail pts -> keyed_by_first_tail (delete origin pts).
Proof.
  intros Hk key pt Hlook. rewrite lookup_delete in Hlook. case_decide.
  - discriminate.
  - exact (Hk key pt Hlook).
Qed.

Lemma keyed_addToSet pts origin newTail :
  keyed_by_first_tail pts ->
  keyed_by_first_tail (alter (addToSet_tails newTail) origin pts).
Proof.
  intros Hk key pt Hlook. rewrite lookup_alter in Hlook. case_decide.
  - subst. destruct (pts !! key) as [pt0 |] eqn:Hpt; [| discriminate].
    simpl in Hlook. injection Hlook as <-. simpl.
    apply head_addToSet. exact (Hk key pt0 Hpt).
  - exact (Hk key pt Hlook).
Qed.

Lemma InsertOne_store_inv fault coll doc :
  store_inv coll -> keyed_by_first_tail (PendingTransfers doc) ->
  store_inv (snd (InsertOne fault coll doc)).
Proof.
  intros Hinv Hdoc. unfold InsertOne.
  destruct fault; [exact Hinv |].
  destruct (coll !! ID doc); [exact Hinv |].
  simpl. intros id' doc' Hlook. rewrite lookup_insert in Hlook. case_decide.
  - injection Hlook as <-. exact Hdoc.
  - exact (Hinv id' doc' Hlook).
Qed.

Section Invariant.
Variable compress : list Trytes -> list (list Z).

(** [AddPendingTransfer] stores the origin tail as the only tail. *)
Lemma AddPendingTransfer_stores_origin coll id doc origin trytes indices :
  coll !! id = Some doc ->
  exists doc',
    snd (AddPendingTransfer compress None coll id origin trytes indices) !! id = Some doc' /\
    Tails <$> PendingTransfers doc' !! origin = Some [origin].
Proof.
  intros Hdoc. unfold AddPendingTransfer, UpdateOne. rewrite Hdoc. simpl.
  rewrite lookup_insert_eq. eexists. split; [reflexivity |].
  destruct indices; simpl; rewrite lookup_insert_eq; reflexivity.
Qed.

(** [AddTailHash] on an existing record keeps its tails or appends to them. *)
Lemma AddTailHash_appends coll id doc origin newTail pt :
  coll !! id = Some doc -> PendingTransfers doc !! origin = Some pt ->
  exists doc' pt',
    snd (AddTailHash None coll id origin newTail) !! id = Some doc' /\
    PendingTransfers doc' !! origin = Some pt' /\
    (Tails pt' = Tails pt \/ Tails pt' = (Tails pt ++ [newTail])%list).
Proof.
  intros Hdoc Hpt. unfold AddTailHash, UpdateOne, has_pending. rewrite Hdoc, Hpt. simpl.
  rewrite lookup_insert_eq. eexists. eexists. split; [reflexivity |].
  simpl. rewrite lookup_alter_eq, Hpt. simpl. split; [reflexivity |].
  apply addToSet_appends.
Qed.

Lemma apply_op_store_inv o coll :
  store_inv coll -> store_inv (apply_op compress o coll).
Proof.
  intros Hinv. destruct o; simpl.
  - (* LoadAccount *)
    unfold LoadAccount.
    destruct (FindOne f1 coll id) as [err | state]; [| exact Hinv].
    destruct (error_eqb err ErrNoDocuments); [| exact Hinv].
    match goal with
    | |- context [InsertOne f2 coll ?d] =>
        pose proof (InsertOne_store_inv f2 coll d Hinv) as H
    end.
    destruct (InsertOne _ _ _) as [[e |] coll']; simpl in *; apply H;
      intros key pt Hpt; rewrite lookup_empty in Hpt; discriminate.
  - (* RemoveAccount *)
    unfold RemoveAccount, DeleteOne.
    destruct fault; simpl; [exact Hinv |].
    destruct (coll !! id) eqn:Hid; simpl; [| exact Hinv].
    intros id' doc' Hlook. rewrite lookup_delete in Hlook. case_decide; [discriminate |].
    exact (Hinv id' doc' Hlook).
  - (* WriteIndex *)
    unfold WriteIndex.
    pose proof (UpdateOne_store_inv fault coll id any_doc (set_KeyIndex index) Hinv) as H.
    destruct (UpdateOne _ _ _ _ _). simpl in *. apply H. auto.
  - (* AddDepositRequest *)
    unfold AddDepositRequest.
    pose proof (UpdateOne_store_inv fault coll id any_doc
                  (map_DepositRequests (insert (FormatUint index) req)) Hinv) as H.
    destruct (UpdateOne _ _ _ _ _). simpl in *. apply H. auto.
  - (* RemoveDepositRequest *)
    unfold RemoveDepositRequest.
    pose proof (UpdateOne_store_inv fault coll id any_doc
                  (map_DepositRequests (delete (FormatUint index))) Hinv) as H.
    destruct (UpdateOne _ _ _ _ _). simpl in *. apply H. auto.
  - (* AddPendingTransfer *)
    unfold AddPendingTransfer.
    match goal with
    | |- context [UpdateOne fault coll id any_doc ?m] =>
        pose proof (UpdateOne_store_inv fault coll id any_doc m Hinv) as H
    end.
    destruct (UpdateOne _ _ _ _ _). simpl in *. apply H.
    intros doc _ _ Hk. destruct indices; simpl; apply keyed_insert; auto.
  - (* RemovePendingTransfer *)
    unfold RemovePendingTransfer.
    pose proof (UpdateOne_store_inv fault coll id any_doc
                  (map_PendingTransfers (delete origin)) Hinv) as H.
    destruct (UpdateOne _ _ _ _ _). simpl in *. apply H.
    intros doc _ _ Hk. simpl. apply keyed_delete. exact Hk.
  - (* AddTailHash *)
    unfold AddTailHash.
    pose proof (UpdateOne_store_inv fault coll id (has_pending origin)
                  (map_PendingTransfers (alter (addToSet_tails newTail) origin)) Hinv) as H.
    destruct (UpdateOne _ _ _ _ _). simpl in *. apply H.
    intros doc _ _ Hk. simpl. apply keyed_addToSet. exact Hk.
Qed.

End Invariant.

(** C8.  In every collection the store methods can reach from the empty one,
    every pending transfer of every account has a tails list whose first
    element (so the list is not empty) is the origin tail hash the record is
    keyed by. *)
Theorem reachable_pending_transfers_keyed_by_first_tail compress coll :
  reachable compress coll -> store_inv coll.
Proof.
  induction 1 as [| coll o _ IH _].
  - intros id doc Hlook. rewrite lookup_empty in Hlook. discriminate.
  - apply apply_op_store_inv. exact IH.
Qed.

Lemma reachable_pending_transfers_keyed_by_first_tail_witness :
  let coll := apply_op sample_compress sample_op4
                (apply_op sample_compress sample_op3
                   (apply_op sample_compress sample_op2
                      (apply_op sample_compress sample_op1 ∅))) in
  store_inv coll /\
  (exists doc, coll !! sample_id = Some doc /\
               Tails <$> PendingTransfers doc !! tail_A = Some [tail_A; tail_B] /\
               Tails <$> PendingTransfers doc !! tail_C = Some [tail_C]).
Proof.
  split.
  - apply (reachable_pending_transfers_keyed_by_first_tail sample_compress).
    repeat (apply reach_step; [| reflexivity]). apply reach_empty.
  - eexists. split; [vm_compute; reflexivity |]. split; vm_compute; reflexivity.
Defined.

(** C2 (what the code does where the claim expects PendingTransferNotFound).
    When the account holds no pending transfer under the origin tail,
    [AddTailHash] leaves the collection as it is, so no record is created,
    and returns what the driver reported for the round trip: nil when the
    round trip went through. *)
Theorem AddTailHash_without_transfer fault coll id origin newTail :
  (forall doc, coll !! id = Some doc -> PendingTransfers doc !! origin = None) ->
  AddTailHash fault coll id origin newTail = (fault, coll).
Proof.
  intros Hnone. unfold AddTailHash, UpdateOne, has_pending.
  destruct fault; [reflexivity |].
  destruct (coll !! id) as [doc |] eqn:Hdoc; [| reflexivity].
  rewrite (Hnone doc eq_refl). reflexivity.
Qed.

Lemma AddTailHash_without_transfer_witness :
  (exists doc, sample_fresh !! sample_id = Some doc /\ PendingTransfers doc !! tail_A = None) /\
  AddTailHash None sample_fresh sample_id tail_A tail_B = (None, sample_fresh).
Proof.
  split.
  - eexists. split; vm_compute; reflexivity.
  - apply (AddTailHash_without_transfer None sample_fresh sample_id tail_A tail_B).
    intros doc Hdoc. vm_compute in Hdoc. injection Hdoc as <-. reflexivity.
Defined.

End MongoProps.

(* ===================================================================== *)
(** * Properties of the sync-interval timer                              *)
(* ===================================================================== *)

Module TimerProps.
Import Timer.

(** Without an interval timer a turn of the loop neither calls the function
    nor logs a call of it. *)
Lemma step_without_timer sit s ev s' :
  intervalTimer sit = None -> step sit s ev = Some s' ->
  calls s' = calls s /\ f_calls s' = f_calls s.
Proof.
  intros Hnil. unfold step. rewrite Hnil.
  destruct (at_loc s), ev; intros H; try discriminate;
    injection H as <-; split; try reflexivity.
  unfold f_calls, leave. simpl. rewrite filter_app. simpl.
  rewrite app_nil_r. reflexivity.
Qed.

Lemma run_without_timer sit evs : forall s s',
  intervalTimer sit = None -> run sit s evs = Some s' ->
  calls s' = calls s /\ f_calls s' = f_calls s.
Proof.
  induction evs as [| ev rest IH]; intros s s' Hnil Hrun; simpl in Hrun.
  - injection Hrun as <-. auto.
  - destruct (step sit s ev) as [s1 |] eqn:Hstep; [| discriminate].
    destruct (step_without_timer sit s ev s1 Hnil Hstep) as [Hc Hf].
    destruct (IH s1 s' Hnil Hrun) as [Hc' Hf'].
    split; congruence.
Qed.

(** With a positive interval the loop does call the function when the timer
    fires. *)
Example Start_with_interval_calls_f :
  (calls <$> Start (NewSyncIntervalTimer (30 * Second) sample_f true)
               [EvPause; EvResume; EvTick false]) = Some 1%nat.
Proof. reflexivity. Qed.

(** C9.  A timer made with interval 0 never calls its function: wherever
    the loop of [Start] stands after any schedule of pauses, resumes, ticks
    and stops it can follow, the function has been called zero times and the
    loop has logged no call of it. *)
Theorem zero_interval_never_calls_f f onError evs s :
  Start (NewSyncIntervalTimer 0 f onError) evs = Some s ->
  calls s = 0%nat /\ f_calls s = [].
Proof.
  intros Hrun. unfold Start in Hrun.
  apply run_without_timer in Hrun; [| reflexivity]. exact Hrun.
Qed.

Lemma zero_interval_never_calls_f_witness :
  exists s, Start (NewSyncIntervalTimer 0 sample_f true) sample_schedule = Some s /\
            at_loc s = Returned /\ calls s = 0%nat /\ f_calls s = [].
Proof.
  eexists. split; [reflexivity |]. split; [reflexivity |].
  apply (zero_interval_never_calls_f sample_f true sample_schedule). reflexivity.
Defined.

End TimerProps.

(* ===================================================================== *)
(** * Running computations                                               *)
(* ===================================================================== *)

Module WorldProps.
Import World.
Local Open Scope list_scope.

Lemma run_bind {A B} (m : M A) (k : A -> M B) h :
  bind m k h =
  match value (m h) with
  | Some a => (value (k a (h ++ calls (m h))),
               calls (m h) ++ calls (k a (h ++ calls (m h))))
  | None => (None, calls (m h))
  end.
Proof.
  unfold bind, value, calls. destruct (m h) as [[a |] l1]; simpl; [| reflexivity].
  destruct (k a (h ++ l1)); reflexivity.
Qed.

Lemma run_call_bind {A B} c (answer : history -> A) (k : A -> M B) h :
  bind (call c answer) k h =
  (value (k (answer h) (h ++ [c])), c :: calls (k (answer h) (h ++ [c]))).
Proof. rewrite run_bind. reflexivity. Qed.

Lemma run_ret_bind {A B} (a : A) (k : A -> M B) h : bind (ret a) k h = k a h.
Proof.
  rewrite run_bind. simpl. rewrite app_nil_r.
  unfold value, calls. destruct (k a h); reflexivity.
Qed.


Lemma run_bind_value {A B} (m : M A) (k : A -> M B) h a l :
  m h = (Some a, l) ->
  bind m k h = (value (k a (h ++ l)), l ++ calls (k a (h ++ l))).
Proof. intros H. rewrite run_bind, H. reflexivity. Qed.

Lemma run_bind_panic {A B} (m : M A) (k : A -> M B) h l :
  m h = (None, l) -> bind m k h = (None, l).
Proof. intros H. rewrite run_bind, H. reflexivity. Qed.

Lemma value_calls {A} (r : option A * list Call) : (value r, calls r) = r.
Proof. destruct r; reflexivity. Qed.

(** ** Computations that only make calls of one kind *)

Lemma only_ret {A} P (a : A) : only P (ret a).
Proof. intros h. constructor. Qed.

Lemma only_panic {A} P : only P (@panic A).
Proof. intros h. constructor. Qed.

Lemma only_call {A} P c (answer : history -> A) : P c = true -> only P (call c answer).
Proof. intros H h. simpl. constructor; [exact H | constructor]. Qed.

Lemma only_index {A} P (l : list A) i : only P (index l i).
Proof. unfold index. destruct (l !! i); [apply only_ret | apply only_panic]. Qed.

Lemma only_bind {A B} P (m : M A) (k : A -> M B) :
  only P m -> (forall a, only P (k a)) -> only P (bind m k).
Proof.
  intros Hm Hk h. rewrite run_bind.
  destruct (value (m h)) as [a |] eqn:Hv; simpl.
  - apply Forall_app. split; [apply Hm | apply Hk].
  - apply Hm.
Qed.

End WorldProps.

(* ===================================================================== *)
(** * Properties of the promoter                                         *)
(* ===================================================================== *)

Module PromoterProps.
Import Store World WorldProps Promoter.
Local Open Scope list_scope.

Lemma gtta_calls_0 tailTx d : gtta_calls tailTx d 0 = [].
Proof. reflexivity. Qed.

Lemma gtta_calls_S tailTx d n :
  gtta_calls tailTx d (S n) =
  CGetTransactionsToApprove d (Some tailTx) :: gtta_calls tailTx (d + 1) n.
Proof.
  unfold gtta_calls. rewrite seqZ_cons by lia. simpl.
  replace (Z.pred (Z.of_nat (S n))) with (Z.of_nat n) by lia.
  replace (Z.succ d) with (d + 1) by lia. reflexivity.
Qed.

Lemma gtta_calls_snoc tailTx d n :
  gtta_calls tailTx d (S n) =
  gtta_calls tailTx d n ++ [CGetTransactionsToApprove (d + Z.of_nat n) (Some tailTx)].
Proof.
  revert d. induction n as [| n IH]; intros d.
  - rewrite gtta_calls_S, !gtta_calls_0. simpl. replace (d + Z.of_nat 0) with d by lia. reflexivity.
  - rewrite gtta_calls_S, IH, (gtta_calls_S tailTx d n). simpl.
    replace (d + 1 + Z.of_nat n) with (d + Z.of_nat (S n)) by lia. reflexivity.
Qed.

(** Takes apart a goal [only P m] along the structure of [m]. *)
Ltac only_tac :=
  repeat first
    [ apply only_ret | apply only_panic | apply only_index
    | apply only_call; reflexivity
    | apply only_bind; [| intros ?]
    | solve [auto]
    | match goal with
      | |- only _ (match ?x with _ => _ end) => destruct x
      end ].

Section Promote.
Variable env : Env.
Variable p : Promoter.

Lemma only_send P preparedBundle tips :
  (forall a b c d, P (CAttachToTangle a b c d) = true) ->
  (forall a, P (CStoreAndBroadcast a) = true) ->
  only P (send env p preparedBundle tips).
Proof.
  intros H1 H2. unfold send, AttachToTangle, StoreAndBroadcast.
  apply only_bind; [apply only_call, H1 | intros r].
  destruct r; [apply only_ret |].
  apply only_bind; [apply only_call, H2 | intros r].
  only_tac.
Qed.




(** [promote] begins with a tip selection that refers to the tail. *)
Lemma promote_first_call tail h :
  exists rest,
    calls (promote env p tail h) = CGetTransactionsToApprove (depth p) (Some tail) :: rest.
Proof.
  unfold promote, promote_fuel. cbn [promote_loop].
  unfold GetTransactionsToApprove. rewrite run_call_bind.
  unfold calls at 1. cbn [snd]. eexists. reflexivity.
Qed.

Lemma promote_and_emit_first_call key bndl tail h :
  exists rest,
    calls (promote_and_emit env p key bndl tail h) =
    CGetTransactionsToApprove (depth p) (Some tail) :: rest.
Proof.
  unfold promote_and_emit. rewrite run_bind.
  destruct (promote_first_call tail h) as [rest Hrest]. rewrite Hrest.
  destruct (value (promote env p tail h)); unfold calls at 1; cbn [snd app];
    eexists; reflexivity.
Qed.

(** One round of the loop of [promote] on a reference that is too old. *)
Lemma promote_loop_too_old fuel d tailTx h e :
  api_GetTransactionsToApprove env h d (Some tailTx) = inl e ->
  Error e = referenceTooOldMsg ->
  promote_loop env p (S fuel) d tailTx h =
  if maxDepth <? wrap_u64 (d + 1)
  then (Some (inl ErrUnpromotableTail), [CGetTransactionsToApprove d (Some tailTx)])
  else (value (promote_loop env p fuel (wrap_u64 (d + 1)) tailTx
                 (h ++ [CGetTransactionsToApprove d (Some tailTx)])),
        CGetTransactionsToApprove d (Some tailTx)
        :: calls (promote_loop env p fuel (wrap_u64 (d + 1)) tailTx
                    (h ++ [CGetTransactionsToApprove d (Some tailTx)]))).
Proof.
  intros Hans Hmsg. cbn [promote_loop]. unfold GetTransactionsToApprove.
  rewrite run_call_bind, Hans, Hmsg, String.eqb_refl.
  destruct (maxDepth <? wrap_u64 (d + 1)); reflexivity.
Qed.

(** One round of the loop on any other error of the tip selection. *)
Lemma promote_loop_other_error fuel d tailTx h e :
  api_GetTransactionsToApprove env h d (Some tailTx) = inl e ->
  Error e <> referenceTooOldMsg ->
  promote_loop env p (S fuel) d tailTx h =
  (Some (inl e), [CGetTransactionsToApprove d (Some tailTx)]).
Proof.
  intros Hans Hmsg. cbn [promote_loop]. unfold GetTransactionsToApprove.
  rewrite run_call_bind, Hans.
  destruct (String.eqb_spec (Error e) referenceTooOldMsg); [contradiction | reflexivity].
Qed.

(** [n] rounds on a reference that stays too old, below [maxDepth]. *)
Lemma promote_loop_escalates tailTx : forall (n : nat) fuel d h,
  0 <= d -> d + Z.of_nat n <= 15 ->
  (forall h' k, d <= k < d + Z.of_nat n ->
     exists e, api_GetTransactionsToApprove env h' k (Some tailTx) = inl e /\
               Error e = referenceTooOldMsg) ->
  promote_loop env p (n + fuel) d tailTx h =
  (value (promote_loop env p fuel (d + Z.of_nat n) tailTx (h ++ gtta_calls tailTx d n)),
   gtta_calls tailTx d n ++
   calls (promote_loop env p fuel (d + Z.of_nat n) tailTx (h ++ gtta_calls tailTx d n))).
Proof.
  induction n as [| n IH]; intros fuel d h Hd Hn Hold.
  - rewrite gtta_calls_0, app_nil_r. cbn [Nat.add app].
    replace (d + Z.of_nat 0) with d by lia. symmetry. apply value_calls.
  - destruct (Hold h d ltac:(lia)) as [e [Hans Hmsg]].
    change (S n + fuel)%nat with (S (n + fuel)).
    rewrite (promote_loop_too_old _ _ _ _ e Hans Hmsg).
    assert (Hw : wrap_u64 (d + 1) = d + 1).
    { unfold wrap_u64, uint64_modulus. apply Z.mod_small. lia. }
    rewrite Hw. unfold maxDepth.
    destruct (Z.ltb_spec 15 (d + 1)) as [Hlt | _]; [lia |].
    rewrite (IH fuel (d + 1) _ ltac:(lia) ltac:(lia)).
    + rewrite gtta_calls_S. unfold value, calls. cbn [fst snd app].
      rewrite <- app_assoc. cbn [app].
      replace (d + 1 + Z.of_nat n) with (d + Z.of_nat (S n)) by lia. reflexivity.
    + intros h' k Hk. apply Hold. lia.
Qed.

End Promote.

Section Walk.
Variable env : Env.




Variable p : Promoter.

(** A promotion that the node lets through at the configured depth. *)
Lemma promote_goes_through tail h tips prepared ready t0 ts tailTx :
  promotion_goes_through env p tail h tips prepared ready (t0 :: ts) ->
  AsTransactionObject env t0 = inr tailTx ->
  promote env p tail h =
  (Some (inr (tx_Hash tailTx)), promotion_calls p tail tips prepared ready).
Proof.
  intros (Htips & Hprep & Hpow & Hbroadcast) Htail.
  unfold promote, promote_fuel. cbn [promote_loop].
  unfold GetTransactionsToApprove, PrepareTransfers, send, AttachToTangle, StoreAndBroadcast.
  rewrite run_call_bind, Htips.
  rewrite run_call_bind, Hprep.
  rewrite <- !app_assoc. cbn [app].
  rewrite run_call_bind, Hpow.
  rewrite <- !app_assoc. cbn [app].
  rewrite run_call_bind, Hbroadcast.
  unfold index. cbn [lookup list_lookup]. rewrite run_ret_bind, Htail.
  reflexivity.
Qed.

(** What the tick makes of the outcome of [promote]: the promotion event
    with the hash [promote] returned, the error event with its error, or the
    panic of [promote]. *)
Lemma promote_and_emit_run key b0 bs tail h :
  promote_and_emit env p key (b0 :: bs) tail h =
  match value (promote env p tail h) with
  | Some (inr promoted) =>
      (Some tt, calls (promote env p tail h) ++ [promotion_event key b0 promoted])
  | Some (inl err) =>
      (Some tt, calls (promote env p tail h) ++ [promotion_error_event err])
  | None => (None, calls (promote env p tail h))
  end.
Proof.
  unfold promote_and_emit. rewrite run_bind.
  destruct (value (promote env p tail h)) as [[err | promoted] |]; [reflexivity | | reflexivity].
  unfold index. cbn [lookup list_lookup]. rewrite run_ret_bind. reflexivity.
Qed.

(** The loop of the tick over the pending transfers, transfer by
    transfer. *)
Lemma for_each_app {A} (body : A -> M unit) (l2 : list A) : forall l1 h done,
  for_each l1 body h = (Some tt, done) ->
  for_each (l1 ++ l2) body h =
  (value (for_each l2 body (h ++ done)), done ++ calls (for_each l2 body (h ++ done))).
Proof.
  induction l1 as [| x l1 IH]; intros h done H.
  - injection H as <-. rewrite app_nil_r. cbn [app]. symmetry. apply value_calls.
  - cbn [app for_each] in *. rewrite run_bind in *.
    destruct (value (body x h)) as [[] |]; [| discriminate].
    destruct (for_each l1 body (h ++ calls (body x h))) as [[[] |] later] eqn:Hlater;
      unfold value, calls in H; cbn [fst snd] in H; [| discriminate].
    injection H as <-.
    rewrite (IH _ _ Hlater). unfold value, calls. cbn [fst snd].
    rewrite <- !app_assoc. reflexivity.
Qed.

(** A tick gets to every pending transfer the store hands it, as long as the
    transfers before it do not make it panic; it goes on with the transfers
    after it unless this one does. *)
Lemma tick_visits h before entry after done :
  store_GetPendingTransfers env h (accID p) = inr (before ++ entry :: after) ->
  for_each before (promote_transfer env p) (h ++ [CGetPendingTransfers (accID p)])
    = (Some tt, done) ->
  Promoter_promote env p h =
  match value (promote_transfer env p entry (h ++ CGetPendingTransfers (accID p) :: done)) with
  | Some _ =>
      (value (for_each after (promote_transfer env p)
                (h ++ CGetPendingTransfers (accID p) :: done ++
                 calls (promote_transfer env p entry
                          (h ++ CGetPendingTransfers (accID p) :: done)))),
       CGetPendingTransfers (accID p) :: done ++
       calls (promote_transfer env p entry (h ++ CGetPendingTransfers (accID p) :: done)) ++
       calls (for_each after (promote_transfer env p)
                (h ++ CGetPendingTransfers (accID p) :: done ++
                 calls (promote_transfer env p entry
                          (h ++ CGetPendingTransfers (accID p) :: done)))))
  | None =>
      (None,
       CGetPendingTransfers (accID p) :: done ++
       calls (promote_transfer env p entry (h ++ CGetPendingTransfers (accID p) :: done)))
  end.
Proof.
  intros Hstore Hbefore. unfold Promoter_promote, GetPendingTransfers.
  rewrite run_call_bind, Hstore.
  assert (Hrun : for_each (before ++ entry :: after) (promote_transfer env p)
                   (h ++ [CGetPendingTransfers (accID p)]) =
                 match value (promote_transfer env p entry
                                (h ++ CGetPendingTransfers (accID p) :: done)) with
                 | Some _ =>
                     (value (for_each after (promote_transfer env p)
                               (h ++ CGetPendingTransfers (accID p) :: done ++
                                calls (promote_transfer env p entry
                                         (h ++ CGetPendingTransfers (accID p) :: done)))),
                      done ++
                      calls (promote_transfer env p entry
                               (h ++ CGetPendingTransfers (accID p) :: done)) ++
                      calls (for_each after (promote_transfer env p)
                               (h ++ CGetPendingTransfers (accID p) :: done ++
                                calls (promote_transfer env p entry
                                         (h ++ CGetPendingTransfers (accID p) :: done)))))
                 | None =>
                     (None,
                      done ++
                      calls (promote_transfer env p entry
                               (h ++ CGetPendingTransfers (accID p) :: done)))
                 end).
  { rewrite (for_each_app _ _ _ _ _ Hbefore). cbn [for_each]. rewrite run_bind.
    rewrite <- !app_assoc. cbn [app].
    destruct (value (promote_transfer env p entry
                       (h ++ CGetPendingTransfers (accID p) :: done))) as [[] |];
      unfold value, calls; cbn [fst snd]; rewrite <- ?app_assoc; cbn [app];
      rewrite <- ?app_assoc; reflexivity. }
  destruct (before ++ entry :: after) as [| e0 l] eqn:Hlist.
  { destruct before; discriminate. }
  rewrite Hrun.
  destruct (value (promote_transfer env p entry
                     (h ++ CGetPendingTransfers (accID p) :: done))) as [[] |];
    reflexivity.
Qed.

End Walk.



(** The store reporting that the transfer is gone counts as stored: nothing
    is emitted and [storeTailTxHash] says yes. *)
Lemma storeTailTxHash_not_found env p key tailTxHash msg h :
  store_AddTailHash env h (accID p) key tailTxHash = Some ErrPendingTransferNotFound ->
  storeTailTxHash env p key tailTxHash msg h =
  (Some true, [CAddTailHash (accID p) key tailTxHash]).
Proof.
  intros Hnf. unfold storeTailTxHash, AddTailHash.
  rewrite run_call_bind, Hnf. reflexivity.
Qed.

(** C3 (as the code has it).  On the reattachment path of a tick (no tail of
    the transfer qualified, the bundle was rebuilt, the reattachment went out
    and its event was emitted), when [AddTailHash] answers
    [ErrPendingTransferNotFound] the promoter takes the tail for stored,
    emits no error event for the store, and goes on in the same tick to
    promote the reattached tail: right after the [AddTailHash] call come the
    calls of [promote] on the new tail, the first of them the tip selection
    with the new tail as reference, and then the promotion event with the
    hash [promote] returned, or the error event when [promote] returned an
    error; when [promote] panics, so does the tick.  A node that lets the
    promotion through is asked for tips, for the promotion bundle, for the
    proof of work and for the broadcast, and the promotion event follows. *)
Theorem reattachment_not_found_still_promotes
    env p h before key pt after done walk b0 bs reattachTailTxHash reattached :
  store_GetPendingTransfers env h (accID p) = inr (before ++ (key, pt) :: after) ->
  for_each before (promote_transfer env p) (h ++ [CGetPendingTransfers (accID p)])
    = (Some tt, done) ->
  find_tail env (rev (Tails pt)) (h ++ CGetPendingTransfers (accID p) :: done)
    = (Some EmptyString, walk) ->
  PendingTransferToBundle env pt = inr (b0 :: bs) ->
  reattach env p (b0 :: bs) (h ++ CGetPendingTransfers (accID p) :: done ++ walk)
    = (Some (inr reattachTailTxHash), reattached) ->
  store_AddTailHash env
    (h ++ CGetPendingTransfers (accID p) :: done ++ walk ++ reattached ++
     [reattachment_event key b0 reattachTailTxHash])
    (accID p) key reattachTailTxHash = Some ErrPendingTransferNotFound ->
  (* the transfer *)
  promote_transfer env p (key, pt) (h ++ CGetPendingTransfers (accID p) :: done) =
    match value (promote env p reattachTailTxHash
                   (h ++ CGetPendingTransfers (accID p) :: done ++ walk ++ reattached ++
                    [reattachment_event key b0 reattachTailTxHash;
                     CAddTailHash (accID p) key reattachTailTxHash])) with
    | Some (inr promoted) =>
        (Some tt,
         walk ++ reattached ++
         [reattachment_event key b0 reattachTailTxHash;
          CAddTailHash (accID p) key reattachTailTxHash] ++
         calls (promote env p reattachTailTxHash
                  (h ++ CGetPendingTransfers (accID p) :: done ++ walk ++ reattached ++
                   [reattachment_event key b0 reattachTailTxHash;
                    CAddTailHash (accID p) key reattachTailTxHash])) ++
         [promotion_event key b0 promoted])
    | Some (inl err) =>
        (Some tt,
         walk ++ reattached ++
         [reattachment_event key b0 reattachTailTxHash;
          CAddTailHash (accID p) key reattachTailTxHash] ++
         calls (promote env p reattachTailTxHash
                  (h ++ CGetPendingTransfers (accID p) :: done ++ walk ++ reattached ++
                   [reattachment_event key b0 reattachTailTxHash;
                    CAddTailHash (accID p) key reattachTailTxHash])) ++
         [promotion_error_event err])
    | None =>
        (None,
         walk ++ reattached ++
         [reattachment_event key b0 reattachTailTxHash;
          CAddTailHash (accID p) key reattachTailTxHash] ++
         calls (promote env p reattachTailTxHash
                  (h ++ CGetPendingTransfers (accID p) :: done ++ walk ++ reattached ++
                   [reattachment_event key b0 reattachTailTxHash;
                    CAddTailHash (accID p) key reattachTailTxHash])))
    end /\
  (* the first call of the promotion *)
  (exists rest,
     calls (promote env p reattachTailTxHash
              (h ++ CGetPendingTransfers (accID p) :: done ++ walk ++ reattached ++
               [reattachment_event key b0 reattachTailTxHash;
                CAddTailHash (accID p) key reattachTailTxHash])) =
     CGetTransactionsToApprove (depth p) (Some reattachTailTxHash) :: rest) /\
  (* a promotion that goes through *)
  (forall tips prepared ready t0 ts tailTx,
     promotion_goes_through env p reattachTailTxHash
       (h ++ CGetPendingTransfers (accID p) :: done ++ walk ++ reattached ++
        [reattachment_event key b0 reattachTailTxHash;
         CAddTailHash (accID p) key reattachTailTxHash])
       tips prepared ready (t0 :: ts) ->
     AsTransactionObject env t0 = inr tailTx ->
     promote_transfer env p (key, pt) (h ++ CGetPendingTransfers (accID p) :: done) =
       (Some tt,
        walk ++ reattached ++
        [reattachment_event key b0 reattachTailTxHash;
         CAddTailHash (accID p) key reattachTailTxHash] ++
        promotion_calls p reattachTailTxHash tips prepared ready ++
        [promotion_event key b0 (tx_Hash tailTx)])) /\
  (* the tick *)
  Promoter_promote env p h =
    match value (promote_transfer env p (key, pt)
                   (h ++ CGetPendingTransfers (accID p) :: done)) with
    | Some _ =>
        (value (for_each after (promote_transfer env p)
                  (h ++ CGetPendingTransfers (accID p) :: done ++
                   calls (promote_transfer env p (key, pt)
                            (h ++ CGetPendingTransfers (accID p) :: done)))),
         CGetPendingTransfers (accID p) :: done ++
         calls (promote_transfer env p (key, pt)
                  (h ++ CGetPendingTransfers (accID p) :: done)) ++
         calls (for_each after (promote_transfer env p)
                  (h ++ CGetPendingTransfers (accID p) :: done ++
                   calls (promote_transfer env p (key, pt)
                            (h ++ CGetPendingTransfers (accID p) :: done)))))
    | None =>
        (None,
         CGetPendingTransfers (accID p) :: done ++
         calls (promote_transfer env p (key, pt)
                  (h ++ CGetPendingTransfers (accID p) :: done)))
    end.
Proof.
  intros Hstore Hbefore Hwalk Hbndl Hre Hnf.
  set (h0 := h ++ CGetPendingTransfers (accID p) :: done) in *.
  assert (Hh : forall l, h ++ CGetPendingTransfers (accID p) :: done ++ l = h0 ++ l).
  { intros l. unfold h0. rewrite <- app_assoc. reflexivity. }
  rewrite !Hh in *.
  set (h1 := h0 ++ walk ++ reattached ++
             [reattachment_event key b0 reattachTailTxHash;
              CAddTailHash (accID p) key reattachTailTxHash]).
  assert (Hbody : promote_transfer env p (key, pt) h0 =
                  (value (promote_and_emit env p key (b0 :: bs) reattachTailTxHash h1),
                   walk ++ reattached ++
                   [reattachment_event key b0 reattachTailTxHash;
                    CAddTailHash (accID p) key reattachTailTxHash] ++
                   calls (promote_and_emit env p key (b0 :: bs) reattachTailTxHash h1))).
  { unfold promote_transfer.
    rewrite (run_bind_value _ _ _ _ _ Hwalk), Hbndl.
    change (0 <? len EmptyString) with false. cbv iota.
    rewrite (run_bind_value _ _ _ _ _ Hre).
    unfold index. cbn [lookup list_lookup]. cbv iota. rewrite run_ret_bind.
    unfold Emit. rewrite run_call_bind.
    fold (reattachment_event key b0 reattachTailTxHash).
    rewrite <- !app_assoc.
    rewrite (run_bind_value _ _ _ _ _
               (storeTailTxHash_not_found env p key reattachTailTxHash _ _ Hnf)).
    cbn [negb]. cbv beta iota. unfold value, calls, h1. cbn [fst snd app].
    rewrite <- !app_assoc. cbn [app]. reflexivity. }
  split.
  { rewrite Hbody, promote_and_emit_run.
    destruct (value (promote env p reattachTailTxHash h1)) as [[err | promoted] |];
      unfold value, calls; cbn [fst snd]; reflexivity. }
  split; [apply promote_first_call |].
  split.
  { intros tips prepared ready t0 ts tailTx Hthrough Htail.
    rewrite Hbody, promote_and_emit_run,
      (promote_goes_through env p _ _ _ _ _ _ _ _ Hthrough Htail).
    unfold value, calls. cbn [fst snd]. reflexivity. }
  pose proof (tick_visits env p h before (key, pt) after done Hstore Hbefore) as Htick.
  rewrite !Hh in Htick. exact Htick.
Qed.

Lemma reattachment_not_found_still_promotes_witness :
  Promoter_promote race_world sample_promoter [] =
  (Some tt,
   [CGetPendingTransfers (accID sample_promoter);
    CCheckConsistency tail_A; CGetTransactionsToApprove 3 None;
    CAttachToTangle "TRUNK" "BRANCH" 14 [tail_A];
    CStoreAndBroadcast [race_reattached];
    reattachment_event tail_A (sample_tx (fun _ => 1700000000) tail_A) race_reattached;
    CAddTailHash (accID sample_promoter) tail_A race_reattached;
    CGetTransactionsToApprove 3 (Some race_reattached);
    CPrepareTransfers emptySeed [EmptyTransfer] no_options;
    CAttachToTangle "TRUNK" "BRANCH" 14 [repeat_string "9" 81];
    CStoreAndBroadcast [race_promoted];
    promotion_event tail_A (sample_tx (fun _ => 1700000000) tail_A) race_promoted]).
Proof.
  destruct (reattachment_not_found_still_promotes race_world sample_promoter []
              [] tail_A once_attached [] []
              [CCheckConsistency tail_A]
              (sample_tx (fun _ => 1700000000) tail_A) [] race_reattached
              [CGetTransactionsToApprove 3 None;
               CAttachToTangle "TRUNK" "BRANCH" 14 [tail_A];
               CStoreAndBroadcast [race_reattached]])
    as (_ & _ & Hthrough & Htick).
  - reflexivity.
  - reflexivity.
  - vm_compute. reflexivity.
  - reflexivity.
  - vm_compute. reflexivity.
  - reflexivity.
  - rewrite Htick.
    rewrite (Hthrough sample_tips [repeat_string "9" 81] [race_promoted] race_promoted []
               (sample_tx (fun _ => 1700000000) race_promoted)).
    + vm_compute. reflexivity.
    + vm_compute. repeat split; reflexivity.
    + reflexivity.
Defined.

(** C3 (the claim fails on the code).  In the tick over a store that holds
    one transfer whose only tail is not consistent, and that answers
    [ErrPendingTransferNotFound] to [AddTailHash], the calls that follow the
    [AddTailHash] are a promotion of the reattached tail, from its tip
    selection to the promotion event. *)
Lemma race_tick_promotes_after_not_found :
  store_AddTailHash race_world [] (accID sample_promoter) tail_A race_reattached =
    Some ErrPendingTransferNotFound /\
  exists before,
    calls (Promoter_promote race_world sample_promoter []) =
    before ++
    [CAddTailHash (accID sample_promoter) tail_A race_reattached;
     CGetTransactionsToApprove 3 (Some race_reattached);
     CPrepareTransfers emptySeed [EmptyTransfer] no_options;
     CAttachToTangle "TRUNK" "BRANCH" 14 [repeat_string "9" 81];
     CStoreAndBroadcast [race_promoted];
     promotion_event tail_A (sample_tx (fun _ => 1700000000) tail_A) race_promoted].
Proof.
  split; [reflexivity |].
  exists (take 6 (calls (Promoter_promote race_world sample_promoter []))).
  vm_compute. reflexivity.
Qed.

(** C6.  [promote(tail)] selects tips at the configured depth first and one
    depth deeper each time the node answers that the reference transaction is
    too old.  With a configured depth of at most 15: when the node gives that
    answer at every depth up to 15 (13 attempts from depth 3), the increment
    to 16 exceeds [maxDepth] and the result is [ErrUnpromotableTail]; when
    after [j] such answers the node fails with any other message, that error
    is the result as it is, after [j + 1] attempts. *)
Theorem promote_escalates_depth env p tailTx h (j : nat) :
  0 <= depth p <= 15 ->
  depth p + Z.of_nat j <= 16 ->
  (forall h' k, depth p <= k < depth p + Z.of_nat j ->
     exists e, api_GetTransactionsToApprove env h' k (Some tailTx) = inl e /\
               Error e = referenceTooOldMsg) ->
  (depth p + Z.of_nat j = 16 ->
     promote env p tailTx h =
     (Some (inl ErrUnpromotableTail), gtta_calls tailTx (depth p) j))
  /\
  (forall e, depth p + Z.of_nat j <= 15 ->
     api_GetTransactionsToApprove env (h ++ gtta_calls tailTx (depth p) j)
       (depth p + Z.of_nat j) (Some tailTx) = inl e ->
     Error e <> referenceTooOldMsg ->
     promote env p tailTx h = (Some (inl e), gtta_calls tailTx (depth p) (S j))).
Proof.
  intros Hd Hj Hold. split.
  - intros H16. destruct j as [| j']; [lia |].
    unfold promote.
    replace promote_fuel with (j' + S (17 - j'))%nat by (unfold promote_fuel; lia).
    rewrite (promote_loop_escalates env p tailTx j') by (try lia; intros; apply Hold; lia).
    destruct (Hold (h ++ gtta_calls tailTx (depth p) j') (depth p + Z.of_nat j') ltac:(lia))
      as [e [Hans Hmsg]].
    rewrite (promote_loop_too_old env p _ _ _ _ e Hans Hmsg).
    replace (depth p + Z.of_nat j' + 1) with 16 by lia.
    rewrite gtta_calls_snoc. reflexivity.
  - intros e H15 Hans Hmsg.
    unfold promote.
    replace promote_fuel with (j + S (17 - j))%nat by (unfold promote_fuel; lia).
    rewrite (promote_loop_escalates env p tailTx j) by (try lia; intros; apply Hold; lia).
    rewrite (promote_loop_other_error env p _ _ _ _ e Hans Hmsg).
    rewrite gtta_calls_snoc. reflexivity.
Qed.

Lemma promote_escalates_depth_witness :
  promote stale_world sample_promoter tail_A [] =
    (Some (inl ErrUnpromotableTail), gtta_calls tail_A 3 13) /\
  promote flaky_world sample_promoter tail_A [] =
    (Some (inl (ErrExt "connection refused")), gtta_calls tail_A 3 3).
Proof.
  split.
  - refine (proj1 (promote_escalates_depth stale_world sample_promoter tail_A [] 13 _ _ _) _).
    + simpl. lia.
    + simpl. lia.
    + intros h' k _. exists too_old. split; reflexivity.
    + reflexivity.
  - refine (proj2 (promote_escalates_depth flaky_world sample_promoter tail_A [] 2 _ _ _)
              (ErrExt "connection refused") _ _ _).
    + simpl. lia.
    + simpl. lia.
    + intros h' k Hk. exists too_old. simpl in Hk. simpl.
      destruct (Z.ltb_spec k 5); [split; reflexivity | lia].
    + simpl. lia.
    + reflexivity.
    + discriminate.
Defined.

End PromoterProps.

(* ===================================================================== *)
(** * Properties of the account                                          *)
(* ===================================================================== *)

Module AccountProps.
Import Store World WorldProps Account.
Local Open Scope list_scope.

(** A value of a bind is a value of its continuation. *)
Lemma value_bind_inv {A B} (m : M A) (k : A -> M B) h b :
  value (bind m k h) = Some b -> exists a h', value (k a h') = Some b.
Proof.
  rewrite run_bind. destruct (value (m h)) as [a |]; [| discriminate].
  intros H. exists a. eexists. exact H.
Qed.

(** A bind over an attempt goes on whatever the attempt came to. *)
Lemma run_attempt_bind {A B} (m : M A) (k : option A -> M B) h a l :
  m h = (a, l) ->
  bind (attempt m) k h = (value (k a (h ++ l)), l ++ calls (k a (h ++ l))).
Proof. intros H. rewrite run_bind. unfold attempt. rewrite H. reflexivity. Qed.

Section Selection.
Variable env : Env.

(** The sorting loop panics on a remainder entry without an expected amount,
    wherever the entry stands among the requests. *)
Lemma sort_requests_malformed seed now keyIndex req : forall reqs b,
  In (keyIndex, req) reqs ->
  Deposit.TimeoutAt (Request req) = None ->
  Deposit.ExpectedAmount (Request req) = None ->
  sort_requests env seed now reqs b = None.
Proof.
  induction reqs as [| [k r] rest IH]; intros b Hin Ht Ha; [contradiction |].
  cbn [sort_requests]. destruct Hin as [Heq | Hin].
  - injection Heq as -> ->. rewrite Ht, Ha. reflexivity.
  - destruct (Deposit.TimeoutAt (Request r)) as [timeoutAt |].
    + destruct (Time_After now (ptr_val timeoutAt)); [apply IH; assumption |].
      destruct (Deposit.MultiUse (Request r)); [| apply IH; assumption].
      destruct (Deposit.ExpectedAmount (Request r)); apply IH; assumption.
    + destruct (Deposit.ExpectedAmount (Request r)); [apply IH; assumption | reflexivity].
Qed.

End Selection.

(** C4.  With [balanceCheck = true] whatever [defaultInputSelection] returns
    has no inputs and no indices to remove, whatever the store and the node
    hold; and when the store has no deposit request for the account the
    function returns [(0, nil, nil, nil)] under [balanceCheck] and
    [ErrInsufficientBalance] otherwise, after the one store call. *)
Theorem balance_check_selects_nothing env acc transferValue h :
  (forall sum ins rem err,
     value (defaultInputSelection env acc transferValue true h) = Some (sum, ins, rem, err) ->
     ins = [] /\ rem = []) /\
  (forall balanceCheck,
     store_GetDepositRequests env h (id acc) = inr [] ->
     defaultInputSelection env acc transferValue balanceCheck h =
     (Some (0, [], [], if balanceCheck then None else Some ErrInsufficientBalance),
      [CGetDepositRequests (id acc)])).
Proof.
  split.
  - intros sum ins rem err H. unfold defaultInputSelection in H.
    repeat
      match type of H with
      | value (ret _ _) = Some _ => injection H as <- <- <- <-; split; reflexivity
      | value (panic _) = Some _ => discriminate H
      | value (bind _ _ _) = Some _ =>
          let a := fresh "a" in let h' := fresh "h'" in
          apply value_bind_inv in H; destruct H as (a & h' & H)
      | value ((match ?x with _ => _ end) _) = Some _ => destruct x
      | value ((if ?x then _ else _) _) = Some _ => destruct x
      end.
  - intros balanceCheck Hreqs. unfold defaultInputSelection, GetDepositRequests.
    rewrite run_call_bind, Hreqs. destruct balanceCheck; reflexivity.
Qed.

Lemma balance_check_selects_nothing_witness :
  defaultInputSelection funded_world sample_account 0 true [] =
    (Some (150, [], [], None),
     [CGetDepositRequests (id sample_account); CGetLatestSolidSubtangleMilestone; CTime; CSeed;
      CGetBalances ["ADDR1" +:+ repeat_string "9" 85; "ADDR2" +:+ repeat_string "9" 85]
        100 "MILESTONE"]) /\
  defaultInputSelection empty_world sample_account 120 true [] =
    (Some (0, [], [], None), [CGetDepositRequests (id sample_account)]) /\
  defaultInputSelection empty_world sample_account 120 false [] =
    (Some (0, [], [], Some ErrInsufficientBalance), [CGetDepositRequests (id sample_account)]).
Proof.
  split; [vm_compute; reflexivity |].
  split.
  - apply (proj2 (balance_check_selects_nothing empty_world sample_account 120 []) true).
    reflexivity.
  - apply (proj2 (balance_check_selects_nothing empty_world sample_account 120 []) false).
    reflexivity.
Defined.

(** C10.  When the store hands back deposit requests among which one has
    neither a timeout nor an expected amount, and the milestone, the time and
    the seed are there, [defaultInputSelection] panics: it returns nothing,
    no error either, and has made no call after the one for the seed. *)
Theorem malformed_remainder_panics
    env acc transferValue balanceCheck h reqs keyIndex req subtangleHash now seed :
  store_GetDepositRequests env h (id acc) = inr reqs ->
  In (keyIndex, req) reqs ->
  Deposit.TimeoutAt (Request req) = None ->
  Deposit.ExpectedAmount (Request req) = None ->
  api_GetLatestSolidSubtangleMilestone env (h ++ [CGetDepositRequests (id acc)])
    = inr subtangleHash ->
  timesrc_Time env (h ++ [CGetDepositRequests (id acc); CGetLatestSolidSubtangleMilestone])
    = inr now ->
  prov_Seed env (h ++ [CGetDepositRequests (id acc); CGetLatestSolidSubtangleMilestone; CTime])
    = inr seed ->
  defaultInputSelection env acc transferValue balanceCheck h =
  (None, [CGetDepositRequests (id acc); CGetLatestSolidSubtangleMilestone; CTime; CSeed]).
Proof.
  intros Hreqs Hin Ht Ha Hms Htime Hseed.
  unfold defaultInputSelection, GetDepositRequests, GetLatestSolidSubtangleMilestone,
    Time_, Seed.
  rewrite run_call_bind, Hreqs.
  destruct reqs as [| r0 rest]; [contradiction |].
  rewrite run_call_bind, Hms.
  rewrite <- app_assoc. cbn [app].
  rewrite run_call_bind, Htime.
  rewrite <- app_assoc. cbn [app].
  rewrite run_call_bind, Hseed.
  rewrite (sort_requests_malformed env seed now keyIndex req (r0 :: rest) no_buckets Hin Ht Ha).
  reflexivity.
Qed.

Lemma malformed_remainder_panics_witness :
  defaultInputSelection malformed_world sample_account 120 false [] =
  (None, [CGetDepositRequests (id sample_account); CGetLatestSolidSubtangleMilestone;
          CTime; CSeed]).
Proof.
  apply (malformed_remainder_panics malformed_world sample_account 120 false []
           [(1, request_until 1700003600 100); (3, malformed_remainder);
            (2, request_until 1700003600 50)]
           3 malformed_remainder "MILESTONE" (time_Unix 1700000000 0) (repeat_string "S" 81)).
  - reflexivity.
  - right. left. reflexivity.
  - reflexivity.
  - reflexivity.
  - reflexivity.
  - reflexivity.
  - reflexivity.
Defined.

Section Commit.
Variable env : Env.

(** The second half of [send] when everything up to the commit goes through
    and the broadcast is refused. *)
Lemma prepare_and_commit_broadcast_refused
    acc seed transfers currentTime l h bundleTrytes tips t0 ts tailTx e :
  (forall h', api_PrepareTransfers env h' seed transfers (send_options currentTime l)
              = inr bundleTrytes) ->
  (forall h', api_GetTransactionsToApprove env h' (Depth (setts acc)) None = inr tips) ->
  (forall h', api_AttachToTangle env h' (TrunkTransaction tips) (BranchTransaction tips)
                (MWM (setts acc)) bundleTrytes = inr (t0 :: ts)) ->
  AsTransactionObject env t0 = inr tailTx ->
  (forall h', store_AddPendingTransfer env h' (id acc) (tx_Hash tailTx) (t0 :: ts)
                (l_forRemoval l) = None) ->
  (forall h', api_StoreAndBroadcast env h' (t0 :: ts) = inl e) ->
  prepare_and_commit env acc seed transfers currentTime l h =
  (Some (true, inl (ErrWrap e "unable to store/broadcast bundle in send op.")),
   [CPrepareTransfers seed transfers (send_options currentTime l);
    CGetTransactionsToApprove (Depth (setts acc)) None;
    CAttachToTangle (TrunkTransaction tips) (BranchTransaction tips) (MWM (setts acc))
      bundleTrytes;
    CAddPendingTransfer (id acc) (tx_Hash tailTx) (t0 :: ts) (l_forRemoval l);
    CStoreAndBroadcast (t0 :: ts)]).
Proof.
  intros Hprep Htips Hpow Htail Hcommit Hbroadcast.
  unfold prepare_and_commit, PrepareTransfers, GetTransactionsToApprove, AttachToTangle,
    AddPendingTransfer, StoreAndBroadcast.
  fold (send_options currentTime l).
  rewrite run_call_bind, Hprep.
  rewrite run_call_bind, Htips.
  rewrite run_call_bind, Hpow.
  unfold index. cbn [lookup list_lookup]. rewrite run_ret_bind, Htail.
  rewrite run_call_bind, Hcommit.
  rewrite run_call_bind, Hbroadcast.
  reflexivity.
Qed.

End Commit.

(** C5.  When the seed, the time, the input selection with the allocation of
    the remainder address, the preparation, the tip selection, the proof of
    work and the [AddPendingTransfer] commit all go through and
    [StoreAndBroadcast] then fails, [send] returns that error (wrapped), and
    the calls it has made end with the commit and the refused broadcast: the
    deferred function makes no call, so nothing takes the pending transfer or
    the remainder deposit request out of the store. *)
Theorem broadcast_failure_after_commit
    env strat a_remainder acc targets h seed currentTime l acc' selected
    bundleTrytes tips t0 ts tailTx e :
  (forall h', prov_Seed env h' = inr seed) ->
  (forall h', timesrc_Time env h' = inr currentTime) ->
  select_inputs env strat a_remainder acc (Recipients_Sum targets) (h ++ [CSeed; CTime])
    = (Some (inr l, acc'), selected) ->
  (forall h', api_PrepareTransfers env h' seed targets (send_options currentTime l)
              = inr bundleTrytes) ->
  (forall h', api_GetTransactionsToApprove env h' (Depth (setts acc')) None = inr tips) ->
  (forall h', api_AttachToTangle env h' (TrunkTransaction tips) (BranchTransaction tips)
                (MWM (setts acc')) bundleTrytes = inr (t0 :: ts)) ->
  AsTransactionObject env t0 = inr tailTx ->
  (forall h', store_AddPendingTransfer env h' (id acc') (tx_Hash tailTx) (t0 :: ts)
                (l_forRemoval l) = None) ->
  (forall h', api_StoreAndBroadcast env h' (t0 :: ts) = inl e) ->
  send env strat a_remainder acc targets h =
  (Some (inl (ErrWrap e "unable to store/broadcast bundle in send op."), acc'),
   [CSeed; CTime] ++ selected ++
   [CPrepareTransfers seed targets (send_options currentTime l);
    CGetTransactionsToApprove (Depth (setts acc')) None;
    CAttachToTangle (TrunkTransaction tips) (BranchTransaction tips) (MWM (setts acc'))
      bundleTrytes;
    CAddPendingTransfer (id acc') (tx_Hash tailTx) (t0 :: ts) (l_forRemoval l);
    CStoreAndBroadcast (t0 :: ts)]).
Proof.
  intros Hseed Htime Hsel Hprep Htips Hpow Htail Hcommit Hbroadcast.
  unfold send, Seed, Time_.
  rewrite run_call_bind, Hseed.
  rewrite run_call_bind, Htime.
  rewrite <- app_assoc. cbn [app].
  rewrite (run_bind_value _ _ _ _ _ Hsel).
  rewrite (run_attempt_bind _ _ _ _ _
             (prepare_and_commit_broadcast_refused env acc' seed targets currentTime l _
                bundleTrytes tips t0 ts tailTx e Hprep Htips Hpow Htail Hcommit Hbroadcast)).
  assert (Hclean : forall h', cleanup env acc' seed (l_remainderAddress l) true h' = (Some tt, [])).
  { intros h'. unfold cleanup. destruct (l_remainderAddress l); reflexivity. }
  rewrite (run_bind_value _ _ _ _ _ (Hclean _)).
  unfold value, calls. cbn [fst snd app ret]. reflexivity.
Qed.

Lemma broadcast_failure_after_commit_witness :
  value (send no_broadcast_world (defaultInputSelection no_broadcast_world) 824633900000
           sample_account sample_targets []) =
    Some (inl (ErrWrap unreachable "unable to store/broadcast bundle in send op."),
          set_lastKeyIndex 3 sample_account) /\
  forallb (fun c => negb (is_removal c))
    (calls (send no_broadcast_world (defaultInputSelection no_broadcast_world) 824633900000
              sample_account sample_targets [])) = true /\
  exists before,
    calls (send no_broadcast_world (defaultInputSelection no_broadcast_world) 824633900000
             sample_account sample_targets []) =
    before ++
    [CAddDepositRequest (id sample_account) 3
       {| Store.SecurityLevel := 2;
          Request := {| Deposit.TimeoutAt := None; Deposit.MultiUse := false;
                        Deposit.ExpectedAmount := Some (Ptr 824633900000 30) |} |};
     CPrepareTransfers (repeat_string "S" 81) sample_targets
       {| Inputs := [ {| in_Address := "ADDR1" +:+ repeat_string "9" 85; in_KeyIndex := 1;
                         in_Security := 2; in_Balance := 100 |};
                      {| in_Address := "ADDR2" +:+ repeat_string "9" 85; in_KeyIndex := 2;
                         in_Security := 2; in_Balance := 50 |} ];
          RemainderAddress := Some ("ADDR3" +:+ repeat_string "9" 85);
          Timestamp := Some 1700000000 |};
     CGetTransactionsToApprove 3 None;
     CAttachToTangle "TRUNK" "BRANCH" 14 (map tr_Address sample_targets);
     CAddPendingTransfer (id sample_account)
       (String "N" (repeat_string "R" 81 +:+ repeat_string "9" 9))
       [String "N" (repeat_string "R" 81 +:+ repeat_string "9" 9)] [1; 2];
     CStoreAndBroadcast [String "N" (repeat_string "R" 81 +:+ repeat_string "9" 9)]].
Proof.
  pose proof
    (broadcast_failure_after_commit no_broadcast_world
       (defaultInputSelection no_broadcast_world) 824633900000 sample_account sample_targets []
       (repeat_string "S" 81) (time_Unix 1700000000 0)
       {| l_inputs := [ {| in_Address := "ADDR1" +:+ repeat_string "9" 85; in_KeyIndex := 1;
                           in_Security := 2; in_Balance := 100 |};
                        {| in_Address := "ADDR2" +:+ repeat_string "9" 85; in_KeyIndex := 2;
                           in_Security := 2; in_Balance := 50 |} ];
          l_forRemoval := [1; 2];
          l_remainderAddress := Some ("ADDR3" +:+ repeat_string "9" 85) |}
       (set_lastKeyIndex 3 sample_account)
       (calls (select_inputs no_broadcast_world (defaultInputSelection no_broadcast_world)
                 824633900000 sample_account 120 [CSeed; CTime]))
       (map tr_Address sample_targets) sample_tips
       (String "N" (repeat_string "R" 81 +:+ repeat_string "9" 9)) []
       (sample_tx (fun _ => 1700000000)
          (String "N" (repeat_string "R" 81 +:+ repeat_string "9" 9)))
       unreachable) as Hrun.
  rewrite Hrun.
  - split; [reflexivity |]. split; [vm_compute; reflexivity |].
    exists (take 9 (calls (send no_broadcast_world (defaultInputSelection no_broadcast_world)
                             824633900000 sample_account sample_targets []))).
    vm_compute. reflexivity.
  - intros; reflexivity.
  - intros; reflexivity.
  - vm_compute. reflexivity.
  - intros; reflexivity.
  - intros; reflexivity.
  - intros; reflexivity.
  - reflexivity.
  - intros; reflexivity.
  - intros; reflexivity.
Defined.

End AccountProps.

(* ===================================================================== *)
(** * More properties of the MongoDB store                               *)
(* ===================================================================== *)

Module MongoMore.
Import Store Mongo.

(** Key indices print to different decimal texts. *)
Lemma FormatUint_inj n m : 0 <= n -> 0 <= m -> FormatUint n = FormatUint m -> n = m.
Proof.
  intros Hn Hm H. unfold FormatUint in H.
  assert (Hnil : forall k, N.to_uint k <> Decimal.Nil).
  { intros k. destruct k as [| q]; [discriminate |].
    unfold N.to_uint. intros Hq.
    pose proof (DecimalPos.Unsigned.to_uint_nonnil q). contradiction. }
  pose proof (NilZero.usu _ (Hnil (Z.to_N n))) as H1.
  pose proof (NilZero.usu _ (Hnil (Z.to_N m))) as H2.
  rewrite H in H1. rewrite H1 in H2. injection H2 as H2.
  apply DecimalN.Unsigned.to_uint_inj in H2. lia.
Qed.

Section Commit.
Variable compress : list Trytes -> list (list Z).

Lemma unset_indices_lookup indices (m : gmap string StoredDepositRequest) k :
  unset_indices indices m !! k =
  if existsb (fun i => String.eqb (FormatUint i) k) indices then None else m !! k.
Proof.
  induction indices as [| i rest IH]; [reflexivity |].
  cbn [unset_indices foldr existsb]. fold (unset_indices rest m).
  rewrite lookup_delete. case_decide as Hk.
  - subst. rewrite String.eqb_refl. reflexivity.
  - destruct (String.eqb_spec (FormatUint i) k); [contradiction |]. exact IH.
Qed.

(** [AddPendingTransfer] on an account that is in the store, with the driver
    going through: in the one update the transfer is stored under its origin
    tail with that tail as its only tail, every named deposit request is
    gone, every other deposit request, every other pending transfer and the
    key index are as before, and no other account is touched. *)
Theorem AddPendingTransfer_commits_in_one_update coll id doc origin trytes indices :
  coll !! id = Some doc ->
  fst (AddPendingTransfer compress None coll id origin trytes indices) = None /\
  exists doc',
    snd (AddPendingTransfer compress None coll id origin trytes indices) = <[id := doc']> coll /\
    PendingTransfers doc' !! origin =
      Some {| Bundle := compress trytes; Tails := [origin] |} /\
    (forall i, In i indices -> DepositRequests doc' !! FormatUint i = None) /\
    (forall k, (forall i, In i indices -> FormatUint i <> k) ->
               DepositRequests doc' !! k = DepositRequests doc !! k) /\
    (forall k, k <> origin -> PendingTransfers doc' !! k = PendingTransfers doc !! k) /\
    KeyIndex doc' = KeyIndex doc.
Proof.
  intros Hdoc. unfold AddPendingTransfer, UpdateOne. rewrite Hdoc. cbn [any_doc fst snd err_of].
  split; [reflexivity |]. eexists. split; [reflexivity |].
  assert (Hex : forall k, existsb (fun i => String.eqb (FormatUint i) k) indices = true <->
                          exists i, In i indices /\ FormatUint i = k).
  { intros k. rewrite existsb_exists. split; intros [i [Hi He]]; exists i; split; auto.
    - apply String.eqb_eq. exact He.
    - apply String.eqb_eq. exact He. }
  destruct indices as [| i0 rest].
  - cbn. rewrite lookup_insert_eq. repeat split; try reflexivity.
    + intros i [].
    + intros k Hk. rewrite lookup_insert_ne by congruence. reflexivity.
  - cbn [map_DepositRequests map_PendingTransfers DepositRequests PendingTransfers KeyIndex].
    rewrite lookup_insert_eq. repeat split; try reflexivity.
    + intros i Hi. rewrite unset_indices_lookup.
      destruct (existsb _ _) eqn:He; [reflexivity |].
      assert (Ht : existsb (fun j => String.eqb (FormatUint j) (FormatUint i)) (i0 :: rest) = true).
      { apply Hex. exists i. auto. }
      congruence.
    + intros k Hk. rewrite unset_indices_lookup.
      destruct (existsb _ _) eqn:He; [| reflexivity].
      apply Hex in He. destruct He as [i [Hi He]]. exfalso. exact (Hk i Hi He).
    + intros k Hk. rewrite lookup_insert_ne by congruence. reflexivity.
Qed.

End Commit.

Lemma AddPendingTransfer_commits_in_one_update_witness :
  exists doc doc',
    sample_fresh !! sample_id = Some doc /\
    snd (AddPendingTransfer sample_compress None sample_fresh sample_id tail_A ["TX0"] [1; 2])
      = <[sample_id := doc']> sample_fresh /\
    Tails <$> PendingTransfers doc' !! tail_A = Some [tail_A] /\
    DepositRequests doc' !! "1" = None.
Proof.
  assert (Hdoc : sample_fresh !! sample_id =
                 Some {| ID := sample_id; KeyIndex := 0;
                         DepositRequests := ∅; PendingTransfers := ∅ |}).
  { vm_compute. reflexivity. }
  destruct (AddPendingTransfer_commits_in_one_update sample_compress sample_fresh sample_id
              {| ID := sample_id; KeyIndex := 0;
                 DepositRequests := ∅; PendingTransfers := ∅ |} tail_A ["TX0"] [1; 2] Hdoc) as [_ [doc' [Hcoll [Hpt [Hgone _]]]]].
  eexists. exists doc'. split; [exact Hdoc |]. split; [exact Hcoll |].
  split; [rewrite Hpt; reflexivity |].
  apply (Hgone 1). left. reflexivity.
Defined.

(** [AddDepositRequest] writes the entry of its key index and no other: the
    store afterwards has a deposit request under that index, with the
    security level and the multi-use flag of the request, and hands back the
    same entry as before under every other key index. *)
Theorem AddDepositRequest_writes_that_index coll id doc index req :
  coll !! id = Some doc -> 0 <= index ->
  fst (AddDepositRequest None coll id index req) = None /\
  exists reqs,
    GetDepositRequests None (snd (AddDepositRequest None coll id index req)) id = inr reqs /\
    SecurityLevel <$> reqs !! FormatUint index = Some (SecurityLevel req) /\
    (fun r => Deposit.MultiUse (Request r)) <$> reqs !! FormatUint index
      = Some (Deposit.MultiUse (Request req)) /\
    (forall j, 0 <= j -> j <> index ->
               reqs !! FormatUint j = DepositRequests doc !! FormatUint j).
Proof.
  intros Hdoc Hidx. unfold AddDepositRequest, GetDepositRequests, UpdateOne, FindOne.
  rewrite Hdoc. cbn [any_doc fst snd err_of]. split; [reflexivity |].
  rewrite lookup_insert_eq. eexists. split; [reflexivity |].
  cbn [map_DepositRequests DepositRequests].
  split; [rewrite lookup_insert_eq; reflexivity |].
  split; [rewrite lookup_insert_eq; reflexivity |].
  intros j Hj Hne. apply lookup_insert_ne.
  intros Heq. apply Hne. symmetry. apply FormatUint_inj; assumption.
Qed.

Lemma AddDepositRequest_writes_that_index_witness :
  exists reqs,
    GetDepositRequests None
      (snd (AddDepositRequest None sample_fresh sample_id 7
              {| SecurityLevel := 2;
                 Request := {| Deposit.TimeoutAt := None; Deposit.MultiUse := false;
                               Deposit.ExpectedAmount := Some (Ptr 824633900000 30) |} |}))
      sample_id = inr reqs /\
    SecurityLevel <$> reqs !! "7" = Some 2 /\
    reqs !! "8" = None.
Proof.
  assert (Hdoc : sample_fresh !! sample_id =
                 Some {| ID := sample_id; KeyIndex := 0;
                         DepositRequests := ∅; PendingTransfers := ∅ |}).
  { vm_compute. reflexivity. }
  destruct (AddDepositRequest_writes_that_index sample_fresh sample_id
              {| ID := sample_id; KeyIndex := 0;
                 DepositRequests := ∅; PendingTransfers := ∅ |} 7
              {| SecurityLevel := 2;
                 Request := {| Deposit.TimeoutAt := None; Deposit.MultiUse := false;
                               Deposit.ExpectedAmount := Some (Ptr 824633900000 30) |} |}
              Hdoc ltac:(lia)) as [_ [reqs [Hget [Hlevel [_ Hothers]]]]].
  exists reqs. split; [exact Hget |]. split.
  - change "7" with (FormatUint 7). exact Hlevel.
  - change "8" with (FormatUint 8). rewrite (Hothers 8) by lia. reflexivity.
Defined.

(** Removing a deposit request takes out the request of that key index and
    no other. *)
Theorem RemoveDepositRequest_removes_that_index coll id doc index :
  coll !! id = Some doc -> 0 <= index ->
  exists reqs,
    GetDepositRequests None (snd (RemoveDepositRequest None coll id index)) id = inr reqs /\
    reqs !! FormatUint index = None /\
    (forall j, 0 <= j -> j <> index ->
               reqs !! FormatUint j = DepositRequests doc !! FormatUint j).
Proof.
  intros Hdoc Hidx. unfold RemoveDepositRequest, GetDepositRequests, UpdateOne, FindOne.
  rewrite Hdoc. cbn [any_doc fst snd err_of].
  rewrite lookup_insert_eq. eexists. split; [reflexivity |].
  cbn [map_DepositRequests DepositRequests]. split.
  - apply lookup_delete_eq.
  - intros j Hj Hne. apply lookup_delete_ne.
    intros Heq. apply Hne. symmetry. apply FormatUint_inj; assumption.
Qed.

Lemma RemoveDepositRequest_removes_that_index_witness :
  exists reqs,
    GetDepositRequests None
      (snd (RemoveDepositRequest None
              (snd (AddDepositRequest None sample_fresh sample_id 7
                      {| SecurityLevel := 2;
                         Request := {| Deposit.TimeoutAt := None; Deposit.MultiUse := false;
                                       Deposit.ExpectedAmount := None |} |}))
              sample_id 7))
      sample_id = inr reqs /\
    reqs !! "7" = None.
Proof.
  edestruct RemoveDepositRequest_removes_that_index
    with (coll := snd (AddDepositRequest None sample_fresh sample_id 7
                         {| SecurityLevel := 2;
                            Request := {| Deposit.TimeoutAt := None; Deposit.MultiUse := false;
                                          Deposit.ExpectedAmount := None |} |}))
         (id := sample_id) (index := 7) as [reqs [Hget [Hgone _]]].
  - vm_compute. reflexivity.
  - lia.
  - exists reqs. split; [exact Hget |]. exact Hgone.
Defined.

(** Once a pending transfer is removed, a late [AddTailHash] for it changes
    nothing: the record stays out of the store. *)
Theorem RemovePendingTransfer_then_AddTailHash fault coll id origin newTail :
  AddTailHash fault (snd (RemovePendingTransfer None coll id origin)) id origin newTail =
    (fault, snd (RemovePendingTransfer None coll id origin)) /\
  (forall doc, snd (RemovePendingTransfer None coll id origin) !! id = Some doc ->
               PendingTransfers doc !! origin = None).
Proof.
  assert (Hgone : forall doc, snd (RemovePendingTransfer None coll id origin) !! id = Some doc ->
                              PendingTransfers doc !! origin = None).
  { unfold RemovePendingTransfer, UpdateOne.
    destruct (coll !! id) as [d |] eqn:Hd; cbn [any_doc snd]; intros doc Hdoc.
    - rewrite lookup_insert_eq in Hdoc. injection Hdoc as <-.
      cbn [map_PendingTransfers PendingTransfers]. apply lookup_delete_eq.
    - congruence. }
  split; [| exact Hgone].
  unfold AddTailHash, UpdateOne, has_pending.
  destruct fault; [reflexivity |].
  destruct (snd (RemovePendingTransfer None coll id origin) !! id) as [doc |] eqn:Hdoc;
    [| reflexivity].
  rewrite (Hgone doc eq_refl). reflexivity.
Qed.

(** [LoadAccount] creates the document of an unknown account, empty and with
    key index 0, and a second [LoadAccount] finds that document and leaves
    the collection alone. *)
Theorem LoadAccount_creates_once coll id :
  coll !! id = None ->
  LoadAccount None None coll id =
    (inr NewAccountState,
     <[id := {| ID := id; KeyIndex := 0; DepositRequests := ∅; PendingTransfers := ∅ |}]> coll) /\
  forall f2,
    LoadAccount None f2 (snd (LoadAccount None None coll id)) id =
    (inr {| ID := id; KeyIndex := 0; DepositRequests := ∅; PendingTransfers := ∅ |},
     snd (LoadAccount None None coll id)).
Proof.
  intros Hnone.
  assert (H1 : LoadAccount None None coll id =
               (inr NewAccountState,
                <[id := {| ID := id; KeyIndex := 0; DepositRequests := ∅;
                           PendingTransfers := ∅ |}]> coll)).
  { unfold LoadAccount, FindOne, InsertOne. rewrite Hnone. cbn [error_eqb ID].
    rewrite Hnone. reflexivity. }
  split; [exact H1 |]. intros f2. rewrite H1. cbn [snd].
  unfold LoadAccount, FindOne. rewrite lookup_insert_eq. reflexivity.
Qed.

Lemma LoadAccount_creates_once_witness :
  LoadAccount None None (∅ : gmap string accountstate) sample_id =
    (inr NewAccountState, sample_fresh) /\
  KeyIndex <$> sample_fresh !! sample_id = Some 0.
Proof.
  split.
  - exact (proj1 (LoadAccount_creates_once ∅ sample_id (lookup_empty _))).
  - vm_compute. reflexivity.
Defined.

(** [RemoveAccount] reports an unknown account with [ErrAccountNotFound] and
    otherwise deletes the document, pending transfers and deposit requests
    included. *)
Theorem RemoveAccount_reports_unknown_account coll id :
  RemoveAccount None coll id =
  (match coll !! id with
   | Some _ => None
   | None => Some ErrAccountNotFound
   end, delete id coll).
Proof.
  unfold RemoveAccount, DeleteOne. destruct (coll !! id) eqn:Hid; cbn.
  - reflexivity.
  - rewrite delete_id by exact Hid. reflexivity.
Qed.

(** The key index read back is the last one written, whatever was there
    before: the store does not keep the index from going down. *)
Theorem WriteIndex_then_ReadIndex coll id doc index :
  coll !! id = Some doc ->
  WriteIndex None coll id index = (None, <[id := set_KeyIndex index doc]> coll) /\
  ReadIndex None (snd (WriteIndex None coll id index)) id = inr index.
Proof.
  intros Hdoc. unfold WriteIndex, ReadIndex, UpdateOne, FindOne. rewrite Hdoc.
  cbn [any_doc fst snd err_of]. split; [reflexivity |].
  rewrite lookup_insert_eq. reflexivity.
Qed.

Lemma WriteIndex_then_ReadIndex_witness :
  ReadIndex None (snd (WriteIndex None (snd (WriteIndex None sample_fresh sample_id 9))
                         sample_id 4)) sample_id = inr 4.
Proof.
  refine (proj2 (WriteIndex_then_ReadIndex (snd (WriteIndex None sample_fresh sample_id 9))
                   sample_id _ 4 _)).
  vm_compute. reflexivity.
Defined.

Lemma addToSet_idem x l : addToSet x (addToSet x l) = addToSet x l.
Proof.
  unfold addToSet. destruct (existsb (String.eqb x) l) eqn:Hin.
  - rewrite Hin. reflexivity.
  - rewrite existsb_app. cbn [existsb]. rewrite String.eqb_refl.
    rewrite orb_true_r. reflexivity.
Qed.

(** Adding the same tail hash twice is adding it once. *)
Theorem AddTailHash_twice coll id origin newTail :
  snd (AddTailHash None (snd (AddTailHash None coll id origin newTail)) id origin newTail)
  = snd (AddTailHash None coll id origin newTail).
Proof.
  unfold AddTailHash, UpdateOne, has_pending.
  destruct (coll !! id) as [doc |] eqn:Hdoc; cbn [snd]; [| rewrite Hdoc; reflexivity].
  destruct (PendingTransfers doc !! origin) as [pt |] eqn:Hpt; cbn [snd];
    [| rewrite Hdoc, Hpt; reflexivity].
  rewrite lookup_insert_eq. cbn [map_PendingTransfers PendingTransfers].
  rewrite lookup_alter_eq, Hpt. cbn [fmap option_fmap option_map snd].
  rewrite insert_insert_eq. f_equal.
  unfold map_PendingTransfers. cbn [ID KeyIndex DepositRequests PendingTransfers]. f_equal.
  apply map_eq. intros k. rewrite !lookup_alter.
  destruct (decide (origin = k)) as [<- | Hne].
  - rewrite !decide_True by reflexivity. unfold Hash in *. rewrite Hpt.
    cbn [fmap option_fmap option_map].
    unfold addToSet_tails. cbn [Bundle Tails].
    rewrite addToSet_idem. reflexivity.
  - rewrite !decide_False by assumption. reflexivity.
Qed.

(** No store method creates the document of an account: on an account that
    is not in the collection every update reports success and changes
    nothing. *)
Theorem updates_of_unknown_account_are_dropped
    compress coll id index req origin trytes indices newTail :
  coll !! id = None ->
  WriteIndex None coll id index = (None, coll) /\
  AddDepositRequest None coll id index req = (None, coll) /\
  RemoveDepositRequest None coll id index = (None, coll) /\
  AddPendingTransfer compress None coll id origin trytes indices = (None, coll) /\
  RemovePendingTransfer None coll id origin = (None, coll) /\
  AddTailHash None coll id origin newTail = (None, coll).
Proof.
  intros Hnone.
  unfold WriteIndex, AddDepositRequest, RemoveDepositRequest, AddPendingTransfer,
    RemovePendingTransfer, AddTailHash, UpdateOne.
  rewrite Hnone. repeat split; reflexivity.
Qed.

Lemma updates_of_unknown_account_are_dropped_witness :
  AddPendingTransfer sample_compress None (∅ : gmap string accountstate) sample_id tail_A
    ["TX0"] [1] = (None, ∅) /\
  GetPendingTransfers None (∅ : gmap string accountstate) sample_id = inl ErrNoDocuments.
Proof.
  split; [| reflexivity].
  refine (proj1 (proj2 (proj2 (proj2
            (updates_of_unknown_account_are_dropped sample_compress ∅ sample_id 0
               {| SecurityLevel := 2;
                  Request := {| Deposit.TimeoutAt := None; Deposit.MultiUse := false;
                                Deposit.ExpectedAmount := None |} |}
               tail_A ["TX0"] [1] tail_B _))))).
  apply lookup_empty.
Defined.

(** When the driver fails a round trip the method returns the driver's error
    and the collection is as it was. *)
Theorem driver_fault_changes_nothing
    compress e coll id index req origin trytes indices newTail :
  RemoveAccount (Some e) coll id = (Some e, coll) /\
  WriteIndex (Some e) coll id index = (Some e, coll) /\
  AddDepositRequest (Some e) coll id index req = (Some e, coll) /\
  RemoveDepositRequest (Some e) coll id index = (Some e, coll) /\
  AddPendingTransfer compress (Some e) coll id origin trytes indices = (Some e, coll) /\
  RemovePendingTransfer (Some e) coll id origin = (Some e, coll) /\
  AddTailHash (Some e) coll id origin newTail = (Some e, coll).
Proof. repeat split; reflexivity. Qed.

Lemma RemovePendingTransfer_then_AddTailHash_witness :
  exists doc,
    snd (RemovePendingTransfer None
           (snd (AddPendingTransfer sample_compress None sample_fresh sample_id tail_A ["TX0"] []))
           sample_id tail_A) !! sample_id = Some doc /\
    PendingTransfers doc !! tail_A = None.
Proof.
  eexists. split; [vm_compute; reflexivity |].
  apply (proj2 (RemovePendingTransfer_then_AddTailHash None
                  (snd (AddPendingTransfer sample_compress None sample_fresh sample_id tail_A
                          ["TX0"] []))
                  sample_id tail_A tail_B)).
  vm_compute. reflexivity.
Defined.

End MongoMore.

(* ===================================================================== *)
(** * More properties of the sync-interval timer                         *)
(* ===================================================================== *)

Module TimerMore.
Import Timer.

Lemma step_fires_once sit s ev s' :
  step sit s ev = Some s' ->
  (fired s = false -> calls s = 0%nat) -> (calls s <= 1)%nat ->
  (fired s' = false -> calls s' = 0%nat) /\ (calls s' <= 1)%nat.
Proof.
  unfold step. intros Hstep Hf Hc.
  destruct (intervalTimer sit);
    destruct (at_loc s), ev; try discriminate;
    try (injection Hstep as <-; cbn; auto; fail).
  destruct (fired s) eqn:Hfired; [discriminate |].
  injection Hstep as <-. rewrite (Hf eq_refl).
  destruct stopWaiting; cbn; split; (discriminate || lia).
Qed.

Lemma run_fires_once sit evs : forall s s',
  run sit s evs = Some s' ->
  (fired s = false -> calls s = 0%nat) -> (calls s <= 1)%nat ->
  (calls s' <= 1)%nat.
Proof.
  induction evs as [| ev rest IH]; intros s s' Hrun Hf Hc; cbn [run] in Hrun.
  - injection Hrun as <-. exact Hc.
  - destruct (step sit s ev) as [s1 |] eqn:Hstep; [| discriminate].
    destruct (step_fires_once sit s ev s1 Hstep Hf Hc) as [Hf1 Hc1].
    exact (IH s1 s' Hrun Hf1 Hc1).
Qed.

(** The interval timer is a [time.Timer] that is never reset: whatever the
    interval and the schedule, the loop of [Start] calls the function at most
    once. *)
Theorem interval_timer_calls_f_at_most_once interval f onError evs s :
  Start (NewSyncIntervalTimer interval f onError) evs = Some s -> (calls s <= 1)%nat.
Proof.
  intros Hrun. unfold Start in Hrun.
  apply (run_fires_once _ _ _ _ Hrun); cbn; auto.
Qed.

Lemma interval_timer_calls_f_at_most_once_witness :
  (calls <$> Start (NewSyncIntervalTimer (30 * Second) sample_f true)
               [EvTick false; EvPause; EvResume; EvShutdown]) = Some 1%nat /\
  Start (NewSyncIntervalTimer (30 * Second) sample_f true) [EvTick false; EvTick false] = None.
Proof.
  split; [| reflexivity].
  destruct (Start (NewSyncIntervalTimer (30 * Second) sample_f true)
              [EvTick false; EvPause; EvResume; EvShutdown]) as [s |] eqn:Hs;
    [| discriminate].
  pose proof (interval_timer_calls_f_at_most_once _ _ _ _ _ Hs) as Hle.
  vm_compute in Hs. injection Hs as <-. reflexivity.
Defined.

Lemma run_app sit evs1 : forall evs2 s,
  run sit s (evs1 ++ evs2) =
  match run sit s evs1 with
  | Some s1 => run sit s1 evs2
  | None => None
  end.
Proof.
  induction evs1 as [| ev rest IH]; intros evs2 s; cbn [run app]; [reflexivity |].
  destruct (step sit s ev); [apply IH | reflexivity].
Qed.

(** The pause is a rendezvous and the stop is final: in every schedule the
    loop can follow, what comes right after a pause is its resume (no tick
    and no stop gets in between), and nothing comes after a stop. *)
Theorem pause_holds_the_loop_and_stop_ends_it sit evs1 evs2 s :
  (forall ev, Start sit (evs1 ++ EvPause :: ev :: evs2) = Some s -> ev = EvResume) /\
  (Start sit (evs1 ++ EvShutdown :: evs2) = Some s -> evs2 = []).
Proof.
  unfold Start. split.
  - intros ev. rewrite run_app.
    destruct (run sit initial evs1) as [s1 |]; [| discriminate].
    cbn [run]. destruct (step sit s1 EvPause) as [s2 |] eqn:Hp; [| discriminate].
    assert (Hloc : at_loc s2 = AwaitResume).
    { unfold step in Hp. destruct (intervalTimer sit); destruct (at_loc s1);
        try discriminate; injection Hp as <-; reflexivity. }
    destruct (step sit s2 ev) as [s3 |] eqn:Hev; [| discriminate].
    intros _. unfold step in Hev. rewrite Hloc in Hev.
    destruct (intervalTimer sit); destruct ev; try discriminate; reflexivity.
  - rewrite run_app.
    destruct (run sit initial evs1) as [s1 |]; [| discriminate].
    cbn [run]. destruct (step sit s1 EvShutdown) as [s2 |] eqn:Hp; [| discriminate].
    assert (Hloc : at_loc s2 = Returned).
    { unfold step in Hp. destruct (intervalTimer sit); destruct (at_loc s1);
        try discriminate; injection Hp as <-; reflexivity. }
    destruct evs2 as [| ev rest]; [reflexivity |].
    cbn [run]. unfold step. rewrite Hloc.
    destruct (intervalTimer sit); destruct ev; discriminate.
Qed.

Lemma pause_holds_the_loop_and_stop_ends_it_witness :
  exists s,
    Start (NewSyncIntervalTimer (30 * Second) sample_f true)
          ([EvTick false] ++ EvPause :: EvResume :: [EvShutdown]) = Some s /\
    EvResume = EvResume.
Proof.
  eexists. split; [vm_compute; reflexivity |].
  refine (proj1 (pause_holds_the_loop_and_stop_ends_it
                   (NewSyncIntervalTimer (30 * Second) sample_f true)
                   [EvTick false] [EvShutdown] _) EvResume _).
  vm_compute. reflexivity.
Defined.

End TimerMore.

(* ===================================================================== *)
(** * More properties of the promoter                                    *)
(* ===================================================================== *)

Module PromoterMore.
Import Store World WorldProps Promoter PromoterProps.
Local Open Scope list_scope.

Section Tick.
Variable env : Env.
Variable p : Promoter.

Lemma promote_loop_never_removes tailTx : forall fuel d,
  only (fun c => negb (is_removal c)) (promote_loop env p fuel d tailTx).
Proof.
  induction fuel as [| fuel IH]; intros d; cbn [promote_loop]; [apply only_panic |].
  unfold GetTransactionsToApprove, PrepareTransfers.
  apply only_bind; [apply only_call; reflexivity | intros r].
  destruct r as [err | tips].
  - destruct (String.eqb _ _); [| apply only_ret].
    destruct (maxDepth <? _); [apply only_ret | apply IH].
  - apply only_bind; [apply only_call; reflexivity | intros r].
    destruct r; [apply only_ret |]. apply only_send; reflexivity.
Qed.

Lemma find_tail_never_removes tails :
  only (fun c => negb (is_removal c)) (find_tail env tails).
Proof.
  induction tails as [| tailTx older IH]; cbn [find_tail]; [apply only_ret |].
  unfold CheckConsistency, GetTrytes, aboveMaxDepth, Now. only_tac.
Qed.

Lemma promote_and_emit_never_removes key bndl tail :
  only (fun c => negb (is_removal c)) (promote_and_emit env p key bndl tail).
Proof.
  unfold promote_and_emit, promote, Emit.
  apply only_bind; [apply promote_loop_never_removes | intros r]. only_tac.
Qed.

Lemma promote_transfer_never_removes entry :
  only (fun c => negb (is_removal c)) (promote_transfer env p entry).
Proof.
  destruct entry as [key pt]. unfold promote_transfer.
  apply only_bind; [apply find_tail_never_removes | intros tailToPromote].
  destruct (PendingTransferToBundle env pt) as [e | bndl]; [apply only_ret |].
  destruct (0 <? len tailToPromote); [apply promote_and_emit_never_removes |].
  apply only_bind.
  - unfold reattach, GetTransactionsToApprove.
    apply only_bind; [apply only_call; reflexivity | intros r].
    destruct r as [err | tips]; [only_tac |].
    destruct (TransactionsToTrytes env bndl); [apply only_ret |].
    apply only_send; reflexivity.
  - intros r. destruct r as [err | reattachTailTxHash]; [apply only_call; reflexivity |].
    apply only_bind; [apply only_index | intros b0].
    apply only_bind; [apply only_call; reflexivity | intros _].
    apply only_bind.
    + unfold storeTailTxHash, AddTailHash, Emit. only_tac.
    + intros stored. destruct (negb stored); [apply only_ret |].
      apply promote_and_emit_never_removes.
Qed.

(** The promoter never deletes: whatever the node and the store answer, a
    tick makes no [RemovePendingTransfer] and no [RemoveDepositRequest]
    call. *)
Theorem tick_never_removes : only (fun c => negb (is_removal c)) (Promoter_promote env p).
Proof.
  unfold Promoter_promote, GetPendingTransfers.
  apply only_bind; [apply only_call; reflexivity | intros r].
  destruct r as [e | pendingTransfers]; [apply only_ret |].
  destruct pendingTransfers as [| e0 rest]; [apply only_ret |].
  generalize (e0 :: rest). intros l.
  induction l as [| entry l IH]; cbn [for_each]; [apply only_ret |].
  apply only_bind; [apply promote_transfer_never_removes | intros _; exact IH].
Qed.

(** On the reattachment path, when [AddTailHash] fails with anything but
    [ErrPendingTransferNotFound], the tick emits that error and is done with
    the transfer: the reattached tail is not promoted. *)
Theorem store_failure_ends_the_transfer
    key pt b0 bs reattachTailTxHash h walk reattached err :
  find_tail env (rev (Tails pt)) h = (Some EmptyString, walk) ->
  PendingTransferToBundle env pt = inr (b0 :: bs) ->
  reattach env p (b0 :: bs) (h ++ walk) = (Some (inr reattachTailTxHash), reattached) ->
  store_AddTailHash env
    (h ++ walk ++ reattached ++ [reattachment_event key b0 reattachTailTxHash])
    (accID p) key reattachTailTxHash = Some err ->
  error_eqb err ErrPendingTransferNotFound = false ->
  promote_transfer env p (key, pt) h =
  (Some tt,
   walk ++ reattached ++
   [reattachment_event key b0 reattachTailTxHash;
    CAddTailHash (accID p) key reattachTailTxHash;
    CEmit (PError (ErrWrap err "unable to store reattachment tx tail hash")) EventError]).
Proof.
  intros Hwalk Hbndl Hre Herr Hne.
  unfold promote_transfer.
  rewrite (run_bind_value _ _ _ _ _ Hwalk), Hbndl.
  change (0 <? len EmptyString) with false. cbv iota.
  rewrite (run_bind_value _ _ _ _ _ Hre).
  unfold index. cbn [lookup list_lookup]. cbv iota. rewrite run_ret_bind.
  unfold Emit. rewrite run_call_bind.
  fold (reattachment_event key b0 reattachTailTxHash).
  rewrite <- !app_assoc.
  assert (Hstore : storeTailTxHash env p key reattachTailTxHash
                     "unable to store reattachment tx tail hash"
                     (h ++ walk ++ reattached ++ [reattachment_event key b0 reattachTailTxHash])
                   = (Some false,
                      [CAddTailHash (accID p) key reattachTailTxHash;
                       CEmit (PError (ErrWrap err "unable to store reattachment tx tail hash"))
                             EventError])).
  { unfold storeTailTxHash, AddTailHash, Emit.
    rewrite run_call_bind, Herr, Hne. rewrite run_call_bind. reflexivity. }
  rewrite (run_bind_value _ _ _ _ _ Hstore).
  cbn [negb]. cbv beta iota. unfold value, calls, ret. cbn [fst snd app].
  reflexivity.
Qed.

(** On the reattachment path, when [AddTailHash] stores the new tail, the tick
    goes on to promote the reattached tail: after the reattachment event and
    the store call comes the tip selection that refers to the new tail. *)
Theorem reattachment_is_stored_then_promoted
    key pt b0 bs reattachTailTxHash h walk reattached :
  find_tail env (rev (Tails pt)) h = (Some EmptyString, walk) ->
  PendingTransferToBundle env pt = inr (b0 :: bs) ->
  reattach env p (b0 :: bs) (h ++ walk) = (Some (inr reattachTailTxHash), reattached) ->
  store_AddTailHash env
    (h ++ walk ++ reattached ++ [reattachment_event key b0 reattachTailTxHash])
    (accID p) key reattachTailTxHash = None ->
  exists rest,
    calls (promote_transfer env p (key, pt) h) =
    walk ++ reattached ++
    [reattachment_event key b0 reattachTailTxHash;
     CAddTailHash (accID p) key reattachTailTxHash;
     CGetTransactionsToApprove (depth p) (Some reattachTailTxHash)] ++ rest.
Proof.
  intros Hwalk Hbndl Hre Hok.
  unfold promote_transfer.
  rewrite (run_bind_value _ _ _ _ _ Hwalk), Hbndl.
  change (0 <? len EmptyString) with false. cbv iota.
  rewrite (run_bind_value _ _ _ _ _ Hre).
  unfold index. cbn [lookup list_lookup]. cbv iota. rewrite run_ret_bind.
  unfold Emit. rewrite run_call_bind.
  fold (reattachment_event key b0 reattachTailTxHash).
  rewrite <- !app_assoc.
  assert (Hstore : storeTailTxHash env p key reattachTailTxHash
                     "unable to store reattachment tx tail hash"
                     (h ++ walk ++ reattached ++ [reattachment_event key b0 reattachTailTxHash])
                   = (Some true, [CAddTailHash (accID p) key reattachTailTxHash])).
  { unfold storeTailTxHash, AddTailHash. rewrite run_call_bind, Hok. reflexivity. }
  rewrite (run_bind_value _ _ _ _ _ Hstore).
  cbn [negb]. cbv beta iota.
  match goal with
  | |- context [promote_and_emit env p key (b0 :: bs) reattachTailTxHash ?hh] =>
      destruct (promote_and_emit_first_call env p key (b0 :: bs) reattachTailTxHash hh)
        as [rest Hrest]
  end.
  exists rest. unfold calls at 1. cbn [snd]. unfold calls at 1. cbn [snd].
  unfold calls at 1. cbn [snd]. rewrite Hrest. cbn [app]. reflexivity.
Qed.

(** One round of the loop of [promote]. *)
Lemma promote_loop_round fuel d tailTx :
  promote_loop env p (S fuel) d tailTx =
  bind (GetTransactionsToApprove env d (Some tailTx))
    (fun r =>
       match r with
       | inl err =>
           if String.eqb (Error err) referenceTooOldMsg then
             if maxDepth <? wrap_u64 (d + 1) then ret (inl ErrUnpromotableTail)
             else promote_loop env p fuel (wrap_u64 (d + 1)) tailTx
           else ret (inl err)
       | inr tips =>
           bind (PrepareTransfers env emptySeed [EmptyTransfer] no_options)
             (fun r =>
                match r with
                | inl err => ret (inl (ErrWrap err "unable to prepare promotion bundle"))
                | inr preparedBundle => send env p preparedBundle tips
                end)
       end).
Proof. reflexivity. Qed.

(** With enough fuel for its rounds, the loop of [promote] does not notice
    one unit more. *)
Lemma promote_loop_spare_fuel tailTx : forall fuel d h,
  (0 <= d <= 15 /\ 16 - d <= Z.of_nat fuel) \/ (~ 0 <= d <= 15 /\ 17 <= Z.of_nat fuel) ->
  promote_loop env p (S fuel) d tailTx h = promote_loop env p fuel d tailTx h.
Proof.
  induction fuel as [| fuel IH]; intros d h Hfuel; [lia |].
  rewrite (promote_loop_round (S fuel) d), (promote_loop_round fuel d).
  unfold GetTransactionsToApprove. rewrite !run_call_bind.
  destruct (api_GetTransactionsToApprove env h d (Some tailTx)) as [err | tips];
    [| reflexivity].
  destruct (String.eqb (Error err) referenceTooOldMsg); [| reflexivity].
  destruct (Z.ltb_spec maxDepth (wrap_u64 (d + 1))) as [Hlt | Hle]; [reflexivity |].
  assert (Hrange : 0 <= wrap_u64 (d + 1) < uint64_modulus).
  { unfold wrap_u64. apply Z.mod_pos_bound. reflexivity. }
  unfold maxDepth in Hle.
  rewrite IH; [reflexivity |].
  left. split; [lia |].
  destruct Hfuel as [[Hd Hf] | [Hd Hf]]; [| lia].
  assert (wrap_u64 (d + 1) = d + 1).
  { unfold wrap_u64, uint64_modulus. apply Z.mod_small. lia. }
  lia.
Qed.

(** [promote] comes back by itself: whatever the configured depth and
    whatever the node answers, its loop goes round at most 17 times, so that
    running it with more rounds in hand than [promote_fuel] gives the same
    result and the same calls. *)
Theorem promote_returns_within_17_rounds tailTx h (spare : nat) :
  promote_loop env p (promote_fuel + spare) (depth p) tailTx h = promote env p tailTx h.
Proof.
  induction spare as [| spare IH].
  - rewrite Nat.add_0_r. reflexivity.
  - rewrite Nat.add_succ_r, promote_loop_spare_fuel; [exact IH |].
    unfold promote_fuel.
    destruct (Z_le_dec 0 (depth p)) as [H0 |]; [| right; lia].
    destruct (Z_le_dec (depth p) 15) as [H15 |]; [left | right]; lia.
Qed.

(** A depth configured at or beyond [maxDepth] is still tried.  From 15 up to
    2^64 - 2: one tip selection at that depth, and on a reference that is too
    old the tail is given up as unpromotable without a second one.  At
    2^64 - 1 the increment wraps to zero, which does not exceed [maxDepth]:
    with a node for which the reference stays too old, the loop goes on
    through the depths 0 to 15 and gives the tail up after 17 tip
    selections. *)
Theorem promote_at_or_beyond_max_depth tailTx h :
  (forall e,
     15 <= depth p < uint64_modulus - 1 ->
     api_GetTransactionsToApprove env h (depth p) (Some tailTx) = inl e ->
     Error e = referenceTooOldMsg ->
     promote env p tailTx h =
     (Some (inl ErrUnpromotableTail), [CGetTransactionsToApprove (depth p) (Some tailTx)])) /\
  (depth p = uint64_modulus - 1 ->
   (forall h' k, k = depth p \/ 0 <= k <= 15 ->
      exists e, api_GetTransactionsToApprove env h' k (Some tailTx) = inl e /\
                Error e = referenceTooOldMsg) ->
   promote env p tailTx h =
   (Some (inl ErrUnpromotableTail),
    CGetTransactionsToApprove (depth p) (Some tailTx) :: gtta_calls tailTx 0 16)).
Proof.
  split.
  - intros e Hd Hans Hmsg. unfold promote, promote_fuel.
    rewrite (promote_loop_too_old env p _ _ _ _ e Hans Hmsg).
    assert (Hw : wrap_u64 (depth p + 1) = depth p + 1).
    { unfold wrap_u64. apply Z.mod_small. lia. }
    rewrite Hw. unfold maxDepth.
    destruct (Z.ltb_spec 15 (depth p + 1)); [reflexivity | lia].
  - intros Hd Hold. unfold promote, promote_fuel.
    destruct (Hold h (depth p) ltac:(left; reflexivity)) as [e [Hans Hmsg]].
    rewrite (promote_loop_too_old env p _ _ _ _ e Hans Hmsg).
    assert (Hw : wrap_u64 (depth p + 1) = 0).
    { rewrite Hd. unfold wrap_u64.
      replace (uint64_modulus - 1 + 1) with (1 * uint64_modulus) by lia.
      apply Z.mod_mul. discriminate. }
    rewrite Hw. unfold maxDepth. change (15 <? 0) with false. cbv iota.
    change 17%nat with (15 + 2)%nat.
    rewrite (promote_loop_escalates env p tailTx 15 2 0)
      by (try lia; intros h' k Hk; apply Hold; right; lia).
    change (0 + Z.of_nat 15) with 15.
    destruct (Hold ((h ++ [CGetTransactionsToApprove (depth p) (Some tailTx)]) ++
                    gtta_calls tailTx 0 15) 15 ltac:(right; lia)) as [e' [Hans' Hmsg']].
    rewrite (promote_loop_too_old env p _ _ _ _ e' Hans' Hmsg').
    change (maxDepth <? wrap_u64 (15 + 1)) with true. cbv iota.
    unfold value, calls. cbn [fst snd].
    rewrite (gtta_calls_snoc tailTx 0 15). reflexivity.
Qed.

End Tick.

Lemma store_failure_ends_the_transfer_witness :
  promote_transfer failing_store_world sample_promoter (tail_A, once_attached) [] =
  (Some tt,
   [CCheckConsistency tail_A; CGetTransactionsToApprove 3 None;
    CAttachToTangle "TRUNK" "BRANCH" 14 [tail_A];
    CStoreAndBroadcast [race_reattached];
    reattachment_event tail_A (sample_tx (fun _ => 1700000000) tail_A) race_reattached;
    CAddTailHash (accID sample_promoter) tail_A race_reattached;
    CEmit (PError (ErrWrap write_timeout "unable to store reattachment tx tail hash"))
          EventError]).
Proof.
  apply (store_failure_ends_the_transfer failing_store_world sample_promoter
           tail_A once_attached (sample_tx (fun _ => 1700000000) tail_A) []
           race_reattached [] [CCheckConsistency tail_A]
           [CGetTransactionsToApprove 3 None;
            CAttachToTangle "TRUNK" "BRANCH" 14 [tail_A];
            CStoreAndBroadcast [race_reattached]]
           write_timeout).
  - vm_compute. reflexivity.
  - reflexivity.
  - vm_compute. reflexivity.
  - reflexivity.
  - reflexivity.
Defined.

Lemma reattachment_is_stored_then_promoted_witness :
  exists rest,
    calls (promote_transfer reattach_world sample_promoter (tail_A, once_attached) []) =
    [CCheckConsistency tail_A; CGetTransactionsToApprove 3 None;
     CAttachToTangle "TRUNK" "BRANCH" 14 [tail_A];
     CStoreAndBroadcast [race_reattached];
     reattachment_event tail_A (sample_tx (fun _ => 1700000000) tail_A) race_reattached;
     CAddTailHash (accID sample_promoter) tail_A race_reattached;
     CGetTransactionsToApprove 3 (Some race_reattached)] ++ rest.
Proof.
  apply (reattachment_is_stored_then_promoted reattach_world sample_promoter
           tail_A once_attached (sample_tx (fun _ => 1700000000) tail_A) []
           race_reattached [] [CCheckConsistency tail_A]
           [CGetTransactionsToApprove 3 None;
            CAttachToTangle "TRUNK" "BRANCH" 14 [tail_A];
            CStoreAndBroadcast [race_reattached]]).
  - vm_compute. reflexivity.
  - reflexivity.
  - vm_compute. reflexivity.
  - reflexivity.
Defined.

Lemma promote_at_or_beyond_max_depth_witness :
  promote stale_world deep_promoter tail_A [] =
    (Some (inl ErrUnpromotableTail), [CGetTransactionsToApprove 20 (Some tail_A)]) /\
  promote stale_world wrapping_promoter tail_A [] =
    (Some (inl ErrUnpromotableTail),
     CGetTransactionsToApprove (2 ^ 64 - 1) (Some tail_A) :: gtta_calls tail_A 0 16).
Proof.
  split.
  - apply (proj1 (promote_at_or_beyond_max_depth stale_world deep_promoter tail_A [])
             too_old).
    + vm_compute. split; [discriminate | reflexivity].
    + reflexivity.
    + reflexivity.
  - apply (proj2 (promote_at_or_beyond_max_depth stale_world wrapping_promoter tail_A [])).
    + reflexivity.
    + intros h' k _. exists too_old. split; reflexivity.
Defined.

End PromoterMore.

(* ===================================================================== *)
(** * More properties of the account                                     *)
(* ===================================================================== *)

Module AccountMore.
Import Store World WorldProps Account AccountProps.
Local Open Scope list_scope.

(** A value of a bind comes from a value of its first part. *)
Lemma value_bind_parts {A B} (m : M A) (k : A -> M B) h b :
  value (bind m k h) = Some b ->
  exists a, value (m h) = Some a /\ value (k a (h ++ calls (m h))) = Some b.
Proof.
  rewrite run_bind. destruct (value (m h)) as [a |]; [| discriminate].
  intros H. exists a. split; [reflexivity | exact H].
Qed.

(** ** What a selection returns *)

Local Abbreviation picked_ok st :=
  (sum st = sum_balances (inputs st) mod uint64_modulus /\
   Forall (fun i => in_Balance i <> 0 /\ In (in_KeyIndex i) (toRemove st)) (inputs st)).

Lemma sum_balances_app ins i :
  sum_balances (ins ++ [i]) = sum_balances ins + in_Balance i.
Proof.
  induction ins as [| x ins IH]; cbn [sum_balances fold_right app] in *; [lia |].
  fold (sum_balances (ins ++ [i])). fold (sum_balances ins). rewrite IH. lia.
Qed.

Lemma picked_ok_skip st : picked_ok st -> picked_ok (add_to_sum 0 st).
Proof.
  intros [Hs Hf]. unfold add_to_sum. cbn [sum inputs toRemove]. split; [| exact Hf].
  rewrite Hs, Z.add_0_r. unfold wrap_u64. apply Z.mod_mod. discriminate.
Qed.

Lemma picked_ok_mark k st : picked_ok st -> picked_ok (markForRemoval false k st).
Proof.
  intros [Hs Hf]. unfold markForRemoval. cbn [sum inputs toRemove]. split; [exact Hs |].
  eapply Forall_impl; [exact Hf |]. intros i [H1 H2]. split; [exact H1 |].
  apply in_or_app. left. exact H2.
Qed.

Lemma picked_ok_take input st :
  in_Balance input <> 0 -> picked_ok st ->
  picked_ok (markForRemoval false (in_KeyIndex input)
               (addAsInput false input (add_to_sum (in_Balance input) st))) /\
  picked_ok (addAsInput false input
               (add_to_sum (in_Balance input)
                  (markForRemoval false (in_KeyIndex input) st))).
Proof.
  intros Hne [Hs Hf].
  assert (Hsum : wrap_u64 (sum st + in_Balance input) =
                 (sum_balances (inputs st) + in_Balance input) mod uint64_modulus).
  { unfold wrap_u64. rewrite Hs. apply Zplus_mod_idemp_l. }
  assert (Hall : Forall (fun i => in_Balance i <> 0 /\
                                  In (in_KeyIndex i) (toRemove st ++ [in_KeyIndex input]))
                        (inputs st ++ [input])).
  { apply Forall_app. split.
    - eapply Forall_impl; [exact Hf |]. intros i [H1 H2]. split; [exact H1 |].
      apply in_or_app. left. exact H2.
    - constructor; [| constructor]. split; [exact Hne |].
      apply in_or_app. right. left. reflexivity. }
  unfold markForRemoval, addAsInput, add_to_sum. cbn [sum inputs toRemove].
  rewrite sum_balances_app. repeat split; assumption.
Qed.

Lemma primary_loop_ok tv b balances : forall sel i st st',
  primary_loop tv false b balances i sel st = Some st' -> picked_ok st -> picked_ok st'.
Proof.
  induction sel as [| s rest IH]; intros i st st' Hrun Hok; cbn [primary_loop] in Hrun.
  - injection Hrun as <-. exact Hok.
  - destruct (balances !! i) as [balance |]; [| discriminate].
    match type of Hrun with
    | (if ?c then _ else _) = _ => destruct c
    end; [exact (IH _ _ _ Hrun Hok) |].
    destruct (balance =? 0) eqn:Hne;
      [apply Z.eqb_eq in Hne; subst balance | apply Z.eqb_neq in Hne].
    + exact (IH _ _ _ Hrun (picked_ok_skip st Hok)).
    + destruct (primaryAddrs b !! i) as [addr |]; [| discriminate].
      match type of Hrun with
      | context [markForRemoval false ?k (addAsInput false ?input _)] =>
          pose proof (proj1 (picked_ok_take input st Hne Hok)) as Hok'
      end.
      cbn [in_Balance in_KeyIndex] in Hok'.
      match type of Hrun with
      | (if ?c then _ else _) = _ => destruct c
      end.
      * injection Hrun as <-. exact Hok'.
      * exact (IH _ _ _ Hrun Hok').
Qed.

Section Secondary.
Variable env : Env.

Lemma secondary_loop_ok tv b balances start : forall sel i st h st',
  value (secondary_loop env tv false b balances start i sel st h) = Some st' ->
  picked_ok st -> picked_ok st'.
Proof.
  induction sel as [| s rest IH]; intros i st h st' Hrun Hok; cbn [secondary_loop] in Hrun.
  - injection Hrun as <-. exact Hok.
  - apply value_bind_parts in Hrun as (addr & _ & Hrun).
    apply value_bind_parts in Hrun as (balance & _ & Hrun).
    destruct (balance =? 0) eqn:Hne;
      [apply Z.eqb_eq in Hne; subst balance | apply Z.eqb_neq in Hne].
    + apply value_bind_parts in Hrun as ([has err] & _ & Hrun).
      match type of Hrun with
      | value ((if ?c then _ else _) _) = _ => destruct c
      end.
      * exact (IH _ _ _ _ Hrun Hok).
      * exact (IH _ _ _ _ Hrun (picked_ok_mark _ st Hok)).
    + match type of Hrun with
      | context [addAsInput false ?input _] =>
          pose proof (proj2 (picked_ok_take input st Hne Hok)) as Hok'
      end.
      cbn [in_Balance in_KeyIndex] in Hok'.
      match type of Hrun with
      | value ((if ?c then _ else _) _) = _ => destruct c
      end.
      * injection Hrun as <-. exact Hok'.
      * exact (IH _ _ _ _ Hrun Hok').
Qed.

(** When [defaultInputSelection] selects inputs for a transfer and returns
    without an error, the sum it returns covers the transfer value and is the
    total of the balances of the inputs (as a uint64), every input has a
    balance that is not zero, and the key index of every input is among the
    indices to remove from the store. *)
Theorem selection_covers_the_transfer acc transferValue h total ins rem :
  value (defaultInputSelection env acc transferValue false h) = Some (total, ins, rem, None) ->
  transferValue <= total /\
  total = sum_balances ins mod uint64_modulus /\
  Forall (fun i => in_Balance i <> 0 /\ In (in_KeyIndex i) rem) ins.
Proof.
  intros H. unfold defaultInputSelection in H.
  apply value_bind_parts in H as (r & _ & H).
  destruct r as [e | reqs]; [discriminate |].
  destruct reqs as [| r0 reqs]; [discriminate |].
  apply value_bind_parts in H as (r & _ & H). destruct r as [e | subtangleHash]; [discriminate |].
  apply value_bind_parts in H as (r & _ & H). destruct r as [e | now]; [discriminate |].
  apply value_bind_parts in H as (r & _ & H). destruct r as [e | seed]; [discriminate |].
  destruct (sort_requests env seed now (r0 :: reqs) no_buckets) as [b |]; [| discriminate].
  apply value_bind_parts in H as (r & _ & H). destruct r as [e | balances]; [discriminate |].
  destruct (primary_loop transferValue false b balances 0 (primarySelection b) nothing_picked)
    as [st |] eqn:Hprimary; [| discriminate].
  assert (Hok : picked_ok st).
  { apply (primary_loop_ok _ _ _ _ _ _ _ Hprimary). split; [reflexivity | constructor]. }
  apply value_bind_parts in H as (st2 & Hsecond & H).
  assert (Hok2 : picked_ok st2).
  { destruct ((sum st <? transferValue) || false).
    - exact (secondary_loop_ok _ _ _ _ _ _ _ _ _ Hsecond Hok).
    - injection Hsecond as <-. exact Hok. }
  cbv iota in H.
  destruct (Z.ltb_spec (sum st2) transferValue) as [Hlt | Hge]; [discriminate |].
  injection H as <- <- <-. destruct Hok2 as [Hs Hf]. auto.
Qed.

End Secondary.

Lemma selection_covers_the_transfer_witness :
  exists ins rem,
    value (defaultInputSelection funded_world sample_account 120 false []) =
      Some (150, ins, rem, None) /\
    map in_KeyIndex ins = [1; 2] /\ rem = [1; 2] /\
    150 = sum_balances ins mod uint64_modulus.
Proof.
  eexists. eexists. split; [vm_compute; reflexivity |].
  split; [reflexivity |]. split; [reflexivity |].
  refine (proj1 (proj2 (selection_covers_the_transfer funded_world sample_account 120 []
                          150 _ _ _))).
  vm_compute. reflexivity.
Defined.

(** ** The sum of the recipients *)

Lemma Recipients_Sum_from recps : forall start,
  fold_left (fun sum target => wrap_u64 (sum + tr_Value target)) recps start mod uint64_modulus =
  (start + total_value recps) mod uint64_modulus.
Proof.
  induction recps as [| t rest IH]; intros start; cbn [fold_left total_value fold_right].
  - rewrite Z.add_0_r. reflexivity.
  - fold (total_value rest). rewrite IH. unfold wrap_u64.
    rewrite Zplus_mod_idemp_l. f_equal. lia.
Qed.

Lemma Recipients_Sum_wrapped recps :
  Recipients_Sum recps mod uint64_modulus = Recipients_Sum recps.
Proof.
  unfold Recipients_Sum. destruct recps as [| t rest] using rev_ind; [reflexivity |].
  rewrite fold_left_app. cbn [fold_left]. unfold wrap_u64. apply Z.mod_mod. discriminate.
Qed.

(** [Recipients.Sum] is the total of the values modulo 2^64; and [send] takes
    a total that wraps to zero for a transfer without value: it then runs the
    same whatever the input selection strategy is, the strategy is not asked
    at all. *)
Theorem send_of_a_wrapped_sum_selects_no_inputs env strat strat' a_remainder acc targets h :
  Recipients_Sum targets = total_value targets mod uint64_modulus /\
  (total_value targets mod uint64_modulus = 0 ->
   send env strat a_remainder acc targets h = send env strat' a_remainder acc targets h /\
   select_inputs env strat a_remainder acc (Recipients_Sum targets) h =
     (Some (inr {| l_inputs := []; l_forRemoval := []; l_remainderAddress := None |}, acc), [])).
Proof.
  assert (Hsum : Recipients_Sum targets = total_value targets mod uint64_modulus).
  { rewrite <- Recipients_Sum_wrapped. unfold Recipients_Sum.
    rewrite Recipients_Sum_from. reflexivity. }
  split; [exact Hsum |]. intros Hzero.
  assert (Hsel : forall s h', select_inputs env s a_remainder acc (Recipients_Sum targets) h' =
            (Some (inr {| l_inputs := []; l_forRemoval := []; l_remainderAddress := None |}, acc),
             [])).
  { intros s h'. unfold select_inputs. rewrite Hsum, Hzero. reflexivity. }
  split; [| apply Hsel].
  unfold send. rewrite !run_bind. destruct (value (Seed env h)) as [[e | seed] |]; try reflexivity.
  rewrite !run_bind.
  destruct (value (Time_ env (h ++ calls (Seed env h)))) as [[e | now] |]; try reflexivity.
  rewrite !run_bind, !Hsel. reflexivity.
Qed.

Lemma send_of_a_wrapped_sum_selects_no_inputs_witness :
  Recipients_Sum overflowing_targets = 0 /\
  send funded_world (defaultInputSelection funded_world) 824633900000 sample_account
       overflowing_targets [] =
  send funded_world (fun _ _ _ => panic) 824633900000 sample_account overflowing_targets [] /\
  nth_error (calls (send funded_world (defaultInputSelection funded_world) 824633900000
                      sample_account overflowing_targets [])) 2 =
    Some (CPrepareTransfers (repeat_string "S" 81) overflowing_targets
            {| Inputs := []; RemainderAddress := None; Timestamp := Some 1700000000 |}).
Proof.
  split; [reflexivity |]. split; [| vm_compute; reflexivity].
  refine (proj1 (proj2 (send_of_a_wrapped_sum_selects_no_inputs funded_world
                          (defaultInputSelection funded_world) (fun _ _ _ => panic)
                          824633900000 sample_account overflowing_targets []) _)).
  reflexivity.
Defined.

(** ** The deferred function of [send] *)

(** When the inputs are selected with a remainder address and
    [PrepareTransfers] then fails, [send] returns that error (wrapped) and its
    deferred function asks the store for the deposit requests and removes the
    first one whose address, generated without checksum, is the remainder
    address cut to 81 trytes: the calls of [send] end with that removal. *)
Theorem prepare_failure_frees_the_remainder_address
    env strat a_remainder acc targets h seed currentTime l acc' selected remainder e reqs k :
  (forall h', prov_Seed env h' = inr seed) ->
  (forall h', timesrc_Time env h' = inr currentTime) ->
  select_inputs env strat a_remainder acc (Recipients_Sum targets) (h ++ [CSeed; CTime])
    = (Some (inr l, acc'), selected) ->
  l_remainderAddress l = Some remainder ->
  81 <= len remainder ->
  (forall h', api_PrepareTransfers env h' seed targets (send_options currentTime l) = inl e) ->
  store_GetDepositRequests env
    (h ++ [CSeed; CTime] ++ selected ++
     [CPrepareTransfers seed targets (send_options currentTime l)]) (id acc') = inr reqs ->
  find_remainder env seed (substring 0 81 remainder) reqs = Some k ->
  (forall h', store_RemoveDepositRequest env h' (id acc') k = None) ->
  send env strat a_remainder acc targets h =
  (Some (inl (ErrWrap e "unable to prepare transfers in send op."), acc'),
   [CSeed; CTime] ++ selected ++
   [CPrepareTransfers seed targets (send_options currentTime l);
    CGetDepositRequests (id acc');
    CRemoveDepositRequest (id acc') k]).
Proof.
  intros Hseed Htime Hsel Hrem Hlen Hprep Hreqs Hfind Hremove.
  unfold send, Seed, Time_.
  rewrite run_call_bind, Hseed.
  rewrite run_call_bind, Htime.
  rewrite <- app_assoc. cbn [app].
  rewrite (run_bind_value _ _ _ _ _ Hsel).
  assert (Hfail : prepare_and_commit env acc' seed targets currentTime l
                    ((h ++ [CSeed; CTime]) ++ selected) =
                  (Some (false, inl (ErrWrap e "unable to prepare transfers in send op.")),
                   [CPrepareTransfers seed targets (send_options currentTime l)])).
  { unfold prepare_and_commit, PrepareTransfers. fold (send_options currentTime l).
    rewrite run_call_bind, Hprep. reflexivity. }
  rewrite (run_attempt_bind _ _ _ _ _ Hfail).
  assert (Hclean : cleanup env acc' seed (l_remainderAddress l) false
                     (((h ++ [CSeed; CTime]) ++ selected) ++
                      [CPrepareTransfers seed targets (send_options currentTime l)]) =
                   (Some tt, [CGetDepositRequests (id acc'); CRemoveDepositRequest (id acc') k])).
  { unfold cleanup, GetDepositRequests, RemoveDepositRequest. rewrite Hrem.
    rewrite run_call_bind. rewrite <- !app_assoc. rewrite Hreqs.
    destruct (Z.ltb_spec (len remainder) 81) as [Hlt | _]; [lia |].
    rewrite Hfind. rewrite run_call_bind, Hremove. reflexivity. }
  rewrite (run_bind_value _ _ _ _ _ Hclean).
  unfold value, calls. cbn [fst snd app ret]. reflexivity.
Qed.

Lemma prepare_failure_frees_the_remainder_address_witness :
  value (send no_prepare_world (defaultInputSelection no_prepare_world) 824633900000
           sample_account sample_targets []) =
    Some (inl (ErrWrap no_prepare "unable to prepare transfers in send op."),
          set_lastKeyIndex 3 sample_account) /\
  exists before,
    calls (send no_prepare_world (defaultInputSelection no_prepare_world) 824633900000
             sample_account sample_targets []) =
    before ++
    [CAddDepositRequest (id sample_account) 3
       {| Store.SecurityLevel := 2;
          Request := {| Deposit.TimeoutAt := None; Deposit.MultiUse := false;
                        Deposit.ExpectedAmount := Some (Ptr 824633900000 30) |} |};
     CPrepareTransfers (repeat_string "S" 81) sample_targets
       {| Inputs := [ {| in_Address := "ADDR1" +:+ repeat_string "9" 85; in_KeyIndex := 1;
                         in_Security := 2; in_Balance := 100 |};
                      {| in_Address := "ADDR2" +:+ repeat_string "9" 85; in_KeyIndex := 2;
                         in_Security := 2; in_Balance := 50 |} ];
          RemainderAddress := Some ("ADDR3" +:+ repeat_string "9" 85);
          Timestamp := Some 1700000000 |};
     CGetDepositRequests (id sample_account);
     CRemoveDepositRequest (id sample_account) 3].
Proof.
  pose proof
    (prepare_failure_frees_the_remainder_address no_prepare_world
       (defaultInputSelection no_prepare_world) 824633900000 sample_account sample_targets []
       (repeat_string "S" 81) (time_Unix 1700000000 0)
       {| l_inputs := [ {| in_Address := "ADDR1" +:+ repeat_string "9" 85; in_KeyIndex := 1;
                           in_Security := 2; in_Balance := 100 |};
                        {| in_Address := "ADDR2" +:+ repeat_string "9" 85; in_KeyIndex := 2;
                           in_Security := 2; in_Balance := 50 |} ];
          l_forRemoval := [1; 2];
          l_remainderAddress := Some ("ADDR3" +:+ repeat_string "9" 85) |}
       (set_lastKeyIndex 3 sample_account)
       (calls (select_inputs no_prepare_world (defaultInputSelection no_prepare_world)
                 824633900000 sample_account 120 [CSeed; CTime]))
       ("ADDR3" +:+ repeat_string "9" 85) no_prepare
       [(1, request_until 1700003600 100); (2, request_until 1700003600 50);
        (3, {| Store.SecurityLevel := 2;
               Request := {| Deposit.TimeoutAt := None; Deposit.MultiUse := false;
                             Deposit.ExpectedAmount := Some (Ptr 824633900000 30) |} |})]
       3) as Hrun.
  rewrite Hrun.
  - split; [reflexivity |].
    exists (take 9 (calls (send no_prepare_world (defaultInputSelection no_prepare_world)
                             824633900000 sample_account sample_targets []))).
    vm_compute. reflexivity.
  - intros; reflexivity.
  - intros; reflexivity.
  - vm_compute. reflexivity.
  - reflexivity.
  - vm_compute. discriminate.
  - intros; reflexivity.
  - vm_compute. reflexivity.
  - vm_compute. reflexivity.
  - intros; reflexivity.
Defined.

(** ** Allocating a deposit request *)

(** [allocateDepositRequest] does not take its step back.  Once it has the
    seed, the account it leaves has its key index advanced by one (as a
    uint64) whatever it returns, an error included; an allocation that
    succeeds wrote that index to the store before it added the deposit
    request under the same index, and the conditions it returns carry the
    request and the address generated for that index.  Without the seed the
    account is as it was and the store was not touched. *)
Theorem allocation_keeps_the_advanced_index env acc req h r acc' :
  value (allocateDepositRequest env acc req h) = Some (r, acc') ->
  match prov_Seed env h with
  | inl err => r = inl err /\ acc' = acc /\ calls (allocateDepositRequest env acc req h) = [CSeed]
  | inr seed =>
      acc' = set_lastKeyIndex (wrap_u64 (lastKeyIndex acc + 1)) acc /\
      match r with
      | inl _ => True
      | inr cond =>
          calls (allocateDepositRequest env acc req h) =
            [CSeed; CWriteIndex (id acc) (lastKeyIndex acc');
             CAddDepositRequest (id acc) (lastKeyIndex acc')
               {| Store.SecurityLevel := SecurityLevel (setts acc); Request := req |}] /\
          cond = {| Deposit.Req := req;
                    Deposit.Address :=
                      fst (GenerateAddress env seed (lastKeyIndex acc')
                             (SecurityLevel (setts acc)) true) |}
      end
  end.
Proof.
  unfold allocateDepositRequest, Seed, WriteIndex, AddDepositRequest.
  rewrite run_call_bind.
  destruct (prov_Seed env h) as [err | seed].
  - intros H. injection H as <- <-. repeat split; reflexivity.
  - cbn [set_lastKeyIndex lastKeyIndex id setts].
    destruct (GenerateAddress env seed (wrap_u64 (lastKeyIndex acc + 1))
                (SecurityLevel (setts acc)) true) as [addr [err |]] eqn:Hgen.
    + intros H. injection H as <- <-. split; [reflexivity | exact I].
    + rewrite run_call_bind.
      destruct (store_WriteIndex env (h ++ [CSeed]) (id acc) (wrap_u64 (lastKeyIndex acc + 1)))
        as [err |].
      * intros H. injection H as <- <-. split; [reflexivity | exact I].
      * rewrite run_call_bind.
        destruct (store_AddDepositRequest env _ (id acc) _ _) as [err |].
        -- intros H. injection H as <- <-. split; [reflexivity | exact I].
        -- intros H. injection H as <- <-. cbn [lastKeyIndex set_lastKeyIndex].
           rewrite Hgen. repeat split; reflexivity.
Qed.

Lemma allocation_keeps_the_advanced_index_witness :
  value (allocateDepositRequest funded_world sample_account
           (Request (request_until 1700003600 100)) []) =
    Some (inr {| Deposit.Req := Request (request_until 1700003600 100);
                 Deposit.Address := "ADDR3" +:+ repeat_string "9" 85 |},
          set_lastKeyIndex 3 sample_account) /\
  calls (allocateDepositRequest funded_world sample_account
           (Request (request_until 1700003600 100)) []) =
    [CSeed; CWriteIndex (id sample_account) 3;
     CAddDepositRequest (id sample_account) 3 (request_until 1700003600 100)].
Proof.
  split; [vm_compute; reflexivity |].
  pose proof (allocation_keeps_the_advanced_index funded_world sample_account
                (Request (request_until 1700003600 100)) []
                (inr {| Deposit.Req := Request (request_until 1700003600 100);
                        Deposit.Address := "ADDR3" +:+ repeat_string "9" 85 |})
                (set_lastKeyIndex 3 sample_account)) as H.
  cbv beta iota in H.
  refine (proj1 (proj2 (H _))). vm_compute. reflexivity.
Defined.

(** ** Incoming transfers of a timed out address *)

Section Incoming.
Variable env : Env.

Lemma incoming_loop_passes_over addr : forall bndls persisted h,
  forallb (confirmed_or_no_deposit addr) bndls = true ->
  incoming_loop env addr bndls persisted h = (Some (false, None), []).
Proof.
  induction bndls as [| bndl rest IH]; intros persisted h Hall; [reflexivity |].
  cbn [forallb] in Hall. apply andb_true_iff in Hall as [Hb Hrest].
  cbn [incoming_loop]. unfold confirmed_or_no_deposit in Hb.
  destruct bndl as [| b0 txs]; [discriminate |].
  unfold index. cbn [lookup list_lookup]. rewrite run_ret_bind.
  destruct (tx_Persistence b0) as [persistence |]; [| discriminate].
  destruct (ptr_val persistence); [apply IH; exact Hrest |].
  destruct (bool_decide _); [apply IH; exact Hrest |].
  cbn [orb] in Hb. rewrite Hb. apply IH. exact Hrest.
Qed.

(** When every bundle the node knows for an address has a confirmed first
    transaction or puts no positive value on the address,
    [hasIncomingConsistentValueTransfer] answers [false] without an error and
    asks the node for nothing but the bundles: no consistency check is
    made. *)
Theorem no_pending_deposit_means_no_consistency_check addr h bndls :
  api_GetBundlesFromAddresses env h [addr] true = inr bndls ->
  forallb (confirmed_or_no_deposit addr) bndls = true ->
  hasIncomingConsistentValueTransfer env addr h =
  (Some (false, None), [CGetBundlesFromAddresses [addr] true]).
Proof.
  intros Hb Hall. unfold hasIncomingConsistentValueTransfer, GetBundlesFromAddresses.
  rewrite run_call_bind, Hb, (incoming_loop_passes_over addr bndls _ _ Hall). reflexivity.
Qed.

End Incoming.

Lemma no_pending_deposit_means_no_consistency_check_witness :
  hasIncomingConsistentValueTransfer bundles_world "ADDR7" [] =
  (Some (false, None), [CGetBundlesFromAddresses ["ADDR7"] true]).
Proof.
  apply (no_pending_deposit_means_no_consistency_check bundles_world "ADDR7" []
           (sample_bundles "ADDR7")); reflexivity.
Defined.

End AccountMore.

(* ===================================================================== *)
(** * Properties of the per-tail event filter                            *)
(* ===================================================================== *)

Module PollerProps.
Import World Poller.
Local Open Scope list_scope.

Section Filter.
Variable ValidBundle : Bundle -> option error.
Variable TailTransactionHash : Bundle -> Hash.

Lemma sort_bundles_entries d s : forall bndls ing ed ing' ed',
  sort_bundles ValidBundle TailTransactionHash bndls d s ing ed = Some (ing', ed') ->
  (forall k b, ing' !! k = Some b -> ing !! k = Some b \/ let_through ValidBundle TailTransactionHash bndls d s k b) /\
  (forall k b, ed' !! k = Some b -> ed !! k = Some b \/ let_through ValidBundle TailTransactionHash bndls d s k b).
Proof.
  induction bndls as [| bndl rest IH]; intros ing ed ing' ed' H; cbn [sort_bundles] in H.
  - injection H as <- <-. split; intros k b Hk; left; exact Hk.
  - assert (Hweak : forall k b, let_through ValidBundle TailTransactionHash rest d s k b -> let_through ValidBundle TailTransactionHash (bndl :: rest) d s k b).
    { intros k b (Hin & Hrest). split; [right; exact Hin | exact Hrest]. }
    assert (Hskip : forall ing0 ed0,
              sort_bundles ValidBundle TailTransactionHash rest d s ing0 ed0 = Some (ing', ed') ->
              ing0 = ing -> ed0 = ed ->
              (forall k b, ing' !! k = Some b -> ing !! k = Some b \/ let_through ValidBundle TailTransactionHash (bndl :: rest) d s k b) /\
              (forall k b, ed' !! k = Some b -> ed !! k = Some b \/ let_through ValidBundle TailTransactionHash (bndl :: rest) d s k b)).
    { intros ing0 ed0 H0 -> ->. destruct (IH _ _ _ _ H0) as [H1 H2].
      split; intros k b Hk; [destruct (H1 k b Hk) | destruct (H2 k b Hk)]; auto. }
    destruct (ValidBundle bndl) eqn:Hvalid; [exact (Hskip _ _ H eq_refl eq_refl) |].
    destruct (spends_from s bndl) eqn:Hs; [exact (Hskip _ _ H eq_refl eq_refl) |].
    destruct (spends_from d bndl) eqn:Hd; [exact (Hskip _ _ H eq_refl eq_refl) |].
    cbn [orb] in H.
    destruct (bndl !! 0%nat) as [b0 |]; [| discriminate].
    destruct (tx_Persistence b0) as [persistence |]; [| discriminate].
    assert (Hnew : let_through ValidBundle TailTransactionHash (bndl :: rest) d s (TailTransactionHash bndl) bndl).
    { split; [left; reflexivity | auto]. }
    destruct (ptr_val persistence); destruct (IH _ _ _ _ H) as [H1 H2]; split; intros k b Hk.
    + destruct (H1 k b Hk); auto.
    + destruct (H2 k b Hk) as [Hold | Hnow]; [| auto].
      destruct (decide (TailTransactionHash bndl = k)) as [<- | Hne].
      * rewrite lookup_insert_eq in Hold. injection Hold as <-. right. exact Hnew.
      * rewrite lookup_insert_ne in Hold by exact Hne. left. exact Hold.
    + destruct (H1 k b Hk) as [Hold | Hnow]; [| auto].
      destruct (decide (TailTransactionHash bndl = k)) as [<- | Hne].
      * rewrite lookup_insert_eq in Hold. injection Hold as <-. right. exact Hnew.
      * rewrite lookup_insert_ne in Hold by exact Hne. left. exact Hold.
    + destruct (H2 k b Hk); auto.
Qed.

Lemma in_larger (k : string) (F F' : gset string) : {[ k ]} ∪ F ⊆ F' -> k ∈ F'.
Proof. intros H. apply H, elem_of_union. left. apply elem_of_singleton. reflexivity. Qed.

Lemma sub_larger (k : string) (F F' : gset string) : {[ k ]} ∪ F ⊆ F' -> F ⊆ F'.
Proof. intros H x Hx. apply H, elem_of_union. right. exact Hx. Qed.

Lemma notin_smaller (k k' : string) (F : gset string) : k' ∉ {[ k ]} ∪ F -> k' ∉ F.
Proof. intros H Hx. apply H, elem_of_union. right. exact Hx. Qed.

(** The loop over [receivingBundles] leaves its filter holding every tail it
    went over, and each event it adds is for an entry whose tail was not in
    the filter. *)
Lemma receiving_loop_records : forall l F ev F' ev',
  fold_left receiving_step l (F, ev) = (F', ev') ->
  F ⊆ F' /\ (forall k b, In (k, b) l -> k ∈ F') /\
  exists new, ev' = ev ++ new /\
    Forall (fun t => exists k, In (k, ret_Bundle t) l /\ (k ∉ F) /\
                               (ret_Event t = EventReceivingDeposit \/
                                ret_Event t = EventReceivedMessage)) new.
Proof.
  induction l as [| [k b] rest IH]; intros F ev F' ev' H; cbn [fold_left] in H.
  - injection H as <- <-. split; [reflexivity |]. split; [intros k b [] |].
    exists []. split; [symmetry; apply app_nil_r | constructor].
  - unfold receiving_step at 2 in H. destruct (bool_decide (k ∈ F)) eqn:Hk.
    + apply bool_decide_eq_true in Hk. destruct (IH _ _ _ _ H) as (Hsub & Hall & new & -> & Hnew).
      split; [exact Hsub |]. split.
      * intros k' b' [Heq | Hin]; [injection Heq as <- <-; exact (Hsub _ Hk) | eauto].
      * exists new. split; [reflexivity |]. eapply Forall_impl; [exact Hnew |].
        intros t (k' & Hin & Hnot & Hev). exists k'. split; [right; exact Hin | auto].
    + apply bool_decide_eq_false in Hk. destruct (IH _ _ _ _ H) as (Hsub & Hall & new & -> & Hnew).
      split; [exact (sub_larger _ _ _ Hsub) |]. split.
      * intros k' b' [Heq | Hin]; [injection Heq as <- <-; exact (in_larger _ _ _ Hsub) | eauto].
      * eexists. split; [rewrite <- app_assoc; reflexivity |].
        cbn [app]. constructor.
        -- exists k. cbn [ret_Bundle ret_Event]. split; [left; reflexivity |].
           split; [exact Hk |]. destruct (isValueTransfer b); auto.
        -- eapply Forall_impl; [exact Hnew |].
           intros t (k' & Hin & Hnot & Hev). exists k'. split; [right; exact Hin |].
           split; [exact (notin_smaller _ _ _ Hnot) | exact Hev].
Qed.

Lemma receiving_loop_known : forall l F ev,
  (forall k b, In (k, b) l -> k ∈ F) -> fold_left receiving_step l (F, ev) = (F, ev).
Proof.
  induction l as [| [k b] rest IH]; intros F ev Hall; cbn [fold_left]; [reflexivity |].
  unfold receiving_step at 2. rewrite bool_decide_eq_true_2 by (apply (Hall k b); left; reflexivity).
  apply IH. intros k' b' Hin. apply (Hall k' b'). right. exact Hin.
Qed.

(** The same for the loop over [receivedBundles]; a message it announces has
    a tail that is not in [receivingFilter]. *)
Lemma received_loop_records R : forall l F ev F' ev',
  fold_left (received_step R) l (F, ev) = (F', ev') ->
  F ⊆ F' /\ (forall k b, In (k, b) l -> k ∈ F') /\
  exists new, ev' = ev ++ new /\
    Forall (fun t => exists k, In (k, ret_Bundle t) l /\ (k ∉ F) /\
                               (ret_Event t = EventReceivedDeposit \/
                                ret_Event t = EventReceivedMessage /\ (k ∉ R))) new.
Proof.
  induction l as [| [k b] rest IH]; intros F ev F' ev' H; cbn [fold_left] in H.
  - injection H as <- <-. split; [reflexivity |]. split; [intros k b [] |].
    exists []. split; [symmetry; apply app_nil_r | constructor].
  - unfold received_step at 2 in H. destruct (bool_decide (k ∈ F)) eqn:Hk.
    + apply bool_decide_eq_true in Hk. destruct (IH _ _ _ _ H) as (Hsub & Hall & new & -> & Hnew).
      split; [exact Hsub |]. split.
      * intros k' b' [Heq | Hin]; [injection Heq as <- <-; exact (Hsub _ Hk) | eauto].
      * exists new. split; [reflexivity |]. eapply Forall_impl; [exact Hnew |].
        intros t (k' & Hin & Hrest). exists k'. split; [right; exact Hin | exact Hrest].
    + apply bool_decide_eq_false in Hk.
      assert (Hlater : forall new,
                Forall (fun t => exists k0, In (k0, ret_Bundle t) rest /\ (k0 ∉ {[k]} ∪ F) /\
                                 (ret_Event t = EventReceivedDeposit \/
                                  ret_Event t = EventReceivedMessage /\ (k0 ∉ R))) new ->
                Forall (fun t => exists k0, In (k0, ret_Bundle t) ((k, b) :: rest) /\ (k0 ∉ F) /\
                                 (ret_Event t = EventReceivedDeposit \/
                                  ret_Event t = EventReceivedMessage /\ (k0 ∉ R))) new).
      { intros new Hnew. eapply Forall_impl; [exact Hnew |].
        intros t (k' & Hin & Hnot & Hrest). exists k'. split; [right; exact Hin |].
        split; [exact (notin_smaller _ _ _ Hnot) | exact Hrest]. }
      destruct (isValueTransfer b) eqn:Hvalue; [| destruct (bool_decide (k ∈ R)) eqn:HR].
      * destruct (IH _ _ _ _ H) as (Hsub & Hall & new & -> & Hnew).
        split; [exact (sub_larger _ _ _ Hsub) |]. split.
        -- intros k' b' [Heq | Hin]; [injection Heq as <- <-; exact (in_larger _ _ _ Hsub) | eauto].
        -- eexists. split; [rewrite <- app_assoc; reflexivity |].
           cbn [app]. constructor; [| exact (Hlater _ Hnew)].
           exists k. cbn [ret_Bundle ret_Event]. split; [left; reflexivity |].
           split; [exact Hk | left; reflexivity].
      * destruct (IH _ _ _ _ H) as (Hsub & Hall & new & -> & Hnew).
        split; [exact (sub_larger _ _ _ Hsub) |]. split.
        -- intros k' b' [Heq | Hin]; [injection Heq as <- <-; exact (in_larger _ _ _ Hsub) | eauto].
        -- exists new. split; [reflexivity | exact (Hlater _ Hnew)].
      * apply bool_decide_eq_false in HR.
        destruct (IH _ _ _ _ H) as (Hsub & Hall & new & -> & Hnew).
        split; [exact (sub_larger _ _ _ Hsub) |]. split.
        -- intros k' b' [Heq | Hin]; [injection Heq as <- <-; exact (in_larger _ _ _ Hsub) | eauto].
        -- eexists. split; [rewrite <- app_assoc; reflexivity |].
           cbn [app]. constructor; [| exact (Hlater _ Hnew)].
           exists k. cbn [ret_Bundle ret_Event]. split; [left; reflexivity |].
           split; [exact Hk | right; split; [reflexivity | exact HR]].
Qed.

Lemma received_loop_known R : forall l F ev,
  (forall k b, In (k, b) l -> k ∈ F) -> fold_left (received_step R) l (F, ev) = (F, ev).
Proof.
  induction l as [| [k b] rest IH]; intros F ev Hall; cbn [fold_left]; [reflexivity |].
  unfold received_step at 2. rewrite bool_decide_eq_true_2 by (apply (Hall k b); left; reflexivity).
  apply IH. intros k' b' Hin. apply (Hall k' b'). right. exact Hin.
Qed.

(** A second pass of the filter over the same bundles emits nothing and
    leaves the closure as the first pass left it: every tail is announced at
    most once for each of its two states, whether or not the first pass was
    the silent one of [skipFirst]. *)
Theorem second_pass_over_the_same_bundles_is_silent c bndls ownDepAddrs ownSpentAddrs c1 events :
  filter ValidBundle TailTransactionHash c bndls ownDepAddrs ownSpentAddrs = Some (c1, events) ->
  filter ValidBundle TailTransactionHash c1 bndls ownDepAddrs ownSpentAddrs = Some (c1, []).
Proof.
  unfold filter.
  destruct (sort_bundles _ _ bndls ownDepAddrs ownSpentAddrs ∅ ∅) as [[ing ed] |];
    [| discriminate].
  destruct (fold_left receiving_step (map_to_list ing) (receivingFilter c, []))
    as [receiving ev1] eqn:H1.
  destruct (fold_left (received_step receiving) (map_to_list ed) (receivedFilter c, ev1))
    as [received ev2] eqn:H2.
  intros H.
  assert (Hc1 : c1 = {| skipFirstEmitting := false; receivedFilter := received;
                        receivingFilter := receiving |}).
  { destruct (skipFirstEmitting c); injection H as <- _; reflexivity. }
  subst c1. cbn [receivingFilter receivedFilter skipFirstEmitting].
  destruct (receiving_loop_records _ _ _ _ _ H1) as (_ & Hing & _).
  destruct (received_loop_records _ _ _ _ _ _ H2) as (_ & Hed & _).
  rewrite (receiving_loop_known _ _ _ Hing), (received_loop_known _ _ _ _ Hed).
  reflexivity.
Qed.

(** Every event the filter emits is for a bundle of its input that
    [bundle.ValidBundle] accepts and that takes no value from an own deposit
    address or an own spent address. *)
Theorem filter_never_announces_own_spends c bndls ownDepAddrs ownSpentAddrs c1 events :
  filter ValidBundle TailTransactionHash c bndls ownDepAddrs ownSpentAddrs = Some (c1, events) ->
  Forall (fun t => In (ret_Bundle t) bndls /\ ValidBundle (ret_Bundle t) = None /\
                   spends_from ownDepAddrs (ret_Bundle t) = false /\
                   spends_from ownSpentAddrs (ret_Bundle t) = false) events.
Proof.
  unfold filter.
  destruct (sort_bundles _ _ bndls ownDepAddrs ownSpentAddrs ∅ ∅) as [[ing ed] |] eqn:Hsort;
    [| discriminate].
  destruct (sort_bundles_entries _ _ _ _ _ _ _ Hsort) as [Hing Hed].
  destruct (fold_left receiving_step (map_to_list ing) (receivingFilter c, []))
    as [receiving ev1] eqn:H1.
  destruct (fold_left (received_step receiving) (map_to_list ed) (receivedFilter c, ev1))
    as [received ev2] eqn:H2.
  intros H.
  destruct (receiving_loop_records _ _ _ _ _ H1) as (_ & _ & new1 & -> & Hnew1).
  destruct (received_loop_records _ _ _ _ _ _ H2) as (_ & _ & new2 & -> & Hnew2).
  destruct (skipFirstEmitting c); injection H as _ <-; [constructor |].
  cbn [app]. apply Forall_app. split.
  - eapply Forall_impl; [exact Hnew1 |]. intros t (k & Hin & _).
    apply list_elem_of_In, elem_of_map_to_list in Hin.
    destruct (Hing _ _ Hin) as [Hempty | (? & ? & ? & ? & _)]; [| auto].
    rewrite lookup_empty in Hempty. discriminate.
  - eapply Forall_impl; [exact Hnew2 |]. intros t (k & Hin & _).
    apply list_elem_of_In, elem_of_map_to_list in Hin.
    destruct (Hed _ _ Hin) as [Hempty | (? & ? & ? & ? & _)]; [| auto].
    rewrite lookup_empty in Hempty. discriminate.
Qed.

(** No event is emitted for a tail the closure has on record: a deposit that
    is being received has a tail outside [receivingFilter], a received
    deposit one outside [receivedFilter], and a message one outside
    [receivingFilter] - a message announced while it was pending is not
    announced again when it is confirmed. *)
Theorem filter_announces_new_tails_only c bndls ownDepAddrs ownSpentAddrs c1 events :
  filter ValidBundle TailTransactionHash c bndls ownDepAddrs ownSpentAddrs = Some (c1, events) ->
  Forall (fun t =>
            match ret_Event t with
            | EventReceivingDeposit | EventReceivedMessage =>
                TailTransactionHash (ret_Bundle t) ∉ receivingFilter c
            | EventReceivedDeposit =>
                TailTransactionHash (ret_Bundle t) ∉ receivedFilter c
            | EventTransferConfirmed => False
            end) events.
Proof.
  unfold filter.
  destruct (sort_bundles _ _ bndls ownDepAddrs ownSpentAddrs ∅ ∅) as [[ing ed] |] eqn:Hsort;
    [| discriminate].
  destruct (sort_bundles_entries _ _ _ _ _ _ _ Hsort) as [Hing Hed].
  destruct (fold_left receiving_step (map_to_list ing) (receivingFilter c, []))
    as [receiving ev1] eqn:H1.
  destruct (fold_left (received_step receiving) (map_to_list ed) (receivedFilter c, ev1))
    as [received ev2] eqn:H2.
  intros H.
  destruct (receiving_loop_records _ _ _ _ _ H1) as (Hsub & _ & new1 & -> & Hnew1).
  destruct (received_loop_records _ _ _ _ _ _ H2) as (_ & _ & new2 & -> & Hnew2).
  destruct (skipFirstEmitting c); injection H as _ <-; [constructor |].
  cbn [app]. apply Forall_app. split.
  - eapply Forall_impl; [exact Hnew1 |]. intros t (k & Hin & Hnot & Hev).
    apply list_elem_of_In, elem_of_map_to_list in Hin.
    destruct (Hing _ _ Hin) as [Hempty | (_ & _ & _ & _ & ->)];
      [rewrite lookup_empty in Hempty; discriminate |].
    destruct Hev as [-> | ->]; exact Hnot.
  - eapply Forall_impl; [exact Hnew2 |]. intros t (k & Hin & Hnot & Hev).
    apply list_elem_of_In, elem_of_map_to_list in Hin.
    destruct (Hed _ _ Hin) as [Hempty | (_ & _ & _ & _ & ->)];
      [rewrite lookup_empty in Hempty; discriminate |].
    destruct Hev as [-> | [-> Hmsg]]; [exact Hnot |].
    intros Hx. exact (Hmsg (Hsub _ Hx)).
Qed.

End Filter.

Lemma second_pass_over_the_same_bundles_is_silent_witness :
  filter never_empty first_hash (NewPerTailReceiveEventFilter [true]) (incoming "ADDR")
         {[ "ADDR" ]} ∅ =
    Some (seen_pending, []) /\
  filter never_empty first_hash
         seen_pending
         (incoming "ADDR") {[ "ADDR" ]} ∅ =
    Some (seen_pending, []).
Proof.
  split; [vm_compute; reflexivity |].
  apply (second_pass_over_the_same_bundles_is_silent never_empty first_hash
           (NewPerTailReceiveEventFilter [true]) (incoming "ADDR") {[ "ADDR" ]} ∅ _ []).
  vm_compute. reflexivity.
Defined.

Lemma filter_never_announces_own_spends_witness :
  Forall (fun t => In (ret_Bundle t) (incoming "ADDR") /\ never_empty (ret_Bundle t) = None /\
                   spends_from {[ "ADDR" ]} (ret_Bundle t) = false /\
                   spends_from ∅ (ret_Bundle t) = false)
    [ {| ret_Event := EventReceivingDeposit;
         ret_Bundle := [ {| tx_Hash := "TAILA"; tx_Address := "ADDR"; tx_Value := 10;
                            tx_Timestamp := 1700000000; tx_Bundle := "BUNDLEA";
                            tx_Persistence := Some (Ptr 824634000000 false) |} ] |};
      {| ret_Event := EventReceivedMessage;
         ret_Bundle := [ {| tx_Hash := "TAILB"; tx_Address := "ADDR"; tx_Value := 0;
                            tx_Timestamp := 1700000000; tx_Bundle := "BUNDLEB";
                            tx_Persistence := Some (Ptr 824634000008 false) |} ] |} ].
Proof.
  apply (filter_never_announces_own_spends never_empty first_hash
           (NewPerTailReceiveEventFilter []) (incoming "ADDR") {[ "ADDR" ]} ∅
           seen_pending).
  vm_compute. reflexivity.
Defined.

Lemma filter_announces_new_tails_only_witness :
  Forall (fun t =>
            match ret_Event t with
            | EventReceivingDeposit | EventReceivedMessage =>
                first_hash (ret_Bundle t) ∉ receivingFilter seen_pending
            | EventReceivedDeposit => first_hash (ret_Bundle t) ∉ receivedFilter seen_pending
            | EventTransferConfirmed => False
            end)
    [ {| ret_Event := EventReceivedDeposit;
         ret_Bundle := [ {| tx_Hash := "TAILA"; tx_Address := "ADDR"; tx_Value := 10;
                            tx_Timestamp := 1700000000; tx_Bundle := "BUNDLEA";
                            tx_Persistence := Some (Ptr 824634000000 true) |} ] |} ].
Proof.
  apply (filter_announces_new_tails_only never_empty first_hash
           seen_pending
           (map confirm (incoming "ADDR")) {[ "ADDR" ]} ∅
           {| skipFirstEmitting := false; receivedFilter := {[ "TAILA"; "TAILB" ]};
              receivingFilter := {[ "TAILA"; "TAILB" ]} |}).
  vm_compute. reflexivity.
Defined.

End PollerProps.

(* ===================================================================== *)
(** * More properties of the magnet link                                 *)
(* ===================================================================== *)

Module DepositMore.
Import World Deposit DepositTransfer.

(** ** Strings without a given byte *)

Lemma append_cons x (a b : string) : String x a ++ b = String x (a ++ b).
Proof. reflexivity. Qed.

Lemma append_nil_l (b : string) : EmptyString ++ b = b.
Proof. reflexivity. Qed.

Lemma lacks_app c a b : lacks c (a ++ b) = lacks c a && lacks c b.
Proof.
  induction a as [| x a IH]; [reflexivity |].
  rewrite append_cons. cbn [lacks]. rewrite IH. apply andb_assoc.
Qed.

Lemma cut_found c a r : lacks c a = true -> cut c (a ++ String c r) = (a, Some r).
Proof.
  induction a as [| x a IH]; intros H; rewrite ?append_cons, ?append_nil_l; cbn [cut].
  - rewrite Ascii.eqb_refl. reflexivity.
  - cbn [lacks] in H. apply andb_true_iff in H as [Hx Hr].
    apply negb_true_iff in Hx. rewrite Hx, (IH Hr). reflexivity.
Qed.

Lemma cut_missing c a : lacks c a = true -> cut c a = (a, None).
Proof.
  induction a as [| x a IH]; intros H; cbn [cut]; [reflexivity |].
  cbn [lacks] in H. apply andb_true_iff in H as [Hx Hr].
  apply negb_true_iff in Hx. rewrite Hx, (IH Hr). reflexivity.
Qed.

Lemma append_assoc (a b c : string) : (a ++ b) ++ c = a ++ (b ++ c).
Proof. induction a as [| x a IH]; [reflexivity |]. rewrite !append_cons, IH. reflexivity. Qed.

Lemma append_nil_r (a : string) : a ++ EmptyString = a.
Proof. induction a as [| x a IH]; [reflexivity |]. rewrite !append_cons, IH. reflexivity. Qed.

Lemma split_acc_found c a r : forall cur,
  lacks c a = true ->
  split_acc c cur (a ++ String c r) = (cur ++ a) :: split_acc c EmptyString r.
Proof.
  induction a as [| x a IH]; intros cur H; rewrite ?append_cons, ?append_nil_l; cbn [split_acc].
  - rewrite Ascii.eqb_refl, append_nil_r. reflexivity.
  - cbn [lacks] in H. apply andb_true_iff in H as [Hx Hr].
    apply negb_true_iff in Hx. rewrite Hx, (IH _ Hr), append_assoc. reflexivity.
Qed.

Lemma split_acc_missing c a : forall cur,
  lacks c a = true -> split_acc c cur a = [cur ++ a].
Proof.
  induction a as [| x a IH]; intros cur H; cbn [split_acc].
  - rewrite append_nil_r. reflexivity.
  - cbn [lacks] in H. apply andb_true_iff in H as [Hx Hr].
    apply negb_true_iff in Hx. rewrite Hx, (IH _ Hr), append_assoc. reflexivity.
Qed.

(** A tryte string holds no byte that is not a tryte. *)
Lemma lacks_trytes c s : is_tryte c = false -> IsTrytes_chars s = true -> lacks c s = true.
Proof.
  intros Hc. induction s as [| x s IH]; intros H; [reflexivity |].
  cbn [IsTrytes_chars] in H. apply andb_true_iff in H as [Hx Hs].
  cbn [lacks]. rewrite (IH Hs), andb_true_r. apply negb_true_iff.
  destruct (Ascii.eqb_spec x c) as [-> | _]; [congruence | reflexivity].
Qed.

(** ** Decimal numerals *)

(** The decimal numeral of a number holds digits only. *)
Lemma lacks_uint c d : digit_of c = None -> lacks c (NilEmpty.string_of_uint d) = true.
Proof.
  intros Hc. induction d as [| d IH | d IH | d IH | d IH | d IH | d IH | d IH | d IH | d IH | d IH];
    [reflexivity | ..]; cbn [NilEmpty.string_of_uint lacks]; rewrite IH, andb_true_r;
    apply negb_true_iff;
    match goal with
    | |- Ascii.eqb ?x c = false =>
        destruct (Ascii.eqb_spec x c) as [<- | _]; [discriminate Hc | reflexivity]
    end.
Qed.

Ltac read_digit :=
  match goal with
  | |- context [digit_of ?x] =>
      let v := eval vm_compute in (digit_of x) in change (digit_of x) with v
  end; cbv beta iota.

(** The digit loop of [strconv] reads a numeral the way [Pos.of_uint] does. *)
Lemma parse_digits_acc d : forall acc,
  parse_digits (Z.pos acc) (NilEmpty.string_of_uint d) = Some (Z.pos (Pos.of_uint_acc d acc)).
Proof.
  induction d as [| d IH | d IH | d IH | d IH | d IH | d IH | d IH | d IH | d IH | d IH];
    intros acc; [reflexivity | ..];
    cbn [NilEmpty.string_of_uint parse_digits Pos.of_uint_acc]; read_digit;
    rewrite <- IH; f_equal; lia.
Qed.

Lemma parse_digits_uint d :
  parse_digits 0 (NilEmpty.string_of_uint d) = Some (Z.of_N (Pos.of_uint d)).
Proof.
  induction d as [| d IH | d IH | d IH | d IH | d IH | d IH | d IH | d IH | d IH | d IH];
    [reflexivity | ..];
    cbn [NilEmpty.string_of_uint parse_digits Pos.of_uint]; read_digit;
    [exact IH | ..]; cbn [Z.of_N]; rewrite <- parse_digits_acc; reflexivity.
Qed.

Lemma N_to_uint_nonnil k : N.to_uint k <> Decimal.Nil.
Proof.
  destruct k as [| q]; [discriminate |]. unfold N.to_uint.
  apply DecimalPos.Unsigned.to_uint_nonnil.
Qed.

Lemma FormatUint_numeral n :
  FormatUint n = NilEmpty.string_of_uint (N.to_uint (Z.to_N n)).
Proof.
  unfold FormatUint, NilZero.string_of_uint.
  pose proof (N_to_uint_nonnil (Z.to_N n)) as H.
  destruct (N.to_uint (Z.to_N n)); [contradiction | reflexivity ..].
Qed.

Lemma numeral_nonempty d : d <> Decimal.Nil -> NilEmpty.string_of_uint d <> EmptyString.
Proof. destruct d; [contradiction | discriminate ..]. Qed.

(** [strconv.ParseUint] reads back what [strconv.FormatUint] (and the verb
    [%d] on an unsigned integer) prints. *)
Lemma ParseUint_FormatUint n : 0 <= n < uint64_modulus -> ParseUint (FormatUint n) = inr n.
Proof.
  intros Hn. rewrite FormatUint_numeral. unfold ParseUint.
  pose proof (numeral_nonempty _ (N_to_uint_nonnil (Z.to_N n))) as Hne.
  destruct (NilEmpty.string_of_uint (N.to_uint (Z.to_N n))) as [| c r] eqn:Hs; [contradiction |].
  rewrite <- Hs, parse_digits_uint.
  change (Pos.of_uint (N.to_uint (Z.to_N n))) with (N.of_uint (N.to_uint (Z.to_N n))).
  rewrite DecimalN.Unsigned.of_to, Z2N.id by lia.
  destruct (Z.ltb_spec n uint64_modulus) as [_ | Hge]; [reflexivity | lia].
Qed.

(** [strconv.ParseInt] reads back what the verb [%d] prints for an [int64]. *)
Lemma ParseInt_fmt_d n : min_int64 <= n <= max_int64 -> ParseInt (fmt_d_int n) = inr n.
Proof.
  intros Hn. unfold fmt_d_int, NilZero.string_of_int.
  destruct n as [| p | p]; cbn [Z.to_int].
  - reflexivity.
  - change (NilZero.string_of_uint (Pos.to_uint p)) with (FormatUint (Z.pos p)).
    rewrite FormatUint_numeral.
    pose proof (numeral_nonempty _ (N_to_uint_nonnil (Z.to_N (Z.pos p)))) as Hne.
    pose proof (parse_digits_uint (N.to_uint (Z.to_N (Z.pos p)))) as Hparse.
    pose proof (lacks_uint "-" (N.to_uint (Z.to_N (Z.pos p))) eq_refl) as Hminus.
    pose proof (lacks_uint "+" (N.to_uint (Z.to_N (Z.pos p))) eq_refl) as Hplus.
    change (Pos.of_uint (N.to_uint (Z.to_N (Z.pos p))))
      with (N.of_uint (N.to_uint (Z.to_N (Z.pos p)))) in Hparse.
    rewrite DecimalN.Unsigned.of_to, Z2N.id in Hparse by lia.
    destruct (NilEmpty.string_of_uint (N.to_uint (Z.to_N (Z.pos p)))) as [| c r];
      [contradiction |].
    cbn [lacks] in Hminus, Hplus.
    apply andb_true_iff in Hminus as [Hminus _]. apply negb_true_iff in Hminus.
    apply andb_true_iff in Hplus as [Hplus _]. apply negb_true_iff in Hplus.
    unfold ParseInt. rewrite Hminus, Hplus. cbn [orb]. rewrite Hparse.
    destruct (Z.leb_spec (Z.pos p) max_int64) as [_ | Hgt]; [reflexivity | lia].
  - change (NilZero.string_of_uint (Pos.to_uint p)) with (FormatUint (Z.pos p)).
    rewrite FormatUint_numeral.
    pose proof (numeral_nonempty _ (N_to_uint_nonnil (Z.to_N (Z.pos p)))) as Hne.
    pose proof (parse_digits_uint (N.to_uint (Z.to_N (Z.pos p)))) as Hparse.
    change (Pos.of_uint (N.to_uint (Z.to_N (Z.pos p))))
      with (N.of_uint (N.to_uint (Z.to_N (Z.pos p)))) in Hparse.
    rewrite DecimalN.Unsigned.of_to, Z2N.id in Hparse by lia.
    unfold ParseInt. rewrite Ascii.eqb_refl. cbn [orb].
    destruct (NilEmpty.string_of_uint (N.to_uint (Z.to_N (Z.pos p)))) as [| c r];
      [contradiction |].
    rewrite Hparse.
    destruct (Z.leb_spec (Z.pos p) (2 ^ 63)) as [_ | Hgt]; [reflexivity |].
    unfold min_int64 in Hn. lia.
Qed.

(** ** The link as a URL *)

Lemma lacks_FormatUint c n : digit_of c = None -> lacks c (FormatUint n) = true.
Proof. intros Hc. rewrite FormatUint_numeral. apply lacks_uint. exact Hc. Qed.

Lemma lacks_fmt_d_int c n :
  digit_of c = None -> Ascii.eqb "-" c = false -> lacks c (fmt_d_int n) = true.
Proof.
  intros Hc Hminus. unfold fmt_d_int, NilZero.string_of_int.
  destruct (Z.to_int n) as [d | d]; cbn [lacks]; rewrite ?Hminus; cbn [negb andb];
    unfold NilZero.string_of_uint;
    (destruct d;
     [cbn [lacks]; destruct (Ascii.eqb_spec "0" c) as [<- | _];
        [discriminate Hc | reflexivity]
     | match goal with
       | |- lacks c (NilEmpty.string_of_uint ?d) = true => apply (lacks_uint c d Hc)
       end ..]).
Qed.

Lemma lacks_fmt_v_bool c b :
  lacks c "true" = true -> lacks c "false" = true -> lacks c (fmt_v_bool b) = true.
Proof. intros Ht Hf. destruct b; assumption. Qed.

(** What [url.Parse] makes of a link whose host holds none of [# ? /] and
    whose query holds no [#]. *)
Lemma url_Parse_link host query :
  lacks "#" host = true -> lacks "?" host = true -> lacks "/" host = true ->
  lacks "#" query = true ->
  url_Parse ("iota://" ++ host ++ "/?" ++ query) =
  inr {| Scheme := "iota"; Host := host; Path := "/"; RawQuery := query |}.
Proof.
  intros Hhash Hquestion Hslash Hquery. unfold url_Parse.
  rewrite cut_missing by (rewrite !lacks_app, Hhash, Hquery; reflexivity).
  change ("iota://" ++ host ++ "/?" ++ query)
    with (String "i" (String "o" (String "t" (String "a" (String ":"
            ("//" ++ host ++ "/?" ++ query)))))).
  change (getScheme_from 0 EmptyString
            (String "i" (String "o" (String "t" (String "a" (String ":"
               ("//" ++ host ++ "/?" ++ query))))))
            (String "i" (String "o" (String "t" (String "a" (String ":"
               ("//" ++ host ++ "/?" ++ query)))))))
    with (@inr error (string * string) ("iota", "//" ++ host ++ "/?" ++ query)).
  cbv beta iota.
  replace ("//" ++ host ++ "/?" ++ query) with (("//" ++ host ++ "/") ++ String "?" query)
    by (rewrite !append_assoc; reflexivity).
  rewrite cut_found by (rewrite !lacks_app, Hquestion; reflexivity).
  change (has_prefix "//" ("//" ++ host ++ "/")) with (Some (host ++ String "/" EmptyString)).
  cbv beta iota. rewrite cut_found by exact Hslash. reflexivity.
Qed.

(** What [URL.Query] makes of the three conditions of a link. *)
Lemma url_Query_link scheme host path t m am :
  lacks "&" t = true -> lacks "&" m = true -> lacks "&" am = true ->
  url_Query {| Scheme := scheme; Host := host; Path := path;
               RawQuery := "t=" ++ t ++ "&m=" ++ m ++ "&am=" ++ am |} =
  [("t", t); ("m", m); ("am", am)].
Proof.
  intros Ht Hm Ham. unfold url_Query, split. cbn [RawQuery].
  replace ("t=" ++ t ++ "&m=" ++ m ++ "&am=" ++ am)
    with (("t=" ++ t) ++ String "&" (("m=" ++ m) ++ String "&" ("am=" ++ am)))
    by (rewrite !append_assoc; reflexivity).
  rewrite split_acc_found by (rewrite lacks_app, Ht; reflexivity).
  rewrite split_acc_found by (rewrite lacks_app, Hm; reflexivity).
  rewrite split_acc_missing by (rewrite lacks_app, Ham; reflexivity).
  reflexivity.
Qed.

(** ** The round trip *)

(** What comes back from a magnet link.  For any conditions with an address
    of 90 trytes, a timeout whose seconds fit an [int64] and an expected
    amount behind any pointer, [AsMagnetLink] yields a link that
    [ParseMagnetLink] accepts, and the conditions parsed from it carry the
    timeout cut to whole seconds and the multi-use flag; their address is
    empty, and their expected amount is the address of the pointer (zero for
    the nil pointer), whatever amount the pointer leads to. *)
Theorem magnet_link_brings_back_timeout_and_multi_use dc timeout a_expire a_amount :
  IsTrytes_chars (Address dc) = true ->
  len (Address dc) = AddressWithChecksumTrytesSize ->
  TimeoutAt (Req dc) = Some timeout ->
  min_int64 <= Time_Unix (ptr_val timeout) <= max_int64 ->
  (forall q, ExpectedAmount (Req dc) = Some q -> 0 <= ptr_addr q < uint64_modulus) ->
  exists link,
    AsMagnetLink dc = Some link /\
    ParseMagnetLink a_expire a_amount link =
    inr {| Req := {| TimeoutAt := Some (Ptr a_expire (time_Unix (Time_Unix (ptr_val timeout)) 0));
                     MultiUse := MultiUse (Req dc);
                     ExpectedAmount :=
                       Some (Ptr a_amount match ExpectedAmount (Req dc) with
                                          | Some q => ptr_addr q
                                          | None => 0
                                          end) |};
           Address := EmptyString |}.
Proof.
  intros Htrytes Hlen Htimeout Hsecs Hptr.
  unfold AsMagnetLink. rewrite Htimeout. cbn [deref fmap option_fmap option_map ptr_val].
  eexists. split; [reflexivity |].
  set (t := fmt_d_int (Time_Unix (ptr_val timeout))).
  set (m := fmt_v_bool (MultiUse (Req dc))).
  set (am := fmt_d_ptr (ExpectedAmount (Req dc))).
  assert (Hfree : forall c, digit_of c = None -> Ascii.eqb "-" c = false ->
                            lacks c "true" = true -> lacks c "false" = true ->
                            lacks c t = true /\ lacks c m = true /\ lacks c am = true).
  { intros c Hc Hminus Htrue Hfalse. split; [apply lacks_fmt_d_int; assumption |].
    split; [apply lacks_fmt_v_bool; assumption |].
    unfold am, fmt_d_ptr. destruct (ExpectedAmount (Req dc)); apply lacks_FormatUint; exact Hc. }
  destruct (Hfree "#"%char eq_refl eq_refl eq_refl eq_refl) as (Ht1 & Hm1 & Ham1).
  destruct (Hfree "&"%char eq_refl eq_refl eq_refl eq_refl) as (Ht2 & Hm2 & Ham2).
  unfold ParseMagnetLink.
  replace ("iota://" ++ Address dc ++ "/?t=" ++ t ++ "&m=" ++ m ++ "&am=" ++ am)
    with ("iota://" ++ Address dc ++ "/?" ++ ("t=" ++ t ++ "&m=" ++ m ++ "&am=" ++ am))
    by reflexivity.
  rewrite url_Parse_link;
    [| apply lacks_trytes; [reflexivity | exact Htrytes] ..
     | rewrite !lacks_app, Ht1, Hm1, Ham1; reflexivity].
  rewrite url_Query_link by assumption.
  cbn [Host]. rewrite Hlen, Z.eqb_refl. cbn [negb].
  change (values_Get [("t", t); ("m", m); ("am", am)] ConditionExpires) with t.
  change (values_Get [("t", t); ("m", m); ("am", am)] ConditionMultiUse) with m.
  change (values_Get [("t", t); ("m", m); ("am", am)] ConditionAmount) with am.
  unfold t. rewrite ParseInt_fmt_d by exact Hsecs.
  assert (Ham : ParseUint am = inr match ExpectedAmount (Req dc) with
                                   | Some q => ptr_addr q
                                   | None => 0
                                   end).
  { unfold am, fmt_d_ptr. destruct (ExpectedAmount (Req dc)) as [q |].
    - apply ParseUint_FormatUint, Hptr. reflexivity.
    - reflexivity. }
  rewrite Ham.
  assert (Hm : String.eqb m "true" = MultiUse (Req dc)).
  { unfold m. destruct (MultiUse (Req dc)); reflexivity. }
  rewrite Hm. reflexivity.
Qed.

Lemma magnet_link_brings_back_timeout_and_multi_use_witness :
  exists link,
    AsMagnetLink sample_conditions = Some link /\
    ParseMagnetLink 824633802824 824633811104 link =
    inr {| Req := {| TimeoutAt := Some (Ptr 824633802824 (time_Unix 1700000000 0));
                     MultiUse := true;
                     ExpectedAmount := Some (Ptr 824633811104 824633811096) |};
           Address := EmptyString |}.
Proof.
  apply (magnet_link_brings_back_timeout_and_multi_use sample_conditions
           (Ptr 824633802800 (time_Unix 1700000000 0)) 824633802824 824633811104).
  - reflexivity.
  - reflexivity.
  - reflexivity.
  - vm_compute. split; discriminate.
  - intros q Hq. injection Hq as <-. vm_compute. split; [discriminate | reflexivity].
Defined.

(** ** Paying a parsed link *)

Lemma lacks_plain c s : is_plain c = false -> plain_query s = true -> lacks c s = true.
Proof.
  intros Hc. induction s as [| x s IH]; intros H; [reflexivity |].
  cbn [plain_query] in H. apply andb_true_iff in H as [Hx Hs].
  cbn [lacks]. rewrite (IH Hs), andb_true_r. apply negb_true_iff.
  destruct (Ascii.eqb_spec x c) as [-> | _]; [congruence | reflexivity].
Qed.

(** The transfer made from the conditions of a parsed link goes to the empty
    address.  For a link [iota://host/?query] whose host is a tryte string
    and whose query holds lower-case letters, digits, [=], [&] and [-] only
    (no user info, port, fragment or escape): when [ParseMagnetLink] accepts
    the link, its host is 90 trytes long, and yet [AsTransfer] of the parsed
    conditions has the empty address, [ParseMagnetLink] having measured the
    host without keeping it; the value of the transfer is the amount the
    query gives under [am]. *)
Theorem transfer_of_a_parsed_link_has_no_address a_expire a_amount host query cond :
  IsTrytes_chars host = true ->
  plain_query query = true ->
  ParseMagnetLink a_expire a_amount ("iota://" ++ host ++ "/?" ++ query) = inr cond ->
  len host = AddressWithChecksumTrytesSize /\
  tr_Address (AsTransfer cond) = EmptyString /\
  ParseUint (values_Get (url_Query {| Scheme := "iota"; Host := host; Path := "/";
                                      RawQuery := query |}) ConditionAmount)
    = inr (tr_Value (AsTransfer cond)).
Proof.
  intros Hhost Hquery. unfold ParseMagnetLink.
  rewrite url_Parse_link;
    [| apply lacks_trytes; [reflexivity | exact Hhost] ..
     | apply lacks_plain; [reflexivity | exact Hquery]].
  cbn [Host].
  destruct (Z.eqb_spec (len host) AddressWithChecksumTrytesSize) as [Hlen | _];
    [| discriminate].
  cbn [negb].
  destruct (ParseInt _) as [e | secs]; [discriminate |].
  destruct (ParseUint _) as [e | amount] eqn:Hamount; [discriminate |].
  intros H. injection H as <-.
  split; [exact Hlen |]. split; [reflexivity | reflexivity].
Qed.

Lemma transfer_of_a_parsed_link_has_no_address_witness :
  len (Address sample_conditions) = AddressWithChecksumTrytesSize /\
  tr_Address (AsTransfer
                {| Req := {| TimeoutAt := Some (Ptr 824633802824 (time_Unix 1700000000 0));
                             MultiUse := true;
                             ExpectedAmount := Some (Ptr 824633811104 1000) |};
                   Address := EmptyString |}) = EmptyString /\
  ParseUint (values_Get (url_Query {| Scheme := "iota"; Host := Address sample_conditions;
                                      Path := "/";
                                      RawQuery := "t=1700000000&m=true&am=1000" |})
                        ConditionAmount) =
    inr (tr_Value (AsTransfer
                     {| Req := {| TimeoutAt := Some (Ptr 824633802824 (time_Unix 1700000000 0));
                                  MultiUse := true;
                                  ExpectedAmount := Some (Ptr 824633811104 1000) |};
                        Address := EmptyString |})).
Proof.
  apply (transfer_of_a_parsed_link_has_no_address 824633802824 824633811104
           (Address sample_conditions) "t=1700000000&m=true&am=1000").
  - reflexivity.
  - reflexivity.
  - vm_compute. reflexivity.
Defined.

End DepositMore.

(* ===================================================================== *)
(** * Properties of the poll for incoming transfers                      *)
(* ===================================================================== *)

Module IncomingProps.
Import Store World WorldProps Poller PollerProps Incoming.
Local Open Scope list_scope.

Section WithEnv.
Variable env : Env.

Lemma deposit_addresses_holds seed : forall reqs l0 s0 l s,
  deposit_addresses env seed reqs l0 s0 = inr (l, s) ->
  s0 ⊆ s /\
  forall keyIndex req, In (keyIndex, req) reqs ->
    fst (GenerateAddress env seed keyIndex (SecurityLevel req) false) ∈ s.
Proof.
  induction reqs as [| [k r] rest IH]; intros l0 s0 l s H; cbn [deposit_addresses] in H.
  - injection H as <- <-. split; [reflexivity | intros ? ? []].
  - destruct (GenerateAddress env seed k (SecurityLevel r) false) as [addr [err |]] eqn:Hgen;
      [discriminate |].
    destruct (IH _ _ _ _ H) as [Hsub Hall]. split; [exact (sub_larger _ _ _ Hsub) |].
    intros k' r' [Heq | Hin]; [| exact (Hall _ _ Hin)].
    injection Heq as <- <-. rewrite Hgen. exact (in_larger _ _ _ Hsub).
Qed.

Lemma spent_in_holds : forall bndl s0,
  s0 ⊆ spent_in bndl s0 /\
  forall tx, In tx bndl -> tx_Value tx < 0 -> tx_Address tx ∈ spent_in bndl s0.
Proof.
  induction bndl as [| t rest IH]; intros s0; unfold spent_in; cbn [fold_left].
  - split; [reflexivity | intros ? []].
  - fold (spent_in rest (if tx_Value t <? 0 then {[ tx_Address t ]} ∪ s0 else s0)).
    destruct (IH (if tx_Value t <? 0 then {[ tx_Address t ]} ∪ s0 else s0)) as [Hsub Hall].
    assert (Hs0 : s0 ⊆ (if tx_Value t <? 0 then {[ tx_Address t ]} ∪ s0 else s0)).
    { destruct (tx_Value t <? 0); [| reflexivity].
      intros x Hx. apply elem_of_union. right. exact Hx. }
    split; [etransitivity; [exact Hs0 | exact Hsub] |].
    intros tx [-> | Hin] Hneg; [| exact (Hall _ Hin Hneg)].
    apply Hsub. destruct (Z.ltb_spec (tx_Value tx) 0) as [_ | Hge]; [| lia].
    apply elem_of_union. left. apply elem_of_singleton. reflexivity.
Qed.

Lemma spent_addresses_holds : forall pts s0 s,
  spent_addresses env pts s0 = Some s ->
  s0 ⊆ s /\
  forall key transfer bndl spend,
    In (key, transfer) pts -> PendingTransferToBundle env transfer = inr bndl ->
    In spend bndl -> tx_Value spend < 0 -> tx_Address spend ∈ s.
Proof.
  induction pts as [| [k pt] rest IH]; intros s0 s H; cbn [spent_addresses] in H.
  - injection H as <-. split; [reflexivity | intros ? ? ? ? []].
  - destruct (PendingTransferToBundle env pt) as [e | bndl0] eqn:Hb; [discriminate |].
    destruct (IH _ _ H) as [Hsub Hall]. destruct (spent_in_holds bndl0 s0) as [Hsub0 Hall0].
    split; [etransitivity; [exact Hsub0 | exact Hsub] |].
    intros key transfer bndl spend [Heq | Hin] Hbndl Hspend Hneg.
    + injection Heq as <- <-. rewrite Hb in Hbndl. injection Hbndl as <-.
      apply Hsub, Hall0; assumption.
    + exact (Hall _ _ _ _ Hin Hbndl Hspend Hneg).
Qed.

Lemma spends_from_false addrs bndl :
  spends_from addrs bndl = false ->
  forall tx, In tx bndl -> tx_Value tx < 0 -> tx_Address tx ∉ addrs.
Proof.
  unfold spends_from. intros H tx Hin Hneg Hmem.
  assert (Htrue : existsb (fun tx => bool_decide (tx_Address tx ∈ addrs) && (tx_Value tx <? 0))
                    bndl = true).
  { apply existsb_exists. exists tx. split; [exact Hin |].
    rewrite bool_decide_eq_true_2 by exact Hmem.
    destruct (Z.ltb_spec (tx_Value tx) 0) as [_ | Hge]; [reflexivity | lia]. }
  congruence.
Qed.

Lemma spent_addresses_panics key transfer e : forall pts s0,
  In (key, transfer) pts -> PendingTransferToBundle env transfer = inl e ->
  spent_addresses env pts s0 = None.
Proof.
  induction pts as [| [k pt] rest IH]; intros s0 Hin He; [contradiction |].
  cbn [spent_addresses]. destruct Hin as [Heq | Hin].
  - injection Heq as <- <-. rewrite He. reflexivity.
  - destruct (PendingTransferToBundle env pt); [reflexivity | exact (IH _ Hin He)].
Qed.

(** A pending transfer that does not decode stops the poll for incoming
    transfers with a panic, wherever it stands among the pending transfers:
    once the seed and the deposit addresses are there,
    [checkIncomingTransfers] returns nothing, emits no event and does not ask
    the node for bundles. *)
Theorem undecodable_pending_transfer_panics
    depositRequests pendingTransfers h seed depAddrs depositAddresses key transfer e :
  depositRequests <> [] ->
  prov_Seed env h = inr seed ->
  deposit_addresses env seed depositRequests [] ∅ = inr (depAddrs, depositAddresses) ->
  In (key, transfer) pendingTransfers ->
  PendingTransferToBundle env transfer = inl e ->
  checkIncomingTransfers env depositRequests pendingTransfers h = (None, [CSeed]).
Proof.
  intros Hreqs Hseed Hdep Hin He. unfold checkIncomingTransfers.
  destruct depositRequests as [| r0 reqs]; [contradiction |].
  unfold Seed. rewrite run_call_bind, Hseed, Hdep.
  rewrite (spent_addresses_panics _ _ _ _ _ Hin He). reflexivity.
Qed.

Section Filter.
Variable ValidBundle : Bundle -> option error.
Variable TailTransactionHash : Bundle -> Hash.

(** What the filter emits went through its first loop. *)
Lemma events_were_let_through c bndls d s c1 events :
  filter ValidBundle TailTransactionHash c bndls d s = Some (c1, events) ->
  Forall (fun t => exists k,
            let_through ValidBundle TailTransactionHash bndls d s k (ret_Bundle t)) events.
Proof.
  unfold filter.
  destruct (sort_bundles _ _ bndls d s ∅ ∅) as [[ing ed] |] eqn:Hsort; [| discriminate].
  destruct (sort_bundles_entries _ _ _ _ _ _ _ _ _ Hsort) as [Hing Hed].
  destruct (fold_left receiving_step (map_to_list ing) (receivingFilter c, []))
    as [receiving ev1] eqn:H1.
  destruct (fold_left (received_step receiving) (map_to_list ed) (receivedFilter c, ev1))
    as [received ev2] eqn:H2.
  intros H.
  destruct (receiving_loop_records _ _ _ _ _ H1) as (_ & _ & new1 & -> & Hnew1).
  destruct (received_loop_records _ _ _ _ _ _ H2) as (_ & _ & new2 & -> & Hnew2).
  destruct (skipFirstEmitting c); injection H as _ <-; [constructor |].
  cbn [app]. apply Forall_app. split.
  - eapply Forall_impl; [exact Hnew1 |]. intros t (k & Hin & _).
    apply list_elem_of_In, elem_of_map_to_list in Hin.
    destruct (Hing _ _ Hin) as [Hempty | Hthrough]; [| exists k; exact Hthrough].
    rewrite lookup_empty in Hempty. discriminate.
  - eapply Forall_impl; [exact Hnew2 |]. intros t (k & Hin & _).
    apply list_elem_of_In, elem_of_map_to_list in Hin.
    destruct (Hed _ _ Hin) as [Hempty | Hthrough]; [| exists k; exact Hthrough].
    rewrite lookup_empty in Hempty. discriminate.
Qed.

(** A poll for incoming transfers announces no bundle that spends from the
    account: when [checkIncomingTransfers] gets to its filter and the filter
    is the per-tail filter, no transaction of an announced bundle takes value
    from the address of one of the deposit requests or from an address a
    pending transfer of the account spends from. *)
Theorem poll_announces_no_spend_of_the_account
    depositRequests pendingTransfers h seed bndls depAddrs spentAddrs c c1 events :
  prov_Seed env h = inr seed ->
  value (checkIncomingTransfers env depositRequests pendingTransfers h)
    = Some (Some (bndls, depAddrs, spentAddrs)) ->
  filter ValidBundle TailTransactionHash c bndls depAddrs spentAddrs = Some (c1, events) ->
  Forall (fun t =>
            Forall (fun tx => tx_Value tx < 0 ->
                              not_own env seed depositRequests pendingTransfers tx)
                   (ret_Bundle t)) events.
Proof.
  intros Hseed Hrun Hfilter.
  unfold checkIncomingTransfers in Hrun.
  destruct depositRequests as [| r0 reqs]; [discriminate |].
  unfold Seed in Hrun. rewrite run_call_bind, Hseed in Hrun. cbn [value fst] in Hrun.
  destruct (deposit_addresses env seed (r0 :: reqs) [] ∅) as [e | [l dep]] eqn:Hdep;
    [discriminate |].
  destruct (spent_addresses env pendingTransfers ∅) as [spent |] eqn:Hspent; [| discriminate].
  unfold GetBundlesFromAddresses in Hrun. rewrite run_call_bind in Hrun.
  destruct (api_GetBundlesFromAddresses env _ l true) as [e | bs]; [discriminate |].
  cbn [value fst ret] in Hrun. injection Hrun as <- <- <-.
  destruct (deposit_addresses_holds _ _ _ _ _ _ Hdep) as [_ Hown].
  destruct (spent_addresses_holds _ _ _ Hspent) as [_ Hspend].
  eapply Forall_impl; [exact (events_were_let_through _ _ _ _ _ _ Hfilter) |].
  intros t (k & _ & _ & Hs & Hd & _).
  apply Forall_forall. intros tx Hin Hneg. apply list_elem_of_In in Hin. split.
  - intros keyIndex req Hreq Heq.
    apply (spends_from_false _ _ Hd tx Hin Hneg). rewrite <- Heq. exact (Hown _ _ Hreq).
  - intros key transfer bndl spend Hpt Hbndl Hsp Hspneg Heq.
    apply (spends_from_false _ _ Hs tx Hin Hneg). rewrite <- Heq.
    exact (Hspend _ _ _ _ Hpt Hbndl Hsp Hspneg).
Qed.

End Filter.
End WithEnv.

Lemma poll_announces_no_spend_of_the_account_witness :
  Forall (fun t =>
            Forall (fun tx => tx_Value tx < 0 ->
                              not_own polled_world (repeat_string "S" 81) polled_requests [] tx)
                   (ret_Bundle t))
    [ {| ret_Event := EventReceivingDeposit;
         ret_Bundle := [ {| tx_Hash := "TAILA";
                            tx_Address := "ADDR1" +:+ repeat_string "9" 76; tx_Value := 10;
                            tx_Timestamp := 1700000000; tx_Bundle := "BUNDLEA";
                            tx_Persistence := Some (Ptr 824634000000 false) |} ] |};
      {| ret_Event := EventReceivedMessage;
         ret_Bundle := [ {| tx_Hash := "TAILB";
                            tx_Address := "ADDR1" +:+ repeat_string "9" 76; tx_Value := 0;
                            tx_Timestamp := 1700000000; tx_Bundle := "BUNDLEB";
                            tx_Persistence := Some (Ptr 824634000008 false) |} ] |} ].
Proof.
  apply (poll_announces_no_spend_of_the_account polled_world never_empty first_hash
           polled_requests [] [] (repeat_string "S" 81)
           (incoming ("ADDR1" +:+ repeat_string "9" 76))
           {[ "ADDR1" +:+ repeat_string "9" 76 ]} ∅
           (NewPerTailReceiveEventFilter [])
           {| skipFirstEmitting := false; receivedFilter := ∅;
              receivingFilter := {[ "TAILA"; "TAILB" ]} |}).
  - reflexivity.
  - vm_compute. reflexivity.
  - vm_compute. reflexivity.
Defined.

Lemma undecodable_pending_transfer_panics_witness :
  checkIncomingTransfers undecodable_world polled_requests
    [(Mongo.tail_A, {| Store.Bundle := []; Store.Tails := [Mongo.tail_A] |})] [] = (None, [CSeed]).
Proof.
  apply (undecodable_pending_transfer_panics undecodable_world polled_requests
           [(Mongo.tail_A, {| Store.Bundle := []; Store.Tails := [Mongo.tail_A] |})] []
           (repeat_string "S" 81) ["ADDR1" +:+ repeat_string "9" 76]
           {[ "ADDR1" +:+ repeat_string "9" 76 ]}
           Mongo.tail_A {| Store.Bundle := []; Store.Tails := [Mongo.tail_A] |} undecodable).
  - discriminate.
  - reflexivity.
  - vm_compute. reflexivity.
  - left. reflexivity.
  - reflexivity.
Defined.

End IncomingProps.
